(** * Semantic analysis of the Zig bootstrap compiler (analyze.cpp)

    A shallow embedding of the parts of [src/analyze.cpp] (and of the
    declarations of [src/all_types.hpp] they use) that own the type table,
    the error-value allocator, the conversion checks and the expression
    analyzer, together with the properties proved about them.

    Conventions of the embedding:
    - [uint32_t] and [uint64_t] values are [Z] with the wrap-around written
      out ([wrap32], [wrap64]);
    - [zig_panic], [zig_unreachable] and a failed [assert] end the process:
      functions that can reach one return a [result];
    - hash maps keyed by a [Buf] are [gmap string _];
    - LLVM and debug-info handles ([type_ref], [di_type], ...) have no
      counterpart besides, in [Interner], whether they are set. *)

From Stdlib Require Import ZArith Lia Bool.
From stdpp Require Import base option list gmap strings pretty fin_maps.

Local Open Scope Z_scope.
Local Open Scope string_scope.

(** ** Results of computations that may abort *)

Inductive result (A : Type) : Type :=
| Ok (a : A)
| Panic (msg : string)
| OutOfFuel.
Arguments Ok {A} a.
Arguments Panic {A} msg.
Arguments OutOfFuel {A}.

Definition bind {A B : Type} (m : result A) (f : A -> result B) : result B :=
  match m with
  | Ok a => f a
  | Panic msg => Panic msg
  | OutOfFuel => OutOfFuel
  end.

Notation "'let!' x := m 'in' k" := (bind m (fun x => k))
  (at level 10, x pattern, m at level 100, k at level 200,
   format "'[v' 'let!'  x  :=  m  'in' '/' k ']'").

Definition zig_unreachable {A : Type} : result A := Panic "unreachable".
Definition assert (b : bool) : result unit :=
  if b then Ok tt else Panic "assertion failed".

Definition wrap32 (z : Z) : Z := z mod 2 ^ 32.
Definition wrap64 (z : Z) : Z := z mod 2 ^ 64.

Definition UINT8_MAX : Z := 255.
Definition UINT16_MAX : Z := 65535.
Definition UINT32_MAX : Z := 4294967295.

(** ** The type table, by value

    Outside [Interner] a [TypeTableEntry*] is represented by the entry it
    points to.  Pointer, array, slice, maybe and error-union entries are
    canonical per child (theorem [Interner.interner_idempotent]), so pointer
    equality on them is equality of the entries; a declared struct or enum is
    identified by the [create_index] of its declaration, a function type by
    the import whose [fn_type_table] holds it and its name. *)

Inductive TypeTableEntryId :=
| TypeTableEntryIdInvalid
| TypeTableEntryIdMetaType
| TypeTableEntryIdVoid
| TypeTableEntryIdBool
| TypeTableEntryIdUnreachable
| TypeTableEntryIdInt
| TypeTableEntryIdFloat
| TypeTableEntryIdPointer
| TypeTableEntryIdArray
| TypeTableEntryIdStruct
| TypeTableEntryIdNumLitFloat
| TypeTableEntryIdNumLitInt
| TypeTableEntryIdUndefLit
| TypeTableEntryIdMaybe
| TypeTableEntryIdErrorUnion
| TypeTableEntryIdPureError
| TypeTableEntryIdEnum
| TypeTableEntryIdFn.

#[global] Instance TypeTableEntryId_eq_dec : EqDecision TypeTableEntryId.
Proof. solve_decision. Defined.

#[warnings="-register-all"]
Inductive TypeTableEntry :=
| entry_invalid
| entry_type
| entry_void
| entry_bool
| entry_unreachable
| entry_num_lit_int
| entry_num_lit_float
| entry_undef
| entry_pure_error
| TypeInt (name : string) (is_signed : bool) (size_in_bits : Z)
| TypeFloat (name : string) (size_in_bits : Z)
| TypePointer (child_type : TypeTableEntry) (is_const : bool)
| TypeArray (child_type : TypeTableEntry) (len : Z)
| TypeUnknownSizeArray (child_type : TypeTableEntry) (is_const : bool)
| TypeStruct (decl : Z) (name : string)
| TypeEnum (decl : Z) (name : string)
| TypeMaybe (child_type : TypeTableEntry)
| TypeErrorUnion (child_type : TypeTableEntry)
| TypeFn (import : Z) (name : string) (param_types : list TypeTableEntry)
    (src_return_type : TypeTableEntry) (is_var_args is_naked : bool).

Section TypeTableEntry_induction.
Variable P : TypeTableEntry -> Prop.
Hypothesis Hinvalid : P entry_invalid.
Hypothesis Htype : P entry_type.
Hypothesis Hvoid : P entry_void.
Hypothesis Hbool : P entry_bool.
Hypothesis Hunreachable : P entry_unreachable.
Hypothesis Hnum_lit_int : P entry_num_lit_int.
Hypothesis Hnum_lit_float : P entry_num_lit_float.
Hypothesis Hundef : P entry_undef.
Hypothesis Hpure_error : P entry_pure_error.
Hypothesis Hint : forall n s b, P (TypeInt n s b).
Hypothesis Hfloat : forall n b, P (TypeFloat n b).
Hypothesis Hpointer : forall c k, P c -> P (TypePointer c k).
Hypothesis Harray : forall c l, P c -> P (TypeArray c l).
Hypothesis Hslice : forall c k, P c -> P (TypeUnknownSizeArray c k).
Hypothesis Hstruct : forall d n, P (TypeStruct d n).
Hypothesis Henum : forall d n, P (TypeEnum d n).
Hypothesis Hmaybe : forall c, P c -> P (TypeMaybe c).
Hypothesis Herror : forall c, P c -> P (TypeErrorUnion c).
Hypothesis Hfn : forall i n ps r v k,
  Forall P ps -> P r -> P (TypeFn i n ps r v k).

Fixpoint TypeTableEntry_nested_ind (t : TypeTableEntry) : P t :=
  match t with
  | entry_invalid => Hinvalid
  | entry_type => Htype
  | entry_void => Hvoid
  | entry_bool => Hbool
  | entry_unreachable => Hunreachable
  | entry_num_lit_int => Hnum_lit_int
  | entry_num_lit_float => Hnum_lit_float
  | entry_undef => Hundef
  | entry_pure_error => Hpure_error
  | TypeInt n s b => Hint n s b
  | TypeFloat n b => Hfloat n b
  | TypePointer c k => Hpointer c k (TypeTableEntry_nested_ind c)
  | TypeArray c l => Harray c l (TypeTableEntry_nested_ind c)
  | TypeUnknownSizeArray c k => Hslice c k (TypeTableEntry_nested_ind c)
  | TypeStruct d n => Hstruct d n
  | TypeEnum d n => Henum d n
  | TypeMaybe c => Hmaybe c (TypeTableEntry_nested_ind c)
  | TypeErrorUnion c => Herror c (TypeTableEntry_nested_ind c)
  | TypeFn i n ps r v k =>
      Hfn i n ps r v k
        ((fix go (l : list TypeTableEntry) : Forall P l :=
            match l with
            | [] => @List.Forall_nil _ P
            | x :: l' => @List.Forall_cons _ P x l' (TypeTableEntry_nested_ind x) (go l')
            end) ps)
        (TypeTableEntry_nested_ind r)
  end.
End TypeTableEntry_induction.

(** [expected_type == actual_type] on entries. *)
Fixpoint type_eqb (a b : TypeTableEntry) {struct a} : bool :=
  match a, b with
  | entry_invalid, entry_invalid
  | entry_type, entry_type
  | entry_void, entry_void
  | entry_bool, entry_bool
  | entry_unreachable, entry_unreachable
  | entry_num_lit_int, entry_num_lit_int
  | entry_num_lit_float, entry_num_lit_float
  | entry_undef, entry_undef
  | entry_pure_error, entry_pure_error => true
  | TypeInt n s z, TypeInt n' s' z' =>
      bool_decide (n = n') && bool_decide (s = s') && bool_decide (z = z')
  | TypeFloat n z, TypeFloat n' z' => bool_decide (n = n') && bool_decide (z = z')
  | TypePointer c k, TypePointer c' k' => type_eqb c c' && bool_decide (k = k')
  | TypeArray c l, TypeArray c' l' => type_eqb c c' && bool_decide (l = l')
  | TypeUnknownSizeArray c k, TypeUnknownSizeArray c' k' =>
      type_eqb c c' && bool_decide (k = k')
  | TypeStruct d n, TypeStruct d' n' => bool_decide (d = d') && bool_decide (n = n')
  | TypeEnum d n, TypeEnum d' n' => bool_decide (d = d') && bool_decide (n = n')
  | TypeMaybe c, TypeMaybe c' => type_eqb c c'
  | TypeErrorUnion c, TypeErrorUnion c' => type_eqb c c'
  | TypeFn i n ps r v k, TypeFn i' n' ps' r' v' k' =>
      bool_decide (i = i') && bool_decide (n = n')
      && (fix go (l l' : list TypeTableEntry) : bool :=
            match l, l' with
            | [], [] => true
            | x :: l, y :: l' => type_eqb x y && go l l'
            | _, _ => false
            end) ps ps'
      && type_eqb r r' && bool_decide (v = v') && bool_decide (k = k')
  | _, _ => false
  end.

Definition type_id (t : TypeTableEntry) : TypeTableEntryId :=
  match t with
  | entry_invalid => TypeTableEntryIdInvalid
  | entry_type => TypeTableEntryIdMetaType
  | entry_void => TypeTableEntryIdVoid
  | entry_bool => TypeTableEntryIdBool
  | entry_unreachable => TypeTableEntryIdUnreachable
  | entry_num_lit_int => TypeTableEntryIdNumLitInt
  | entry_num_lit_float => TypeTableEntryIdNumLitFloat
  | entry_undef => TypeTableEntryIdUndefLit
  | entry_pure_error => TypeTableEntryIdPureError
  | TypeInt _ _ _ => TypeTableEntryIdInt
  | TypeFloat _ _ => TypeTableEntryIdFloat
  | TypePointer _ _ => TypeTableEntryIdPointer
  | TypeArray _ _ => TypeTableEntryIdArray
  | TypeUnknownSizeArray _ _ => TypeTableEntryIdStruct
  | TypeStruct _ _ => TypeTableEntryIdStruct
  | TypeEnum _ _ => TypeTableEntryIdEnum
  | TypeMaybe _ => TypeTableEntryIdMaybe
  | TypeErrorUnion _ => TypeTableEntryIdErrorUnion
  | TypeFn _ _ _ _ _ _ => TypeTableEntryIdFn
  end.

(** [entry->name], as [define_builtin_types] and the [get_*_type] functions
    format it. *)
Fixpoint type_name (t : TypeTableEntry) : string :=
  match t with
  | entry_invalid => "(invalid)"
  | entry_type => "type"
  | entry_void => "void"
  | entry_bool => "bool"
  | entry_unreachable => "unreachable"
  | entry_num_lit_int => "(integer literal)"
  | entry_num_lit_float => "(float literal)"
  | entry_undef => "(undefined)"
  | entry_pure_error => "error"
  | TypeInt n _ _ => n
  | TypeFloat n _ => n
  | TypePointer c k => "&" ++ (if k then "const " else "") ++ type_name c
  | TypeArray c l => "[" ++ pretty l ++ "]" ++ type_name c
  | TypeUnknownSizeArray c k => (if k then "[]const " else "[]") ++ type_name c
  | TypeStruct _ n => n
  | TypeEnum _ n => n
  | TypeMaybe c => "?" ++ type_name c
  | TypeErrorUnion c => "%" ++ type_name c
  | TypeFn _ n _ _ _ _ => n
  end.

(** [size_in_bits] of the numeric entries; the conversion checks read it of
    integer and float entries only.  The size of every other entry depends on
    the layout pass and is outside the model. *)
Definition size_in_bits (t : TypeTableEntry) : Z :=
  match t with
  | TypeInt _ _ z => z
  | TypeFloat _ z => z
  | entry_bool => 8
  | _ => 0
  end.

Definition integral_is_signed (t : TypeTableEntry) : bool :=
  match t with
  | TypeInt _ s _ => s
  | _ => false
  end.

(** *** Builtin entries ([define_builtin_types]) *)

Definition int_type_name (is_signed : bool) (bits : Z) : string :=
  (if is_signed then "i" else "u") ++ pretty bits.

Definition entry_int (is_signed : bool) (bits : Z) : TypeTableEntry :=
  TypeInt (int_type_name is_signed bits) is_signed bits.

Definition entry_u8 := entry_int false 8.
Definition entry_u16 := entry_int false 16.
Definition entry_u32 := entry_int false 32.
Definition entry_u64 := entry_int false 64.
Definition entry_i8 := entry_int true 8.
Definition entry_i16 := entry_int true 16.
Definition entry_i32 := entry_int true 32.
Definition entry_i64 := entry_int true 64.
Definition entry_f32 := TypeFloat "f32" 32.
Definition entry_f64 := TypeFloat "f64" 64.

(** [get_int_type_ptr] / [get_int_type] *)
Definition get_int_type (is_signed : bool) (size_in_bits : Z) : result TypeTableEntry :=
  if decide (size_in_bits = 8) then Ok (entry_int is_signed 8)
  else if decide (size_in_bits = 16) then Ok (entry_int is_signed 16)
  else if decide (size_in_bits = 32) then Ok (entry_int is_signed 32)
  else if decide (size_in_bits = 64) then Ok (entry_int is_signed 64)
  else zig_unreachable.

(** ** Error values: the tag width

    [bits_needed_for_unsigned] and [get_smallest_unsigned_int_type]. *)

Definition bits_needed_for_unsigned (x : Z) : Z :=
  if decide (x <= UINT8_MAX) then 8
  else if decide (x <= UINT16_MAX) then 16
  else if decide (x <= UINT32_MAX) then 32
  else 64.

Definition get_smallest_unsigned_int_type (x : Z) : result TypeTableEntry :=
  get_int_type false (bits_needed_for_unsigned x).

(** ** Compile-time values ([ConstExprValue], [BigNum]) *)

Inductive BigNumKind := BigNumKindInt | BigNumKindFloat.

#[global] Instance BigNumKind_eq_dec : EqDecision BigNumKind.
Proof. solve_decision. Defined.

(** The fields of [BigNum] that the analyzer reads. The payload of a float
    is not modelled. *)
Record BigNum := {
  bignum_kind : BigNumKind;
  bignum_is_negative : bool;
  bignum_x_uint : Z;
}.

(** Modelled from the spec: [bignum_init_unsigned] of bignum.cpp, which is
    not among the sources: it stores a non-negative integer. *)
Definition bignum_init_unsigned (x : Z) : BigNum :=
  {| bignum_kind := BigNumKindInt; bignum_is_negative := false; bignum_x_uint := x |}.

(** Modelled from the spec: [bignum_fits_in_bits] of bignum.cpp, which is not
    among the sources: an integer fits when it lies in the range of the
    two's complement (signed) or binary (unsigned) integers of that width. *)
Definition bignum_fits_in_bits (bn : BigNum) (bit_count : Z) (is_signed : bool) : bool :=
  let v := if bignum_is_negative bn then (- bignum_x_uint bn) else bignum_x_uint bn in
  if is_signed
  then bool_decide (- 2 ^ (bit_count - 1) <= v < 2 ^ (bit_count - 1))
  else bool_decide (0 <= v < 2 ^ bit_count).

Record ErrorTableEntry := {
  error_name : string;
  error_value : Z;
  error_decl_node : Z;
}.

#[global] Instance ErrorTableEntry_eq_dec : EqDecision ErrorTableEntry.
Proof. solve_decision. Defined.

(** [ConstExprValue]: the flags and the member of the [data] union that was
    written last; [x_none] is the zero-filled value [allocate] returns. *)
#[warnings="-register-all"]
Inductive ConstExprValue :=
| mkConstExprValue (ok : bool) (undef : bool) (data : ConstData)
with ConstData :=
| x_none
| x_bignum (bn : BigNum)
| x_bool (b : bool)
| x_fn (import : Z) (name : string)
| x_type (t : TypeTableEntry)
| x_maybe (v : option ConstExprValue)
| x_err (err : option ErrorTableEntry) (payload : option ConstExprValue)
| x_enum (tag : Z) (payload : option ConstExprValue)
| x_struct (fields : list ConstExprValue)
| x_array (fields : list ConstExprValue)
| x_ptr (ptr : list ConstExprValue) (len : Z).

Definition const_ok (v : ConstExprValue) : bool :=
  match v with mkConstExprValue ok _ _ => ok end.
Definition const_undef (v : ConstExprValue) : bool :=
  match v with mkConstExprValue _ undef _ => undef end.
Definition const_data (v : ConstExprValue) : ConstData :=
  match v with mkConstExprValue _ _ data => data end.

Definition const_zero : ConstExprValue := mkConstExprValue false false x_none.

Record Expr := {
  type_entry : option TypeTableEntry;
  const_val : ConstExprValue;
}.

Definition expr_zero : Expr := {| type_entry := None; const_val := const_zero |}.

(** ** Syntax trees

    The node kinds that the verified paths of the analyzer traverse.  A node
    is identified by its [create_index]; [resolved_expr] is the [Expr] that
    [get_resolved_expr] returns for it.  The analyzer rewrites the tree in
    place through [parent_field]; here every analysis function returns the
    node that then sits in the slot of the node it was given. *)

Inductive VisibMod := VisibModPrivate | VisibModPub | VisibModExport.

#[global] Instance VisibMod_eq_dec : EqDecision VisibMod.
Proof. solve_decision. Defined.

Inductive BinOpType := BinOpTypeUnwrapMaybe | BinOpTypeStrCat.

Inductive CastOp :=
| CastOpNoCast
| CastOpNoop
| CastOpPtrToInt
| CastOpIntToPtr
| CastOpIntWidenOrShorten
| CastOpToUnknownSizeArray
| CastOpMaybeWrap
| CastOpErrorWrap
| CastOpPureErrorWrap
| CastOpPointerReinterpret
| CastOpErrToInt.

#[global] Instance CastOp_eq_dec : EqDecision CastOp.
Proof. solve_decision. Defined.

#[warnings="-register-all"]
Inductive AstNode :=
| mkAstNode (create_index : Z) (data : NodeData) (resolved_expr : Expr)
with NodeData :=
| symbol_expr (symbol : string) (override_type_entry : option TypeTableEntry)
| number_literal (overflow : bool) (x_uint : Z)
| string_literal (buf : string) (c : bool)
| bool_literal (value : bool)
| bin_op_expr (op1 : AstNode) (bin_op : BinOpType) (op2 : AstNode)
| fn_call_expr (fn_ref_expr : AstNode) (params : list AstNode) (cast_op : CastOp)
| slice_expr (array_ref_expr : AstNode) (start : AstNode) (end_ : option AstNode)
    (is_const : bool)
| if_bool_expr (condition : AstNode) (then_block : AstNode) (else_node : option AstNode)
| if_var_expr (var_decl : AstNodeVariableDeclaration) (then_block : AstNode)
    (else_node : option AstNode)
with AstNodeVariableDeclaration :=
| mkVariableDeclaration (symbol : string) (is_const : bool) (visib_mod : VisibMod)
    (type : option AstNode) (expr : option AstNode).

Definition create_index (n : AstNode) : Z :=
  match n with mkAstNode i _ _ => i end.
Definition node_data (n : AstNode) : NodeData :=
  match n with mkAstNode _ d _ => d end.
Definition get_resolved_expr (n : AstNode) : Expr :=
  match n with mkAstNode _ _ e => e end.

Definition set_resolved_expr (n : AstNode) (e : Expr) : AstNode :=
  match n with mkAstNode i d _ => mkAstNode i d e end.
Definition set_type_entry (n : AstNode) (t : TypeTableEntry) : AstNode :=
  set_resolved_expr n
    {| type_entry := Some t; const_val := const_val (get_resolved_expr n) |}.
Definition set_const_val (n : AstNode) (v : ConstExprValue) : AstNode :=
  set_resolved_expr n
    {| type_entry := type_entry (get_resolved_expr n); const_val := v |}.

Definition var_decl_symbol (d : AstNodeVariableDeclaration) : string :=
  match d with mkVariableDeclaration s _ _ _ _ => s end.
Definition var_decl_is_const (d : AstNodeVariableDeclaration) : bool :=
  match d with mkVariableDeclaration _ k _ _ _ => k end.
Definition var_decl_visib_mod (d : AstNodeVariableDeclaration) : VisibMod :=
  match d with mkVariableDeclaration _ _ v _ _ => v end.
Definition var_decl_type (d : AstNodeVariableDeclaration) : option AstNode :=
  match d with mkVariableDeclaration _ _ _ t _ => t end.
Definition var_decl_expr (d : AstNodeVariableDeclaration) : option AstNode :=
  match d with mkVariableDeclaration _ _ _ _ e => e end.

(** [first_executing_node] *)
Fixpoint first_executing_node (node : AstNode) : AstNode :=
  match node with
  | mkAstNode _ (fn_call_expr fn_ref_expr _ _) _ => first_executing_node fn_ref_expr
  | mkAstNode _ (bin_op_expr op1 _ _) _ => first_executing_node op1
  | mkAstNode _ (slice_expr array_ref_expr _ _ _) _ => first_executing_node array_ref_expr
  | _ => node
  end.

(** Top-level declarations of a [Root] node, as far as the error-value
    allocator looks at them. *)
Record AstNodeDirective := {
  directive_node : Z;
  directive_name : string;
}.

Inductive TopLevelDeclNode :=
| NodeTypeImport (create_index : Z) (directives : list AstNodeDirective)
    (import : Z)
| NodeTypeErrorValueDecl (create_index : Z) (name : string) (visib_mod : VisibMod).

(** ** Symbol tables and the compilation session *)

Record ErrorMsg := {
  err_node : Z;
  err_msg : string;
}.

#[global] Instance ErrorMsg_eq_dec : EqDecision ErrorMsg.
Proof. solve_decision. Defined.

(** What [analyze_symbol_expr] reads of [var->decl_node]: whether it is a
    [NodeTypeVariableDeclaration] and, then, the resolved [Expr] of its
    initializer ([None] for a null [expr]). *)
Inductive DeclNode :=
| decl_variable_declaration (create_index : Z) (expr : option Expr)
| decl_other (create_index : Z).

Record VariableTableEntry := {
  var_name : string;
  var_type : TypeTableEntry;
  var_is_const : bool;
  var_decl_node : DeclNode;
}.

(** A function table entry with, of its prototype, the resolved [Expr] of
    the parameter type nodes and of the return type node. *)
Record FnTableEntry := {
  fn_symbol_name : string;
  fn_type_entry : TypeTableEntry;
  fn_proto_params : list Expr;
  fn_proto_return_type : Expr;
  fn_proto_is_var_args : bool;
}.

#[warnings="-register-all"]
Inductive BlockContext :=
| mkBlockContext (node : option Z) (fn_entry : option string)
    (parent : option BlockContext)
    (variable_table : gmap string VariableTableEntry)
    (type_table : gmap string TypeTableEntry)
    (error_table : gmap string ErrorTableEntry)
    (parent_loop_node : option Z).

Definition context_fn_entry (c : BlockContext) : option string :=
  match c with mkBlockContext _ f _ _ _ _ _ => f end.
Definition context_parent (c : BlockContext) : option BlockContext :=
  match c with mkBlockContext _ _ p _ _ _ _ => p end.
Definition variable_table (c : BlockContext) : gmap string VariableTableEntry :=
  match c with mkBlockContext _ _ _ v _ _ _ => v end.
Definition type_table (c : BlockContext) : gmap string TypeTableEntry :=
  match c with mkBlockContext _ _ _ _ t _ _ => t end.
Definition error_table (c : BlockContext) : gmap string ErrorTableEntry :=
  match c with mkBlockContext _ _ _ _ _ e _ => e end.
Definition parent_loop_node (c : BlockContext) : option Z :=
  match c with mkBlockContext _ _ _ _ _ _ l => l end.

Definition set_variable_table (c : BlockContext)
    (v : gmap string VariableTableEntry) : BlockContext :=
  match c with mkBlockContext n f p _ t e l => mkBlockContext n f p v t e l end.
Definition set_error_table (c : BlockContext)
    (e : gmap string ErrorTableEntry) : BlockContext :=
  match c with mkBlockContext n f p v t _ l => mkBlockContext n f p v t e l end.

(** [new_block_context]: [fn_entry] is the entry of the function when [node]
    is a [NodeTypeFnDef] and is inherited otherwise; function definitions
    are not among the modelled nodes. *)
Definition new_block_context (node : option Z) (parent : option BlockContext) : BlockContext :=
  mkBlockContext node
    (match parent with Some p => context_fn_entry p | None => None end)
    parent ∅ ∅ ∅
    (match parent with Some p => parent_loop_node p | None => None end).

Record ImporterInfo := {
  importer_import : Z;
  importer_source_node : Z;
}.

Record ImportTableEntry := {
  root : list TopLevelDeclNode;
  block_context : BlockContext;
  importers : list ImporterInfo;
  fn_table : gmap string FnTableEntry;
}.

Definition set_block_context (i : ImportTableEntry) (c : BlockContext) : ImportTableEntry :=
  {| root := root i; block_context := c; importers := importers i;
     fn_table := fn_table i |}.
Definition set_importers (i : ImportTableEntry) (l : list ImporterInfo) : ImportTableEntry :=
  {| root := root i; block_context := block_context i; importers := l;
     fn_table := fn_table i |}.

(** Declared containers.  The mutable part of a struct or enum entry
    ([data.structure], [data.enumeration]) lives in the session, keyed by the
    [create_index] of the declaration. *)
Record AstNodeStructField := {
  struct_field_node : Z;
  struct_field_name : string;
  struct_field_type : AstNode;
}.

Record AstNodeStructDecl := {
  struct_decl_node : Z;
  struct_decl_name : string;
  struct_decl_fields : list AstNodeStructField;
}.

Record TypeStructField := {
  field_name : string;
  field_type_entry : TypeTableEntry;
  src_index : Z;
  gen_index : Z;
}.

Record TypeTableEntryStruct := {
  structure_decl_node : AstNodeStructDecl;
  structure_import : Z;
  structure_src_field_count : Z;
  structure_gen_field_count : Z;
  structure_fields : option (list TypeStructField);
  structure_is_invalid : bool;
  structure_embedded_in_current : bool;
  structure_reported_infinite_err : bool;
  structure_complete : bool;
}.

Record TypeEnumField := {
  enum_field_name : string;
  enum_field_type_entry : TypeTableEntry;
  enum_field_value : Z;
}.

Record TypeTableEntryEnum := {
  enumeration_decl_node : AstNodeStructDecl;
  enumeration_import : Z;
  enumeration_field_count : Z;
  enumeration_gen_field_count : Z;
  enumeration_fields : option (list TypeEnumField);
  enumeration_is_invalid : bool;
  enumeration_tag_type : option TypeTableEntry;
  enumeration_embedded_in_current : bool;
  enumeration_reported_infinite_err : bool;
  enumeration_complete : bool;
}.

Record CodeGen := {
  errors : list ErrorMsg;
  imports : gmap Z ImportTableEntry;
  structs : gmap Z TypeTableEntryStruct;
  enums : gmap Z TypeTableEntryEnum;
  pointer_size_bytes : Z;
  next_node_index : Z;
  next_error_index : Z;
  error_value_count : Z;
  err_tag_type : option TypeTableEntry;
}.

Definition set_errors (g : CodeGen) (e : list ErrorMsg) : CodeGen :=
  {| errors := e; imports := imports g; structs := structs g; enums := enums g;
     pointer_size_bytes := pointer_size_bytes g;
     next_node_index := next_node_index g;
     next_error_index := next_error_index g;
     error_value_count := error_value_count g; err_tag_type := err_tag_type g |}.
Definition set_imports (g : CodeGen) (i : gmap Z ImportTableEntry) : CodeGen :=
  {| errors := errors g; imports := i; structs := structs g; enums := enums g;
     pointer_size_bytes := pointer_size_bytes g;
     next_node_index := next_node_index g;
     next_error_index := next_error_index g;
     error_value_count := error_value_count g; err_tag_type := err_tag_type g |}.
Definition set_structs (g : CodeGen) (s : gmap Z TypeTableEntryStruct) : CodeGen :=
  {| errors := errors g; imports := imports g; structs := s; enums := enums g;
     pointer_size_bytes := pointer_size_bytes g;
     next_node_index := next_node_index g;
     next_error_index := next_error_index g;
     error_value_count := error_value_count g; err_tag_type := err_tag_type g |}.
Definition set_enums (g : CodeGen) (s : gmap Z TypeTableEntryEnum) : CodeGen :=
  {| errors := errors g; imports := imports g; structs := structs g; enums := s;
     pointer_size_bytes := pointer_size_bytes g;
     next_node_index := next_node_index g;
     next_error_index := next_error_index g;
     error_value_count := error_value_count g; err_tag_type := err_tag_type g |}.
Definition set_next_node_index (g : CodeGen) (n : Z) : CodeGen :=
  {| errors := errors g; imports := imports g; structs := structs g; enums := enums g;
     pointer_size_bytes := pointer_size_bytes g;
     next_node_index := n;
     next_error_index := next_error_index g;
     error_value_count := error_value_count g; err_tag_type := err_tag_type g |}.
Definition set_next_error_index (g : CodeGen) (n : Z) : CodeGen :=
  {| errors := errors g; imports := imports g; structs := structs g; enums := enums g;
     pointer_size_bytes := pointer_size_bytes g;
     next_node_index := next_node_index g;
     next_error_index := n;
     error_value_count := error_value_count g; err_tag_type := err_tag_type g |}.
Definition set_error_value_count (g : CodeGen) (n : Z) : CodeGen :=
  {| errors := errors g; imports := imports g; structs := structs g; enums := enums g;
     pointer_size_bytes := pointer_size_bytes g;
     next_node_index := next_node_index g;
     next_error_index := next_error_index g;
     error_value_count := n; err_tag_type := err_tag_type g |}.
Definition set_err_tag_type (g : CodeGen) (t : option TypeTableEntry) : CodeGen :=
  {| errors := errors g; imports := imports g; structs := structs g; enums := enums g;
     pointer_size_bytes := pointer_size_bytes g;
     next_node_index := next_node_index g;
     next_error_index := next_error_index g;
     error_value_count := error_value_count g; err_tag_type := t |}.

(** [codegen_create]: the counters start at 1, index 0 is the absence of an
    error. *)
Definition codegen_create (pointer_size_bytes : Z) : CodeGen :=
  {| errors := []; imports := ∅; structs := ∅; enums := ∅;
     pointer_size_bytes := pointer_size_bytes;
     next_node_index := 0;
     next_error_index := 1;
     error_value_count := 1; err_tag_type := None |}.

Definition entry_isize (g : CodeGen) : TypeTableEntry :=
  TypeInt "isize" true (wrap32 (pointer_size_bytes g * 8)).
Definition entry_usize (g : CodeGen) : TypeTableEntry :=
  TypeInt "usize" false (wrap32 (pointer_size_bytes g * 8)).

(** [g->primitive_type_table] after [define_builtin_types]. *)
Definition primitive_type_table (g : CodeGen) : gmap string TypeTableEntry :=
  list_to_map
    [ ("i8", entry_i8); ("u8", entry_u8); ("i16", entry_i16); ("u16", entry_u16);
      ("i32", entry_i32); ("u32", entry_u32); ("i64", entry_i64); ("u64", entry_u64);
      ("c_short", TypeInt "c_short" true 16); ("c_ushort", TypeInt "c_ushort" false 16);
      ("c_int", TypeInt "c_int" true 32); ("c_uint", TypeInt "c_uint" false 32);
      ("c_long", TypeInt "c_long" true 64); ("c_ulong", TypeInt "c_ulong" false 64);
      ("c_longlong", TypeInt "c_longlong" true 64);
      ("c_ulonglong", TypeInt "c_ulonglong" false 64);
      ("bool", entry_bool); ("isize", entry_isize g); ("usize", entry_usize g);
      ("f32", entry_f32); ("f64", entry_f64); ("void", entry_void);
      ("unreachable", entry_unreachable); ("type", entry_type);
      ("error", entry_pure_error) ].

#[global] Arguments primitive_type_table : simpl never.

(** [add_node_error].  A message records the position of [node]; the model
    keeps the node's [create_index].  The assertion that the owner of the node
    is not a C import has no counterpart: nodes carry no owner. *)
Definition add_node_error (g : CodeGen) (node : Z) (msg : string) : CodeGen :=
  set_errors g (errors g ++ [ {| err_node := node; err_msg := msg |} ]).

Definition get_import (g : CodeGen) (import : Z) : result ImportTableEntry :=
  match imports g !! import with
  | Some i => Ok i
  | None => Panic "null import"
  end.

Definition put_import (g : CodeGen) (import : Z) (i : ImportTableEntry) : CodeGen :=
  set_imports g (<[import := i]> (imports g)).

(** ** Error value declarations *)

(** The loop of [resolve_error_value_decl] over [import->importers]. *)
Fixpoint import_error_value (g : CodeGen) (err : ErrorTableEntry)
    (importers : list ImporterInfo) : result CodeGen :=
  match importers with
  | [] => Ok g
  | importer :: rest =>
      let! i := get_import g (importer_import importer) in
      let g :=
        match error_table (block_context i) !! error_name err with
        | Some _ =>
            add_node_error g (importer_source_node importer)
              ("import of error '" ++ error_name err ++ "' overrides existing definition")
        | None =>
            put_import g (importer_import importer)
              (set_block_context i
                 (set_error_table (block_context i)
                    (<[error_name err := err]> (error_table (block_context i)))))
        end in
      import_error_value g err rest
  end.

(** [resolve_error_value_decl] *)
Definition resolve_error_value_decl (g : CodeGen) (import : Z)
    (node : Z) (name : string) (visib_mod : VisibMod) : result CodeGen :=
  let err := {| error_name := name; error_value := next_error_index g;
                error_decl_node := node |} in
  let g := set_next_error_index g (wrap32 (next_error_index g + 1)) in
  let! i := get_import g import in
  let g :=
    match error_table (block_context i) !! name with
    | Some _ => add_node_error g node ("redefinition of error '" ++ name ++ "'")
    | None =>
        put_import g import
          (set_block_context i
             (set_error_table (block_context i)
                (<[name := err]> (error_table (block_context i)))))
    end in
  let is_pub := bool_decide (visib_mod <> VisibModPrivate) in
  if is_pub then import_error_value g err (importers i) else Ok g.

(** [resolve_top_level_decl] on the modelled declarations; [satisfy_dep] has
    nothing to remove for them, their [TopLevelDecl] has no name. *)
Definition resolve_top_level_decl (g : CodeGen) (import : Z)
    (node : TopLevelDeclNode) : result CodeGen :=
  match node with
  | NodeTypeErrorValueDecl idx name visib_mod =>
      resolve_error_value_decl g import idx name visib_mod
  | NodeTypeImport _ _ _ => Ok g
  end.

(** [detect_top_level_decl_deps] of a declaration and of a root. *)
Definition detect_top_level_decl_deps (g : CodeGen) (import : Z)
    (node : TopLevelDeclNode) : result CodeGen :=
  match node with
  | NodeTypeErrorValueDecl _ _ _ => resolve_top_level_decl g import node
  | NodeTypeImport _ _ _ => Ok g
  end.

Fixpoint detect_top_level_decl_deps_list (g : CodeGen) (import : Z)
    (decls : list TopLevelDeclNode) : result CodeGen :=
  match decls with
  | [] => Ok g
  | child :: rest =>
      let! g := detect_top_level_decl_deps g import child in
      detect_top_level_decl_deps_list g import rest
  end.

Definition detect_top_level_decl_deps_root (g : CodeGen) (import : Z) : result CodeGen :=
  let! i := get_import g import in
  detect_top_level_decl_deps_list g import (root i).

(** The first block of [semantic_analyze], for one import: it registers the
    importers and counts the error value declarations. *)
Fixpoint invalid_directives (g : CodeGen) (directives : list AstNodeDirective) : CodeGen :=
  match directives with
  | [] => g
  | d :: rest =>
      invalid_directives
        (add_node_error g (directive_node d)
           ("invalid directive: '" ++ directive_name d ++ "'")) rest
  end.

Fixpoint preview_top_level_decls (g : CodeGen) (import : Z)
    (decls : list TopLevelDeclNode) : result CodeGen :=
  match decls with
  | [] => Ok g
  | NodeTypeImport idx directives target :: rest =>
      let g := invalid_directives g directives in
      let! target_import := get_import g target in
      let g :=
        put_import g target
          (set_importers target_import
             (importers target_import ++
                [ {| importer_import := import; importer_source_node := idx |} ])) in
      preview_top_level_decls g import rest
  | NodeTypeErrorValueDecl _ _ _ :: rest =>
      preview_top_level_decls
        (set_error_value_count g (wrap32 (error_value_count g + 1))) import rest
  end.

(** Iteration over [g->import_table]: the keys in the order of the table,
    the entry read from the session at each step. *)
Fixpoint for_each_import (f : CodeGen -> Z -> result CodeGen) (g : CodeGen)
    (keys : list Z) : result CodeGen :=
  match keys with
  | [] => Ok g
  | k :: rest => let! g := f g k in for_each_import f g rest
  end.

Definition import_keys (g : CodeGen) : list Z := (map_to_list (imports g)).*1.

(** [semantic_analyze], up to the assertion that closes the detection of
    the dependencies.  For the modelled declarations the two passes that
    follow it have nothing left to do. *)
Definition semantic_analyze (g : CodeGen) : result CodeGen :=
  let! g :=
    for_each_import
      (fun g k => let! i := get_import g k in preview_top_level_decls g k (root i))
      g (import_keys g) in
  let! tag := get_smallest_unsigned_int_type (error_value_count g) in
  let g := set_err_tag_type g (Some tag) in
  let! g := for_each_import detect_top_level_decl_deps_root g (import_keys g) in
  let! _ := assert (bool_decide (error_value_count g = next_error_index g)) in
  Ok g.

(** ** Conversion checks *)

(** Reading [data.x_bignum].  Reading a member of the union other than the
    one that was stored has no defined result; the model stops there. *)
Definition get_x_bignum (v : ConstExprValue) : result BigNum :=
  match const_data v with
  | x_bignum bn => Ok bn
  | _ => Panic "x_bignum is not the stored member"
  end.

(** Modelled from the spec: [bignum_to_buf] of bignum.cpp, which is not among
    the sources: the decimal rendering of an integer. *)
Definition bignum_to_buf (bn : BigNum) : string :=
  (if bignum_is_negative bn then "-" else "") ++ pretty (bignum_x_uint bn).

(** [num_lit_fits_in_other_type] *)
Definition num_lit_fits_in_other_type (g : CodeGen) (literal_node : AstNode)
    (other_type : TypeTableEntry) : result (bool * CodeGen) :=
  if decide (type_id other_type = TypeTableEntryIdInvalid) then Ok (false, g)
  else
    let const_val := const_val (get_resolved_expr literal_node) in
    let! _ := assert (const_ok const_val) in
    if decide (type_id other_type = TypeTableEntryIdFloat) then Ok (true, g)
    else
      let! bn := get_x_bignum const_val in
      if bool_decide (type_id other_type = TypeTableEntryIdInt)
         && bool_decide (bignum_kind bn = BigNumKindInt)
         && bignum_fits_in_bits bn (size_in_bits other_type)
              (integral_is_signed other_type)
      then Ok (true, g)
      else if negb (bool_decide (type_id other_type = TypeTableEntryIdInt)
                    && bool_decide (bignum_kind bn = BigNumKindInt))
              && ((bool_decide (type_id other_type = TypeTableEntryIdNumLitFloat)
                   && bool_decide (bignum_kind bn = BigNumKindFloat))
                  || (bool_decide (type_id other_type = TypeTableEntryIdNumLitInt)
                      && bool_decide (bignum_kind bn = BigNumKindInt)))
      then Ok (true, g)
      else
        let num_lit_str :=
          if decide (bignum_kind bn = BigNumKindFloat) then "float" else "integer" in
        Ok (false,
            add_node_error g (create_index literal_node)
              (num_lit_str ++ " value " ++ bignum_to_buf bn ++
               " cannot be implicitly casted to type '" ++ type_name other_type ++ "'")).

(** [types_match_const_cast_only] *)
Fixpoint types_match_const_cast_only (expected_type actual_type : TypeTableEntry)
    {struct expected_type} : result bool :=
  if type_eqb expected_type actual_type then Ok true
  else
    match expected_type, actual_type with
    | TypePointer expected_child expected_const, TypePointer actual_child actual_const =>
        (* pointer const *)
        if negb actual_const || expected_const
        then types_match_const_cast_only expected_child actual_child
        else Ok false
    | TypeUnknownSizeArray expected_child expected_const,
      TypeUnknownSizeArray actual_child actual_const =>
        (* unknown size array const *)
        if negb actual_const || expected_const
        then types_match_const_cast_only expected_child actual_child
        else Ok false
    | TypeMaybe expected_child, TypeMaybe actual_child =>
        types_match_const_cast_only expected_child actual_child
    | TypeErrorUnion expected_child, TypeErrorUnion actual_child =>
        types_match_const_cast_only expected_child actual_child
    | TypeFn _ _ _ _ _ _, TypeFn _ _ _ _ _ _ =>
        Panic "TODO types_match_const_cast_only for fns"
    | _, _ => Ok false
    end.

(** The loop of [determine_peer_type_compatibility] over the children 1
    and up, with [prev_type] and [prev_node]. *)
Fixpoint determine_peer_type_loop (g : CodeGen) (parent_source_node : Z)
    (prev_type : TypeTableEntry) (prev_node : option AstNode)
    (children : list (option AstNode * TypeTableEntry))
    : result (TypeTableEntry * CodeGen) :=
  match children with
  | [] => Ok (prev_type, g)
  | (cur_node, cur_type) :: rest =>
      let continue_with (g : CodeGen) (t : TypeTableEntry) (n : option AstNode)
          : result (TypeTableEntry * CodeGen) :=
        determine_peer_type_loop g parent_source_node t n rest in
      if decide (type_id cur_type = TypeTableEntryIdInvalid) then Ok (cur_type, g)
      else
        let! m1 := types_match_const_cast_only prev_type cur_type in
        if m1 then continue_with g prev_type prev_node
        else
          let! m2 := types_match_const_cast_only cur_type prev_type in
          if m2 then continue_with g cur_type cur_node
          else if decide (type_id prev_type = TypeTableEntryIdUnreachable)
          then continue_with g cur_type cur_node
          else if decide (type_id cur_type = TypeTableEntryIdUnreachable)
          then continue_with g prev_type prev_node
          else if bool_decide (type_id prev_type = TypeTableEntryIdInt)
                  && bool_decide (type_id cur_type = TypeTableEntryIdInt)
                  && bool_decide (integral_is_signed prev_type = integral_is_signed cur_type)
          then
            if decide (size_in_bits cur_type > size_in_bits prev_type)
            then continue_with g cur_type cur_node
            else continue_with g prev_type prev_node
          else if bool_decide (type_id prev_type = TypeTableEntryIdFloat)
                  && bool_decide (type_id cur_type = TypeTableEntryIdFloat)
          then
            if decide (size_in_bits cur_type > size_in_bits prev_type)
            then continue_with g cur_type cur_node
            else continue_with g prev_type prev_node
          else
            let! m3 := match prev_type with
                 | TypeErrorUnion child => types_match_const_cast_only child cur_type
                 | _ => Ok false
                 end in
            if m3 then continue_with g prev_type prev_node
            else
              let! m4 := match cur_type with
                   | TypeErrorUnion child => types_match_const_cast_only child prev_type
                   | _ => Ok false
                   end in
              if m4 then continue_with g cur_type cur_node
              else if bool_decide (type_id prev_type = TypeTableEntryIdNumLitInt)
                      || bool_decide (type_id prev_type = TypeTableEntryIdNumLitFloat)
              then
                match prev_node with
                | None => Panic "null node"
                | Some literal_node =>
                    let! (fits, g) := num_lit_fits_in_other_type g literal_node cur_type in
                    if fits then continue_with g cur_type cur_node
                    else Ok (entry_invalid, g)
                end
              else if bool_decide (type_id cur_type = TypeTableEntryIdNumLitInt)
                      || bool_decide (type_id cur_type = TypeTableEntryIdNumLitFloat)
              then
                match cur_node with
                | None => Panic "null node"
                | Some literal_node =>
                    let! (fits, g) := num_lit_fits_in_other_type g literal_node prev_type in
                    if fits then continue_with g prev_type prev_node
                    else Ok (entry_invalid, g)
                end
              else
                Ok (entry_invalid,
                    add_node_error g parent_source_node
                      ("incompatible types: '" ++ type_name prev_type ++ "' and '"
                       ++ type_name cur_type ++ "'"))
  end.

(** [determine_peer_type_compatibility]; [child_count] is the length of the
    two arrays. *)
Definition determine_peer_type_compatibility (g : CodeGen) (parent_source_node : Z)
    (child_nodes : list (option AstNode)) (child_types : list TypeTableEntry)
    : result (TypeTableEntry * CodeGen) :=
  match child_nodes, child_types with
  | prev_node :: nodes, prev_type :: types =>
      if decide (type_id prev_type = TypeTableEntryIdInvalid) then Ok (prev_type, g)
      else determine_peer_type_loop g parent_source_node prev_type prev_node
             (zip nodes types)
  | _, _ => Panic "no child"
  end.

(** [types_match_with_implicit_cast]; the third component of the result is
    [*reported_err]. *)
Fixpoint types_match_with_implicit_cast (g : CodeGen)
    (expected_type actual_type : TypeTableEntry) (literal_node : AstNode)
    (reported_err : bool) {struct expected_type} : result (bool * CodeGen * bool) :=
  let! m := types_match_const_cast_only expected_type actual_type in
  if m then Ok (true, g, reported_err)
  else
    (* implicit conversion from non maybe type to maybe type *)
    let! (m_maybe, g, reported_err) :=
      match expected_type with
      | TypeMaybe child =>
          types_match_with_implicit_cast g child actual_type literal_node reported_err
      | _ => Ok (false, g, reported_err)
      end in
    if m_maybe then Ok (true, g, reported_err)
    else
      (* implicit conversion from error child type to error type *)
      let! (m_error, g, reported_err) :=
        match expected_type with
        | TypeErrorUnion child =>
            types_match_with_implicit_cast g child actual_type literal_node reported_err
        | _ => Ok (false, g, reported_err)
        end in
      if m_error then Ok (true, g, reported_err)
      else if (* implicit conversion from pure error to error union type *)
              bool_decide (type_id expected_type = TypeTableEntryIdErrorUnion)
              && bool_decide (type_id actual_type = TypeTableEntryIdPureError)
      then Ok (true, g, reported_err)
      else if (* implicit widening conversion *)
              bool_decide (type_id expected_type = TypeTableEntryIdInt)
              && bool_decide (type_id actual_type = TypeTableEntryIdInt)
              && bool_decide (integral_is_signed expected_type = integral_is_signed actual_type)
              && bool_decide (size_in_bits expected_type >= size_in_bits actual_type)
      then Ok (true, g, reported_err)
      else
        (* implicit constant sized array to unknown size array conversion *)
        let! m_array :=
          match expected_type, actual_type with
          | TypeUnknownSizeArray expected_child _, TypeArray actual_child _ =>
              types_match_const_cast_only expected_child actual_child
          | _, _ => Ok false
          end in
        if m_array then Ok (true, g, reported_err)
        else if (* implicit number literal to typed number *)
                bool_decide (type_id actual_type = TypeTableEntryIdNumLitFloat)
                || bool_decide (type_id actual_type = TypeTableEntryIdNumLitInt)
        then
          let! (fits, g) := num_lit_fits_in_other_type g literal_node expected_type in
          if fits then Ok (true, g, reported_err) else Ok (false, g, true)
        else Ok (false, g, reported_err).

(** ** The type interner, on the type table itself

    Here a [TypeTableEntry*] is an address ([handle]) in the table of all
    entries, and the entries carry the fields the interner uses to find the
    type it already made for a child: [pointer_parent],
    [unknown_size_array_parent], [arrays_by_size], [maybe_parent] and
    [error_parent].  Of [type_ref] and [di_type] the model keeps whether they
    are set, which the assertions read. *)
Module Interner.

Abbreviation handle := nat.

Record TypeStructField := {
  field_name : string;
  field_type_entry : handle;
  src_index : Z;
  gen_index : Z;
}.

Inductive TypeData :=
| data_none
| data_pointer (child_type : handle) (is_const : bool)
| data_integral (is_signed : bool)
| data_array (child_type : handle) (len : Z)
| data_structure (is_packed : bool) (is_unknown_size_array : bool)
    (src_field_count gen_field_count : Z) (fields : list TypeStructField)
    (complete : bool)
| data_maybe (child_type : handle)
| data_error (child_type : handle)
| data_enumeration (complete : bool).

Record TypeTableEntry := {
  id : TypeTableEntryId;
  type_ref : bool;
  di_type : bool;
  size_in_bits : Z;
  align_in_bits : Z;
  name : string;
  data : TypeData;
  pointer_parent : option handle * option handle;
  unknown_size_array_parent : option handle * option handle;
  arrays_by_size : gmap Z handle;
  maybe_parent : option handle;
  error_parent : option handle;
}.

Record CodeGen := {
  types : gmap handle TypeTableEntry;
  pointer_size_bytes : Z;
  err_tag_type : option handle;
  entry_isize : handle;
}.

Definition set_types (g : CodeGen) (t : gmap handle TypeTableEntry) : CodeGen :=
  {| types := t; pointer_size_bytes := pointer_size_bytes g;
     err_tag_type := err_tag_type g; entry_isize := entry_isize g |}.

(** The slot [parent[(is_const ? 1 : 0)]]. *)
Definition slot (p : option handle * option handle) (is_const : bool) : option handle :=
  if is_const then p.2 else p.1.
Definition set_slot (p : option handle * option handle) (is_const : bool)
    (h : handle) : option handle * option handle :=
  if is_const then (p.1, Some h) else (Some h, p.2).

Definition with_pointer_parent (e : TypeTableEntry)
    (p : option handle * option handle) : TypeTableEntry :=
  {| id := id e; type_ref := type_ref e; di_type := di_type e;
     size_in_bits := size_in_bits e; align_in_bits := align_in_bits e;
     name := name e; data := data e; pointer_parent := p;
     unknown_size_array_parent := unknown_size_array_parent e;
     arrays_by_size := arrays_by_size e; maybe_parent := maybe_parent e;
     error_parent := error_parent e |}.
Definition with_unknown_size_array_parent (e : TypeTableEntry)
    (p : option handle * option handle) : TypeTableEntry :=
  {| id := id e; type_ref := type_ref e; di_type := di_type e;
     size_in_bits := size_in_bits e; align_in_bits := align_in_bits e;
     name := name e; data := data e; pointer_parent := pointer_parent e;
     unknown_size_array_parent := p;
     arrays_by_size := arrays_by_size e; maybe_parent := maybe_parent e;
     error_parent := error_parent e |}.
Definition with_arrays_by_size (e : TypeTableEntry) (m : gmap Z handle) : TypeTableEntry :=
  {| id := id e; type_ref := type_ref e; di_type := di_type e;
     size_in_bits := size_in_bits e; align_in_bits := align_in_bits e;
     name := name e; data := data e; pointer_parent := pointer_parent e;
     unknown_size_array_parent := unknown_size_array_parent e;
     arrays_by_size := m; maybe_parent := maybe_parent e;
     error_parent := error_parent e |}.
Definition with_maybe_parent (e : TypeTableEntry) (p : option handle) : TypeTableEntry :=
  {| id := id e; type_ref := type_ref e; di_type := di_type e;
     size_in_bits := size_in_bits e; align_in_bits := align_in_bits e;
     name := name e; data := data e; pointer_parent := pointer_parent e;
     unknown_size_array_parent := unknown_size_array_parent e;
     arrays_by_size := arrays_by_size e; maybe_parent := p;
     error_parent := error_parent e |}.
Definition with_error_parent (e : TypeTableEntry) (p : option handle) : TypeTableEntry :=
  {| id := id e; type_ref := type_ref e; di_type := di_type e;
     size_in_bits := size_in_bits e; align_in_bits := align_in_bits e;
     name := name e; data := data e; pointer_parent := pointer_parent e;
     unknown_size_array_parent := unknown_size_array_parent e;
     arrays_by_size := arrays_by_size e; maybe_parent := maybe_parent e;
     error_parent := p |}.

(** Reading through a [TypeTableEntry*]; a null or dangling one ends the
    process. *)
Definition deref (g : CodeGen) (h : handle) : result TypeTableEntry :=
  match types g !! h with
  | Some e => Ok e
  | None => Panic "invalid TypeTableEntry pointer"
  end.

Definition store (g : CodeGen) (h : handle) (e : TypeTableEntry) : CodeGen :=
  set_types g (<[h := e]> (types g)).

(** [new_type_table_entry]: a zero-filled entry with [id] at an address
    not in use. *)
Definition zero_entry (id : TypeTableEntryId) : TypeTableEntry :=
  {| id := id; type_ref := false; di_type := false;
     size_in_bits := 0; align_in_bits := 0; name := ""; data := data_none;
     pointer_parent := (None, None); unknown_size_array_parent := (None, None);
     arrays_by_size := ∅; maybe_parent := None; error_parent := None |}.

Definition new_type_table_entry (g : CodeGen) (id : TypeTableEntryId)
    : handle * CodeGen :=
  let h := fresh (dom (types g)) in
  (h, store g h (zero_entry id)).

(** [get_pointer_to_type] *)
Definition get_pointer_to_type (g : CodeGen) (child_type : handle) (is_const : bool)
    : result (handle * CodeGen) :=
  let! child := deref g child_type in
  let! _ := assert (negb (bool_decide (id child = TypeTableEntryIdInvalid))) in
  match slot (pointer_parent child) is_const with
  | Some parent => Ok (parent, g)
  | None =>
      let '(entry, g) := new_type_table_entry g TypeTableEntryIdPointer in
      let const_str := if is_const then "const " else "" in
      let zero_bits :=
        if decide (size_in_bits child = 0) then
          match id child, data child with
          | TypeTableEntryIdStruct, data_structure _ _ _ _ _ complete => complete
          | TypeTableEntryIdEnum, data_enumeration complete => complete
          | TypeTableEntryIdStruct, _ | TypeTableEntryIdEnum, _ => false
          | _, _ => true
          end
        else false in
      let! _ := assert (zero_bits || di_type child) in
      let e :=
        {| id := TypeTableEntryIdPointer;
           type_ref := negb zero_bits;
           di_type := negb zero_bits;
           size_in_bits := if zero_bits then 0 else wrap32 (pointer_size_bytes g * 8);
           align_in_bits := if zero_bits then 0 else wrap32 (pointer_size_bytes g * 8);
           name := "&" ++ const_str ++ name child;
           data := data_pointer child_type is_const;
           pointer_parent := (None, None);
           unknown_size_array_parent := (None, None);
           arrays_by_size := ∅; maybe_parent := None; error_parent := None |} in
      let g := store g entry e in
      let g :=
        store g child_type
          (with_pointer_parent child (set_slot (pointer_parent child) is_const entry)) in
      Ok (entry, g)
  end.

(** [get_maybe_type] *)
Definition get_maybe_type (g : CodeGen) (child_type : handle)
    : result (handle * CodeGen) :=
  let! child := deref g child_type in
  match maybe_parent child with
  | Some entry => Ok (entry, g)
  | None =>
      let '(entry, g) := new_type_table_entry g TypeTableEntryIdMaybe in
      let! _ := assert (type_ref child) in
      let! _ := assert (di_type child) in
      let e :=
        {| id := TypeTableEntryIdMaybe; type_ref := true; di_type := true;
           size_in_bits := wrap64 (size_in_bits child + 8);
           align_in_bits := align_in_bits child;
           name := "?" ++ name child;
           data := data_maybe child_type;
           pointer_parent := (None, None);
           unknown_size_array_parent := (None, None);
           arrays_by_size := ∅; maybe_parent := None; error_parent := None |} in
      let g := store g entry e in
      let g := store g child_type (with_maybe_parent child (Some entry)) in
      Ok (entry, g)
  end.

(** [get_error_type] *)
Definition get_error_type (g : CodeGen) (child_type : handle)
    : result (handle * CodeGen) :=
  let! child := deref g child_type in
  match error_parent child with
  | Some entry => Ok (entry, g)
  | None =>
      let '(entry, g) := new_type_table_entry g TypeTableEntryIdErrorUnion in
      let! _ := assert (type_ref child) in
      let! _ := assert (di_type child) in
      let! tag :=
        match err_tag_type g with
        | Some t => deref g t
        | None => Panic "err_tag_type is null"
        end in
      let e :=
        if decide (size_in_bits child = 0) then
          {| id := TypeTableEntryIdErrorUnion;
             type_ref := type_ref tag; di_type := di_type tag;
             size_in_bits := size_in_bits tag;
             align_in_bits := align_in_bits tag;
             name := "%" ++ name child;
             data := data_error child_type;
             pointer_parent := (None, None);
             unknown_size_array_parent := (None, None);
             arrays_by_size := ∅; maybe_parent := None; error_parent := None |}
        else
          {| id := TypeTableEntryIdErrorUnion; type_ref := true; di_type := true;
             size_in_bits := wrap64 (size_in_bits tag + size_in_bits child);
             align_in_bits := align_in_bits tag;
             name := "%" ++ name child;
             data := data_error child_type;
             pointer_parent := (None, None);
             unknown_size_array_parent := (None, None);
             arrays_by_size := ∅; maybe_parent := None; error_parent := None |} in
      let g := store g entry e in
      let g := store g child_type (with_error_parent child (Some entry)) in
      Ok (entry, g)
  end.

(** [get_array_type] *)
Definition get_array_type (g : CodeGen) (child_type : handle) (array_size : Z)
    : result (handle * CodeGen) :=
  let! child := deref g child_type in
  match arrays_by_size child !! array_size with
  | Some entry => Ok (entry, g)
  | None =>
      let '(entry, g) := new_type_table_entry g TypeTableEntryIdArray in
      let e :=
        {| id := TypeTableEntryIdArray; type_ref := true; di_type := true;
           size_in_bits := wrap64 (size_in_bits child * array_size);
           align_in_bits := align_in_bits child;
           name := "[" ++ pretty array_size ++ "]" ++ name child;
           data := data_array child_type array_size;
           pointer_parent := (None, None);
           unknown_size_array_parent := (None, None);
           arrays_by_size := ∅; maybe_parent := None; error_parent := None |} in
      let g := store g entry e in
      let g :=
        store g child_type
          (with_arrays_by_size child (<[array_size := entry]> (arrays_by_size child))) in
      Ok (entry, g)
  end.

(** Writing fields of an entry in place. *)
Definition modify (g : CodeGen) (h : handle)
    (f : TypeTableEntry -> TypeTableEntry) : result CodeGen :=
  let! e := deref g h in
  Ok (store g h (f e)).

Definition with_name_refs (n : string) (type_ref di_type : bool)
    (e : TypeTableEntry) : TypeTableEntry :=
  {| id := id e; type_ref := type_ref; di_type := di_type;
     size_in_bits := size_in_bits e; align_in_bits := align_in_bits e;
     name := n; data := data e; pointer_parent := pointer_parent e;
     unknown_size_array_parent := unknown_size_array_parent e;
     arrays_by_size := arrays_by_size e; maybe_parent := maybe_parent e;
     error_parent := error_parent e |}.

Definition with_layout (size_in_bits align_in_bits : Z) (d : TypeData)
    (e : TypeTableEntry) : TypeTableEntry :=
  {| id := id e; type_ref := type_ref e; di_type := di_type e;
     size_in_bits := size_in_bits; align_in_bits := align_in_bits;
     name := name e; data := d; pointer_parent := pointer_parent e;
     unknown_size_array_parent := unknown_size_array_parent e;
     arrays_by_size := arrays_by_size e; maybe_parent := maybe_parent e;
     error_parent := error_parent e |}.

(** [unknown_size_array_type_common_init] *)
Definition unknown_size_array_type_common_init (g : CodeGen) (child_type : handle)
    (is_const : bool) (entry : handle) : result CodeGen :=
  let! (pointer_type, g) := get_pointer_to_type g child_type is_const in
  modify g entry
    (with_layout (wrap32 (pointer_size_bytes g * 2 * 8))
       (wrap32 (pointer_size_bytes g * 8))
       (data_structure false true 2 2
          [ {| field_name := "ptr"; field_type_entry := pointer_type;
               src_index := 0; gen_index := 0 |};
            {| field_name := "len"; field_type_entry := entry_isize g;
               src_index := 1; gen_index := 1 |} ]
          false)).

(** The non-const case of [get_unknown_size_array_type]. *)
Definition get_unknown_size_array_type_var (g : CodeGen) (child_type : handle)
    : result (handle * CodeGen) :=
  let! child := deref g child_type in
  let! _ := assert (negb (bool_decide (id child = TypeTableEntryIdInvalid))) in
  match slot (unknown_size_array_parent child) false with
  | Some parent => Ok (parent, g)
  | None =>
      let '(entry, g) := new_type_table_entry g TypeTableEntryIdStruct in
      let! g := modify g entry (with_name_refs ("[]" ++ name child) true false) in
      let! (pointer_type, g) := get_pointer_to_type g child_type false in
      let! g := unknown_size_array_type_common_init g child_type false entry in
      let! g := modify g entry (fun e => with_name_refs (name e) (type_ref e) true e) in
      let! g :=
        modify g child_type
          (fun c =>
             with_unknown_size_array_parent c
               (set_slot (unknown_size_array_parent c) false entry)) in
      Ok (entry, g)
  end.

(** [get_unknown_size_array_type] *)
Definition get_unknown_size_array_type (g : CodeGen) (child_type : handle)
    (is_const : bool) : result (handle * CodeGen) :=
  if is_const then
    let! child := deref g child_type in
    let! _ := assert (negb (bool_decide (id child = TypeTableEntryIdInvalid))) in
    match slot (unknown_size_array_parent child) true with
    | Some parent => Ok (parent, g)
    | None =>
        let! (var_peer, g) := get_unknown_size_array_type_var g child_type in
        let '(entry, g) := new_type_table_entry g TypeTableEntryIdStruct in
        let! g := modify g entry (with_name_refs ("[]const " ++ name child) false false) in
        let! g := unknown_size_array_type_common_init g child_type true entry in
        let! peer := deref g var_peer in
        let! g :=
          modify g entry
            (fun e => with_name_refs (name e) (type_ref peer) (di_type peer) e) in
        let! g :=
          modify g child_type
            (fun c =>
               with_unknown_size_array_parent c
                 (set_slot (unknown_size_array_parent c) true entry)) in
        Ok (entry, g)
    end
  else get_unknown_size_array_type_var g child_type.

(** A call of the interner, and a sequence of calls in one session. *)
Inductive InternCall :=
| intern_pointer (pointee : handle) (is_const : bool)
| intern_array (elem : handle) (len : Z)
| intern_slice (elem : handle) (is_const : bool)
| intern_optional (inner : handle)
| intern_error_union (ok : handle).

Definition intern (g : CodeGen) (call : InternCall) : result (handle * CodeGen) :=
  match call with
  | intern_pointer pointee is_const => get_pointer_to_type g pointee is_const
  | intern_array elem len => get_array_type g elem len
  | intern_slice elem is_const => get_unknown_size_array_type g elem is_const
  | intern_optional inner => get_maybe_type g inner
  | intern_error_union ok => get_error_type g ok
  end.

Fixpoint intern_all (g : CodeGen) (calls : list InternCall) : result CodeGen :=
  match calls with
  | [] => Ok g
  | call :: rest => let! (_, g) := intern g call in intern_all g rest
  end.

End Interner.

(** ** Expression analysis

    [analyze_expression] and the functions it dispatches to, for the node
    kinds of [NodeData].  The analyzer rewrites the tree in place: every
    function here returns, next to the type, the node that is in the slot of
    the node it was given once it is done (the node itself with its [Expr]
    filled in, or the cast node that [create_and_analyze_cast_node] put in its
    place), and the session.  Types are the terms of [TypeTableEntry], which
    interning makes equal exactly when the pointers are.

    Not modelled: the lists kept for the code generator
    ([struct_val_expr_alloca_list], [cast_alloca_list], [variable_list],
    [global_const_list], [all_block_contexts]), the back references from a
    node to its variable or function entry, and source positions. *)

Definition set_node_data (n : AstNode) (d : NodeData) : AstNode :=
  match n with mkAstNode i _ e => mkAstNode i d e end.

(** [get_pointer_to_type], [get_unknown_size_array_type] and
    [get_array_type] on terms: the interned entry of a child is the term
    built on it. *)
Definition get_pointer_to_type (child_type : TypeTableEntry) (is_const : bool)
    : result TypeTableEntry :=
  let! _ := assert (negb (bool_decide (type_id child_type = TypeTableEntryIdInvalid))) in
  Ok (TypePointer child_type is_const).

Definition get_unknown_size_array_type (child_type : TypeTableEntry) (is_const : bool)
    : result TypeTableEntry :=
  let! _ := assert (negb (bool_decide (type_id child_type = TypeTableEntryIdInvalid))) in
  Ok (TypeUnknownSizeArray child_type is_const).

Definition get_array_type (child_type : TypeTableEntry) (array_size : Z) : TypeTableEntry :=
  TypeArray child_type array_size.

(** *** Constant values *)

(** Storing member [d] of the union and setting [ok]. *)
Definition const_set (v : ConstExprValue) (d : ConstData) : ConstExprValue :=
  mkConstExprValue true (const_undef v) d.

Definition get_x_struct_field (v : ConstExprValue) (i : nat) : result ConstExprValue :=
  match const_data v with
  | x_struct fields =>
      match fields !! i with
      | Some f => Ok f
      | None => Panic "x_struct.fields read past its end"
      end
  | _ => Panic "x_struct is not the stored member"
  end.

Definition get_x_ptr (v : ConstExprValue) : result (list ConstExprValue) :=
  match const_data v with
  | x_ptr ptr _ => Ok ptr
  | _ => Panic "x_ptr is not the stored member"
  end.

Definition get_x_array (v : ConstExprValue) : result (list ConstExprValue) :=
  match const_data v with
  | x_array fields => Ok fields
  | _ => Panic "x_array is not the stored member"
  end.

Definition get_x_type (v : ConstExprValue) : result TypeTableEntry :=
  match const_data v with
  | x_type t => Ok t
  | _ => Panic "x_type is not the stored member"
  end.

(** [data.x_err.err]; the zero-filled union reads as a null pointer. *)
Definition get_x_err (v : ConstExprValue) : result (option ErrorTableEntry) :=
  match const_data v with
  | x_err err _ => Ok err
  | x_none => Ok None
  | _ => Panic "x_err is not the stored member"
  end.

(** [resolve_expr_const_val_as_type] *)
Definition resolve_expr_const_val_as_type (node : AstNode) (type : TypeTableEntry)
    : TypeTableEntry * AstNode :=
  (entry_type,
   set_const_val node (const_set (const_val (get_resolved_expr node)) (x_type type))).

(** [resolve_expr_const_val_as_other_expr]; [other_expr] is the resolved
    [Expr] of the other node. *)
Definition resolve_expr_const_val_as_other_expr (node : AstNode) (other_expr : Expr)
    : option TypeTableEntry * AstNode :=
  (type_entry other_expr, set_const_val node (const_val other_expr)).

(** [resolve_expr_const_val_as_fn]; the entry is named by the import whose
    [fn_table] holds it and by its key there. *)
Definition resolve_expr_const_val_as_fn (node : AstNode) (import : Z) (name : string)
    (fn : FnTableEntry) : TypeTableEntry * AstNode :=
  (fn_type_entry fn,
   set_const_val node (const_set (const_val (get_resolved_expr node)) (x_fn import name))).

(** [resolve_expr_const_val_as_bool] *)
Definition resolve_expr_const_val_as_bool (node : AstNode) (value : bool)
    : TypeTableEntry * AstNode :=
  (entry_bool,
   set_const_val node (const_set (const_val (get_resolved_expr node)) (x_bool value))).

(** A byte of a [Buf] as the [uint64_t] argument of [bignum_init_unsigned]:
    [buf_ptr] gives [char], which is signed on the targets the compiler is
    built for, so a byte from 128 up is sign-extended. *)
Definition char_to_uint64 (a : Ascii.ascii) : Z :=
  let b := Z.of_N (Ascii.N_of_ascii a) in
  if decide (b < 128) then b else wrap64 (b - 256).

Definition const_char (x : Z) : ConstExprValue :=
  mkConstExprValue true false (x_bignum (bignum_init_unsigned x)).

Definition buf_chars (str : string) : list ConstExprValue :=
  (fun a => const_char (char_to_uint64 a)) <$> String.list_ascii_of_string str.

Definition buf_len (str : string) : Z := Z.of_nat (String.length str).

(** [resolve_expr_const_val_as_c_string_lit] *)
Definition resolve_expr_const_val_as_c_string_lit (node : AstNode) (str : string)
    : result (TypeTableEntry * AstNode) :=
  let len_with_null := buf_len str + 1 in
  let all_chars := (buf_chars str ++ [const_char 0])%list in
  let! t := get_pointer_to_type entry_u8 true in
  Ok (t,
      set_const_val node
        (const_set (const_val (get_resolved_expr node)) (x_ptr all_chars len_with_null))).

(** [resolve_expr_const_val_as_string_lit] *)
Definition resolve_expr_const_val_as_string_lit (node : AstNode) (str : string)
    : TypeTableEntry * AstNode :=
  (get_array_type entry_u8 (buf_len str),
   set_const_val node
     (const_set (const_val (get_resolved_expr node)) (x_array (buf_chars str)))).

(** [resolve_expr_const_val_as_unsigned_num_lit] *)
Definition resolve_expr_const_val_as_unsigned_num_lit (node : AstNode) (x : Z)
    : TypeTableEntry * AstNode :=
  (entry_num_lit_int,
   set_const_val node
     (const_set (const_val (get_resolved_expr node)) (x_bignum (bignum_init_unsigned x)))).

(** *** Scopes *)

(** [find_local_variable] *)
Fixpoint find_local_variable (context : BlockContext) (name : string)
    : option VariableTableEntry :=
  match context with
  | mkBlockContext _ fn_entry parent variable_table _ _ _ =>
      match fn_entry with
      | None => None
      | Some _ =>
          match variable_table !! name with
          | Some entry => Some entry
          | None =>
              match parent with
              | Some p => find_local_variable p name
              | None => None
              end
          end
      end
  end.

(** [find_variable] *)
Fixpoint find_variable (context : BlockContext) (name : string)
    : option VariableTableEntry :=
  match context with
  | mkBlockContext _ _ parent variable_table _ _ _ =>
      match variable_table !! name with
      | Some entry => Some entry
      | None =>
          match parent with
          | Some p => find_variable p name
          | None => None
          end
      end
  end.

(** [find_container] *)
Fixpoint find_container (context : BlockContext) (name : string)
    : option TypeTableEntry :=
  match context with
  | mkBlockContext _ _ parent _ type_table _ _ =>
      match type_table !! name with
      | Some entry => Some entry
      | None =>
          match parent with
          | Some p => find_container p name
          | None => None
          end
      end
  end.

Definition decl_node_index (d : DeclNode) : Z :=
  match d with
  | decl_variable_declaration i _ => i
  | decl_other i => i
  end.

(** [add_local_var]; [name] is [None] for an anonymous variable. *)
Definition add_local_var (g : CodeGen) (source_node : DeclNode) (context : BlockContext)
    (name : option string) (type_entry : TypeTableEntry) (is_const : bool)
    : VariableTableEntry * BlockContext * CodeGen :=
  match name with
  | Some name =>
      let existing_var :=
        match context_fn_entry context with
        | Some _ => find_local_variable context name
        | None => find_variable context name
        end in
      let '(type_entry, g) :=
        match existing_var with
        | Some _ =>
            (entry_invalid,
             add_node_error g (decl_node_index source_node)
               ("redeclaration of variable '" ++ name ++ "'"))
        | None =>
            let type :=
              match primitive_type_table g !! name with
              | Some t => Some t
              | None => find_container context name
              end in
            match type with
            | Some t =>
                (entry_invalid,
                 add_node_error g (decl_node_index source_node)
                   ("variable shadows type '" ++ type_name t ++ "'"))
            | None => (type_entry, g)
            end
        end in
      let variable_entry :=
        {| var_name := name; var_type := type_entry; var_is_const := is_const;
           var_decl_node := source_node |} in
      (variable_entry,
       set_variable_table context (<[name := variable_entry]> (variable_table context)),
       g)
  | None =>
      ({| var_name := "_anon"; var_type := type_entry; var_is_const := is_const;
          var_decl_node := source_node |},
       context, g)
  end.

(** The loop of [analyze_variable_declaration_raw] over
    [import->importers]. *)
Fixpoint import_variable (g : CodeGen) (var : VariableTableEntry)
    (importers : list ImporterInfo) : result CodeGen :=
  match importers with
  | [] => Ok g
  | importer :: rest =>
      let! i := get_import g (importer_import importer) in
      let g :=
        match variable_table (block_context i) !! var_name var with
        | Some _ =>
            add_node_error g (importer_source_node importer)
              ("import of variable '" ++ var_name var ++ "' overrides existing definition")
        | None =>
            put_import g (importer_import importer)
              (set_block_context i
                 (set_variable_table (block_context i)
                    (<[var_name var := var]> (variable_table (block_context i)))))
        end in
      import_variable g var rest
  end.

(** *** Leaves *)

(** [analyze_symbol_expr].  A null [expr] of the declaration of a constant
    variable is dereferenced by the source; a null [type_entry] of that
    expression fails the assertion on [return_type] in
    [analyze_expression]. *)
Definition analyze_symbol_expr (g : CodeGen) (import : Z) (context : BlockContext)
    (node : AstNode) (symbol : string) (override_type_entry : option TypeTableEntry)
    : result (TypeTableEntry * AstNode * CodeGen) :=
  match override_type_entry with
  | Some t => let '(t', n) := resolve_expr_const_val_as_type node t in Ok (t', n, g)
  | None =>
  match primitive_type_table g !! symbol with
  | Some t => let '(t', n) := resolve_expr_const_val_as_type node t in Ok (t', n, g)
  | None =>
  match find_variable context symbol with
  | Some var =>
      match var_is_const var, var_decl_node var with
      | true, decl_variable_declaration _ None => Panic "null expr"
      | true, decl_variable_declaration _ (Some other_expr) =>
          if const_ok (const_val other_expr) then
            match resolve_expr_const_val_as_other_expr node other_expr with
            | (Some t, n) => Ok (t, n, g)
            | (None, _) => Panic "return_type is null"
            end
          else Ok (var_type var, node, g)
      | _, _ => Ok (var_type var, node, g)
      end
  | None =>
  match find_container context symbol with
  | Some t => let '(t', n) := resolve_expr_const_val_as_type node t in Ok (t', n, g)
  | None =>
      let! i := get_import g import in
      match fn_table i !! symbol with
      | Some fn =>
          let '(t', n) := resolve_expr_const_val_as_fn node import symbol fn in
          Ok (t', n, g)
      | None =>
          Ok (entry_invalid, node,
              add_node_error g (create_index node)
                ("use of undeclared identifier '" ++ symbol ++ "'"))
      end
  end end end end.

(** [analyze_number_literal_expr], for the integer literals. *)
Definition analyze_number_literal_expr (g : CodeGen) (node : AstNode)
    (overflow : bool) (x_uint : Z) : TypeTableEntry * AstNode * CodeGen :=
  if overflow then
    (entry_invalid, node,
     add_node_error g (create_index node)
       "number literal too large to be represented in any type")
  else
    let '(t, n) := resolve_expr_const_val_as_unsigned_num_lit node x_uint in (t, n, g).

(** [analyze_string_literal_expr] *)
Definition analyze_string_literal_expr (g : CodeGen) (node : AstNode)
    (buf : string) (c : bool) : result (TypeTableEntry * AstNode * CodeGen) :=
  if c then
    let! (t, n) := resolve_expr_const_val_as_c_string_lit node buf in Ok (t, n, g)
  else
    let '(t, n) := resolve_expr_const_val_as_string_lit node buf in Ok (t, n, g).

(** [resolve_type] *)
Definition resolve_type (g : CodeGen) (node : AstNode) : result (TypeTableEntry * CodeGen) :=
  match node_data node with
  | symbol_expr _ (Some t) => Ok (t, g)
  | _ =>
      let expr := get_resolved_expr node in
      match type_entry expr with
      | None => Panic "expr->type_entry is null"
      | Some t =>
          if decide (type_id t = TypeTableEntryIdInvalid) then Ok (entry_invalid, g)
          else if decide (type_id t = TypeTableEntryIdMetaType) then
            if const_ok (const_val expr) then
              let! x := get_x_type (const_val expr) in Ok (x, g)
            else
              Ok (entry_invalid,
                  add_node_error g (create_index node)
                    "unable to resolve constant expression")
          else
            Ok (entry_invalid,
                add_node_error g (create_index node) "expected type, found expression")
      end
  end.

(** [unwrapped_node_type], of the resolved [Expr] of the node. *)
Definition unwrapped_node_type (expr : Expr) : result TypeTableEntry :=
  match type_entry expr with
  | None => Panic "expr->type_entry is null"
  | Some t =>
      if decide (type_id t = TypeTableEntryIdInvalid) then Ok t
      else
        let! _ := assert (bool_decide (type_id t = TypeTableEntryIdMetaType)) in
        let! _ := assert (const_ok (const_val expr)) in
        get_x_type (const_val expr)
  end.

(** *** Casts *)

(** [create_ast_node]: the index of the new node. *)
Definition create_ast_node (g : CodeGen) : Z * CodeGen :=
  (next_node_index g, set_next_node_index g (wrap32 (next_node_index g + 1))).

(** [create_ast_type_node] *)
Definition create_ast_type_node (g : CodeGen) (type_entry : TypeTableEntry)
    : AstNode * CodeGen :=
  let '(i, g) := create_ast_node g in
  (mkAstNode i (symbol_expr "" (Some type_entry)) expr_zero, g).

(** The first parameter of a call node, [d] when there is none. *)
Definition first_param (p : AstNode) (d : AstNode) : AstNode :=
  match node_data p with
  | fn_call_expr _ (c :: _) _ => c
  | _ => d
  end.

Definition set_first_param (p : AstNode) (c : AstNode) : AstNode :=
  match node_data p with
  | fn_call_expr f (_ :: rest) op => set_node_data p (fn_call_expr f (c :: rest) op)
  | _ => p
  end.

(** [eval_const_expr_implicit_cast]: the node with its constant value. *)
Definition eval_const_expr_implicit_cast (node : AstNode) (cast_op : CastOp)
    (expr_node : AstNode) : result AstNode :=
  let other_val := const_val (get_resolved_expr expr_node) in
  let const_val := const_val (get_resolved_expr node) in
  if negb (const_ok other_val) then Ok node
  else
    match cast_op with
    | CastOpNoCast => zig_unreachable
    | CastOpNoop | CastOpIntWidenOrShorten | CastOpPointerReinterpret =>
        Ok (set_const_val node other_val)
    | CastOpPtrToInt | CastOpIntToPtr => Ok node
    | CastOpToUnknownSizeArray =>
        match type_entry (get_resolved_expr expr_node) with
        | Some (TypeArray _ len) =>
            let! fields := get_x_array other_val in
            let ptr_field := mkConstExprValue true false (x_ptr fields len) in
            let len_field :=
              mkConstExprValue true false (x_bignum (bignum_init_unsigned len)) in
            Ok (set_const_val node (const_set const_val (x_struct [ptr_field; len_field])))
        | _ => Panic "other_type->id == TypeTableEntryIdArray"
        end
    | CastOpMaybeWrap =>
        Ok (set_const_val node (const_set const_val (x_maybe (Some other_val))))
    | CastOpErrorWrap =>
        Ok (set_const_val node (const_set const_val (x_err None (Some other_val))))
    | CastOpPureErrorWrap =>
        let! err := get_x_err other_val in
        let payload :=
          match const_data const_val with
          | x_err _ p => p
          | _ => None
          end in
        Ok (set_const_val node (const_set const_val (x_err err payload)))
    | CastOpErrToInt =>
        let! err := get_x_err other_val in
        let value :=
          match err with
          | Some e => error_value e
          | None => 0
          end in
        Ok (set_const_val node
              (const_set const_val (x_bignum (bignum_init_unsigned value))))
    end.

(** *** The recursive part

    The functions below call [analyze_expression] on the children of a node.
    They are written over the function that analyzes a child;
    [analyze_expression] itself closes the recursion, on a bound for the depth
    of the calls.

    [entry_size_in_bits] is the [size_in_bits] field of the entries, which the
    terms carry for the numeric types only; the layout of the other types is
    the work of earlier passes. *)
Section analysis.

Variable entry_size_in_bits : TypeTableEntry -> Z.

Variable analyze_expression :
  CodeGen -> Z -> BlockContext -> option TypeTableEntry -> AstNode ->
  result (TypeTableEntry * AstNode * CodeGen).

(** [analyze_type_expr] *)
Definition analyze_type_expr (g : CodeGen) (import : Z) (context : BlockContext)
    (node : AstNode) : result (TypeTableEntry * AstNode * CodeGen) :=
  let! (_, node, g) := analyze_expression g import context None node in
  let! (t, g) := resolve_type g node in
  Ok (t, node, g).

(** [analyze_cast_expr] *)
Definition analyze_cast_expr (g : CodeGen) (import : Z) (context : BlockContext)
    (node : AstNode) : result (TypeTableEntry * AstNode * CodeGen) :=
  match node_data node with
  | fn_call_expr fn_ref_expr [expr_node] cast_op =>
      let! (wanted_type, g) := resolve_type g fn_ref_expr in
      let! (actual_type, expr_node, g) :=
        analyze_expression g import context None expr_node in
      let node := set_node_data node (fn_call_expr fn_ref_expr [expr_node] cast_op) in
      let cast_with (g : CodeGen) (op : CastOp)
          : result (TypeTableEntry * AstNode * CodeGen) :=
        let! node :=
          eval_const_expr_implicit_cast
            (set_node_data node (fn_call_expr fn_ref_expr [expr_node] op)) op expr_node in
        Ok (wanted_type, node, g) in
      let is_num_lit :=
        bool_decide (type_id actual_type = TypeTableEntryIdNumLitInt)
        || bool_decide (type_id actual_type = TypeTableEntryIdNumLitFloat) in
      if bool_decide (type_id wanted_type = TypeTableEntryIdInvalid)
         || bool_decide (type_id actual_type = TypeTableEntryIdInvalid)
      then Ok (entry_invalid, node, g)
      else
      (* explicit match or non-const to const *)
      let! m := types_match_const_cast_only wanted_type actual_type in
      if m then cast_with g CastOpNoop
      else if (* explicit cast from pointer to isize or usize *)
              (type_eqb wanted_type (entry_isize g) || type_eqb wanted_type (entry_usize g))
              && bool_decide (type_id actual_type = TypeTableEntryIdPointer)
      then cast_with g CastOpPtrToInt
      else if (* explicit cast from isize or usize to pointer *)
              bool_decide (type_id wanted_type = TypeTableEntryIdPointer)
              && (type_eqb actual_type (entry_isize g) || type_eqb actual_type (entry_usize g))
      then cast_with g CastOpIntToPtr
      else if (* explicit cast from any int to any other int *)
              bool_decide (type_id wanted_type = TypeTableEntryIdInt)
              && bool_decide (type_id actual_type = TypeTableEntryIdInt)
      then cast_with g CastOpIntWidenOrShorten
      else
      (* explicit cast from fixed size array to unknown size array *)
      let! m_array :=
        match wanted_type, actual_type with
        | TypeUnknownSizeArray wanted_child _, TypeArray actual_child _ =>
            types_match_const_cast_only wanted_child actual_child
        | _, _ => Ok false
        end in
      if m_array then cast_with g CastOpToUnknownSizeArray
      else if (* explicit cast from pointer to another pointer *)
              bool_decide (type_id actual_type = TypeTableEntryIdPointer)
              && bool_decide (type_id wanted_type = TypeTableEntryIdPointer)
      then cast_with g CastOpPointerReinterpret
      else
      (* the rest of the chain, from the cast to an error union on *)
      let error_and_after (g : CodeGen) : result (TypeTableEntry * AstNode * CodeGen) :=
        let after (g : CodeGen) : result (TypeTableEntry * AstNode * CodeGen) :=
          if (* explicit cast from pure error to error union type *)
             bool_decide (type_id wanted_type = TypeTableEntryIdErrorUnion)
             && bool_decide (type_id actual_type = TypeTableEntryIdPureError)
          then cast_with g CastOpPureErrorWrap
          else if (* explicit cast from number literal to another type *) is_num_lit
          then
            let! (fits, g) := num_lit_fits_in_other_type g expr_node wanted_type in
            if fits then cast_with g CastOpNoop else Ok (entry_invalid, node, g)
          else
            (* explicit cast from %void to integer type which can fit it *)
            let actual_type_is_void_err :=
              match actual_type with
              | TypeErrorUnion child => bool_decide (entry_size_in_bits child = 0)
              | _ => false
              end in
            let actual_type_is_pure_err :=
              bool_decide (type_id actual_type = TypeTableEntryIdPureError) in
            if (actual_type_is_void_err || actual_type_is_pure_err)
               && bool_decide (type_id wanted_type = TypeTableEntryIdInt)
            then
              if bignum_fits_in_bits (bignum_init_unsigned (error_value_count g))
                   (size_in_bits wanted_type) (integral_is_signed wanted_type)
              then cast_with g CastOpErrToInt
              else
                Ok (entry_invalid, node,
                    add_node_error g (create_index node)
                      ("too many error values to fit in '" ++ type_name wanted_type ++ "'"))
            else
              Ok (entry_invalid, node,
                  add_node_error g (create_index node)
                    ("invalid cast from type '" ++ type_name actual_type ++ "' to '"
                     ++ type_name wanted_type ++ "'")) in
        (* explicit cast from child type of error type to error type *)
        match wanted_type with
        | TypeErrorUnion child =>
            let! m := types_match_const_cast_only child actual_type in
            if m then cast_with g CastOpErrorWrap
            else if is_num_lit then
              let! (fits, g) := num_lit_fits_in_other_type g expr_node child in
              if fits then cast_with g CastOpErrorWrap else Ok (entry_invalid, node, g)
            else after g
        | _ => after g
        end in
      (* explicit cast from child type of maybe type to maybe type *)
      match wanted_type with
      | TypeMaybe child =>
          let! m := types_match_const_cast_only child actual_type in
          if m then cast_with g CastOpMaybeWrap
          else if is_num_lit then
            let! (fits, g) := num_lit_fits_in_other_type g expr_node child in
            if fits then cast_with g CastOpMaybeWrap else Ok (entry_invalid, node, g)
          else error_and_after g
      | _ => error_and_after g
      end
  | fn_call_expr fn_ref_expr _ _ =>
      Ok (entry_invalid, node,
          add_node_error g (create_index fn_ref_expr)
            "cast expression expects exactly one parameter")
  | _ => Panic "node->type == NodeTypeFnCallExpr"
  end.

(** The loop of [analyze_fn_call_raw] over the parameters of the call;
    [proto_params] are the resolved [Expr] of the type nodes of the
    parameters of the prototype from the current one on. *)
Fixpoint analyze_fn_call_params (g : CodeGen) (import : Z) (context : BlockContext)
    (proto_params : list Expr) (params : list AstNode)
    : result (list AstNode * CodeGen) :=
  match params with
  | [] => Ok ([], g)
  | child :: rest =>
      let! expected_param_type :=
        match proto_params with
        | param_type :: _ =>
            match type_entry param_type with
            | Some _ => let! t := unwrapped_node_type param_type in Ok (Some t)
            | None => Ok None
            end
        | [] => Ok None
        end in
      let! (_, child, g) :=
        analyze_expression g import context expected_param_type child in
      let! (rest, g) := analyze_fn_call_params g import context (tail proto_params) rest in
      Ok (child :: rest, g)
  end.

(** [analyze_fn_call_raw], for a call that is not a method call
    ([struct_type] null). *)
Definition analyze_fn_call_raw (g : CodeGen) (import : Z) (context : BlockContext)
    (node : AstNode) (fn_table_entry : FnTableEntry)
    : result (TypeTableEntry * AstNode * CodeGen) :=
  match node_data node with
  | fn_call_expr fn_ref_expr params cast_op =>
      let expected_param_count := Z.of_nat (length (fn_proto_params fn_table_entry)) in
      let actual_param_count := Z.of_nat (length params) in
      let g :=
        if fn_proto_is_var_args fn_table_entry then
          if decide (actual_param_count < expected_param_count) then
            add_node_error g (create_index node)
              ("expected at least " ++ pretty expected_param_count ++ " arguments, got "
               ++ pretty actual_param_count)
          else g
        else if decide (expected_param_count <> actual_param_count) then
          add_node_error g (create_index node)
            ("expected " ++ pretty expected_param_count ++ " arguments, got "
             ++ pretty actual_param_count)
        else g in
      let! (params, g) :=
        analyze_fn_call_params g import context (fn_proto_params fn_table_entry) params in
      let node := set_node_data node (fn_call_expr fn_ref_expr params cast_op) in
      let! return_type := unwrapped_node_type (fn_proto_return_type fn_table_entry) in
      Ok (return_type, node, g)
  | _ => Panic "node->type == NodeTypeFnCallExpr"
  end.

(** [analyze_fn_call_expr], for a call that is neither of a builtin
    function nor through a field access. *)
Definition analyze_fn_call_expr (g : CodeGen) (import : Z) (context : BlockContext)
    (node : AstNode) : result (TypeTableEntry * AstNode * CodeGen) :=
  match node_data node with
  | fn_call_expr fn_ref_expr params cast_op =>
      let! (invoke_type_entry, fn_ref_expr, g) :=
        analyze_expression g import context None fn_ref_expr in
      let node := set_node_data node (fn_call_expr fn_ref_expr params cast_op) in
      let not_a_function :=
        Ok (entry_invalid, node,
            add_node_error g (create_index fn_ref_expr)
              ("type '" ++ type_name invoke_type_entry ++ "' not a function")) in
      if decide (type_id invoke_type_entry = TypeTableEntryIdInvalid)
      then Ok (entry_invalid, node, g)
      else
        let const_val := const_val (get_resolved_expr fn_ref_expr) in
        if const_ok const_val then
          if decide (type_id invoke_type_entry = TypeTableEntryIdMetaType) then
            analyze_cast_expr g import context node
          else if decide (type_id invoke_type_entry = TypeTableEntryIdFn) then
            match const_data const_val with
            | x_fn fn_import fn_name =>
                let! i := get_import g fn_import in
                match fn_table i !! fn_name with
                | Some fn => analyze_fn_call_raw g import context node fn
                | None => Panic "x_fn is null"
                end
            | _ => Panic "x_fn is not the stored member"
            end
          else not_a_function
        else
          (* function pointer *)
          match invoke_type_entry with
          | TypeFn _ _ _ src_return_type _ _ => Ok (src_return_type, node, g)
          | _ => not_a_function
          end
  | _ => Panic "node->type == NodeTypeFnCallExpr"
  end.

(** [create_and_analyze_cast_node] *)
Definition create_and_analyze_cast_node (g : CodeGen) (import : Z)
    (context : BlockContext) (cast_to_type : TypeTableEntry) (node : AstNode)
    : result (TypeTableEntry * AstNode * CodeGen) :=
  let '(new_parent_index, g) := create_ast_node g in
  let '(fn_ref_expr, g) := create_ast_type_node g cast_to_type in
  let new_parent_node :=
    mkAstNode new_parent_index (fn_call_expr fn_ref_expr [node] CastOpNoCast) expr_zero in
  analyze_expression g import context (Some cast_to_type) new_parent_node.

(** [resolve_type_compatibility]; the second component of the result is the
    cast node that took the place of [node], if one was made: [node] is
    then its first parameter. *)
Definition resolve_type_compatibility (g : CodeGen) (import : Z) (context : BlockContext)
    (node : AstNode) (expected_type : option TypeTableEntry)
    (actual_type : TypeTableEntry)
    : result (TypeTableEntry * option AstNode * CodeGen) :=
  match expected_type with
  | None => Ok (actual_type, None, g) (* anything will do *)
  | Some expected_type =>
      if type_eqb expected_type actual_type then Ok (expected_type, None, g) (* match *)
      else if bool_decide (type_id expected_type = TypeTableEntryIdInvalid)
              || bool_decide (type_id actual_type = TypeTableEntryIdInvalid)
      then Ok (entry_invalid, None, g)
      else if decide (type_id actual_type = TypeTableEntryIdUnreachable)
      then Ok (actual_type, None, g)
      else
        let! (m, g, reported_err) :=
          types_match_with_implicit_cast g expected_type actual_type node false in
        if m then
          let! (t, parent, g) :=
            create_and_analyze_cast_node g import context expected_type node in
          Ok (t, Some parent, g)
        else if reported_err then Ok (entry_invalid, None, g)
        else
          Ok (entry_invalid, None,
              add_node_error g (create_index (first_executing_node node))
                ("expected type '" ++ type_name expected_type ++ "', got '"
                 ++ type_name actual_type ++ "'"))
  end.

(** The loop of [resolve_peer_type_compatibility] over the children. *)
Fixpoint resolve_peer_children (g : CodeGen) (import : Z) (context : BlockContext)
    (expected_type : TypeTableEntry)
    (children : list (option AstNode * TypeTableEntry))
    : result (list (option AstNode) * CodeGen) :=
  match children with
  | [] => Ok ([], g)
  | (None, _) :: rest =>
      let! (rest, g) := resolve_peer_children g import context expected_type rest in
      Ok (None :: rest, g)
  | (Some child_node, child_type) :: rest =>
      let! (resolved_type, cast, g) :=
        resolve_type_compatibility g import context child_node
          (Some expected_type) child_type in
      let child_node :=
        set_type_entry (default child_node cast) resolved_type in
      let! (rest, g) := resolve_peer_children g import context expected_type rest in
      Ok (Some child_node :: rest, g)
  end.

(** [resolve_peer_type_compatibility]: the type and the children, as they
    are in their slots afterwards. *)
Definition resolve_peer_type_compatibility (g : CodeGen) (import : Z)
    (block_context : BlockContext) (parent_source_node : Z)
    (child_nodes : list (option AstNode)) (child_types : list TypeTableEntry)
    : result (TypeTableEntry * list (option AstNode) * CodeGen) :=
  let! (expected_type, g) :=
    determine_peer_type_compatibility g parent_source_node child_nodes child_types in
  if decide (type_id expected_type = TypeTableEntryIdInvalid)
  then Ok (expected_type, child_nodes, g)
  else
    let! (child_nodes, g) :=
      resolve_peer_children g import block_context expected_type
        (zip child_nodes child_types) in
    Ok (expected_type, child_nodes, g).

(** The two copy loops of the [BinOpTypeStrCat] case: the first [len]
    elements of [ptr]. *)
Fixpoint copy_fields (ptr : list ConstExprValue) (from : nat) (len : nat)
    : result (list ConstExprValue) :=
  match len with
  | O => Ok []
  | S len =>
      match ptr !! from with
      | Some v => let! rest := copy_fields ptr (S from) len in Ok (v :: rest)
      | None => Panic "x_ptr.ptr read past its end"
      end
  end.

(** [analyze_bin_op_expr], for the operators [??] and [++].  The sum of the
    two lengths is a [uint64_t]; were it to wrap around, the loops would
    write past the end of the array allocated for it. *)
Definition analyze_bin_op_expr (g : CodeGen) (import : Z) (context : BlockContext)
    (node : AstNode) : result (TypeTableEntry * AstNode * CodeGen) :=
  match node_data node with
  | bin_op_expr op1 BinOpTypeUnwrapMaybe op2 =>
      let! (lhs_type, op1, g) := analyze_expression g import context None op1 in
      match lhs_type with
      | entry_invalid =>
          Ok (lhs_type, set_node_data node (bin_op_expr op1 BinOpTypeUnwrapMaybe op2), g)
      | TypeMaybe child_type =>
          let! (_, op2, g) := analyze_expression g import context (Some child_type) op2 in
          Ok (child_type, set_node_data node (bin_op_expr op1 BinOpTypeUnwrapMaybe op2), g)
      | _ =>
          Ok (entry_invalid,
              set_node_data node (bin_op_expr op1 BinOpTypeUnwrapMaybe op2),
              add_node_error g (create_index op1)
                ("expected maybe type, got '" ++ type_name lhs_type ++ "'"))
      end
  | bin_op_expr op1 BinOpTypeStrCat op2 =>
      let! str_type := get_unknown_size_array_type entry_u8 true in
      let! (op1_type, op1, g) := analyze_expression g import context (Some str_type) op1 in
      let! (op2_type, op2, g) := analyze_expression g import context (Some str_type) op2 in
      let node := set_node_data node (bin_op_expr op1 BinOpTypeStrCat op2) in
      if bool_decide (type_id op1_type = TypeTableEntryIdInvalid)
         || bool_decide (type_id op2_type = TypeTableEntryIdInvalid)
      then Ok (entry_invalid, node, g)
      else
        let op1_val := const_val (get_resolved_expr op1) in
        let op2_val := const_val (get_resolved_expr op2) in
        let bad_node :=
          if negb (const_ok op1_val) then Some op1
          else if negb (const_ok op2_val) then Some op2
          else None in
        match bad_node with
        | Some bad_node =>
            Ok (entry_invalid, node,
                add_node_error g (create_index bad_node)
                  "string concatenation requires constant expression")
        | None =>
            let! op1_len_field := get_x_struct_field op1_val 1 in
            let! op1_len_bn := get_x_bignum op1_len_field in
            let op1_len := bignum_x_uint op1_len_bn in
            let! op2_len_field := get_x_struct_field op2_val 1 in
            let! op2_len_bn := get_x_bignum op2_len_field in
            let op2_len := bignum_x_uint op2_len_bn in
            let len := wrap64 (op1_len + op2_len) in
            let! _ := assert (bool_decide (len = op1_len + op2_len)) in
            let! op1_ptr_field := get_x_struct_field op1_val 0 in
            let! op1_ptr := get_x_ptr op1_ptr_field in
            let! fields1 := copy_fields op1_ptr 0 (Z.to_nat op1_len) in
            let! op2_ptr_field := get_x_struct_field op2_val 0 in
            let! op2_ptr := get_x_ptr op2_ptr_field in
            let! fields2 := copy_fields op2_ptr 0 (Z.to_nat op2_len) in
            let len_field :=
              mkConstExprValue true false (x_bignum (bignum_init_unsigned len)) in
            let ptr_field :=
              mkConstExprValue true false (x_ptr (fields1 ++ fields2)%list len) in
            Ok (str_type,
                set_const_val node
                  (const_set (const_val (get_resolved_expr node))
                     (x_struct [ptr_field; len_field])),
                g)
        end
  | _ => Panic "node->type == NodeTypeBinOpExpr"
  end.

(** [analyze_variable_declaration_raw]: the variable, the declaration with
    its nodes as they are afterwards, and the scope it added the variable
    to. *)
Definition analyze_variable_declaration_raw (g : CodeGen) (import : Z)
    (context : BlockContext) (source_node : DeclNode)
    (variable_declaration : AstNodeVariableDeclaration) (expr_is_maybe : bool)
    : result (VariableTableEntry * AstNodeVariableDeclaration * BlockContext * CodeGen) :=
  match variable_declaration with
  | mkVariableDeclaration symbol is_const visib_mod type expr =>
      let is_export := bool_decide (visib_mod = VisibModExport) in
      let! (explicit_type, type, g) :=
        match type with
        | Some type_node =>
            let! (t, type_node, g) := analyze_type_expr g import context type_node in
            if decide (type_id t = TypeTableEntryIdUnreachable) then
              Ok (Some entry_invalid, Some type_node,
                  add_node_error g (create_index type_node)
                    "variable of type 'unreachable' not allowed")
            else Ok (Some t, Some type_node, g)
        | None => Ok (None, None, g)
        end in
      let! (implicit_type, expr, g) :=
        match expr with
        | Some expr_node =>
            let! (implicit_type, expr_node, g) :=
              analyze_expression g import context explicit_type expr_node in
            let '(implicit_type, g) :=
              if decide (type_id implicit_type = TypeTableEntryIdInvalid)
              then (implicit_type, g) (* ignore the poison value *)
              else if expr_is_maybe then
                match implicit_type with
                | TypeMaybe child_type => (child_type, g)
                | _ =>
                    (entry_invalid,
                     add_node_error g (create_index expr_node) "expected maybe type")
                end
              else if decide (type_id implicit_type = TypeTableEntryIdUnreachable) then
                (entry_invalid,
                 add_node_error g (decl_node_index source_node)
                   "variable initialization is unreachable")
              else if (negb is_const || is_export)
                      && (bool_decide (type_id implicit_type = TypeTableEntryIdNumLitFloat)
                          || bool_decide (type_id implicit_type = TypeTableEntryIdNumLitInt))
              then
                (entry_invalid,
                 add_node_error g (decl_node_index source_node)
                   "unable to infer variable type")
              else if bool_decide (type_id implicit_type = TypeTableEntryIdMetaType)
                      && negb is_const
              then
                (entry_invalid,
                 add_node_error g (decl_node_index source_node)
                   "variable of type 'type' must be constant")
              else (implicit_type, g) in
            let g :=
              if negb (bool_decide (type_id implicit_type = TypeTableEntryIdInvalid))
                 && negb (bool_decide (is_Some (context_fn_entry context)))
                 && negb (const_ok (const_val (get_resolved_expr expr_node)))
              then
                add_node_error g (create_index (first_executing_node expr_node))
                  "global variable initializer requires constant expression"
              else g in
            Ok (implicit_type, Some expr_node, g)
        | None =>
            Ok (entry_invalid, None,
                add_node_error g (decl_node_index source_node)
                  "variables must be initialized")
        end in
      let type_ := default implicit_type explicit_type in
      let '(var, context, g) :=
        add_local_var g source_node context (Some symbol) type_ is_const in
      let is_pub := negb (bool_decide (visib_mod = VisibModPrivate)) in
      let! g :=
        if is_pub then
          let! i := get_import g import in
          import_variable g var (importers i)
        else Ok g in
      Ok (var, mkVariableDeclaration symbol is_const visib_mod type expr, context, g)
  end.

(** [analyze_if_then_else].  [parent_node] gives the parent of the two
    branches, on what is in their slots.  With no [else] branch the parent
    itself goes through [resolve_type_compatibility], which can put a cast
    node in its place while it is being analyzed: the third component of
    the result is that cast node, whose first parameter the parent then
    is. *)
Definition analyze_if_then_else (g : CodeGen) (import : Z) (context : BlockContext)
    (expected_type : option TypeTableEntry) (then_block : AstNode)
    (else_node : option AstNode) (parent_node : AstNode -> option AstNode -> AstNode)
    : result (TypeTableEntry * AstNode * option AstNode * CodeGen) :=
  let! (then_type, then_block, g) :=
    analyze_expression g import context expected_type then_block in
  let! (else_type, else_node, node, cast, g) :=
    match else_node with
    | Some else_node =>
        let! (else_type, else_node, g) :=
          analyze_expression g import context expected_type else_node in
        Ok (else_type, Some else_node, parent_node then_block (Some else_node), None, g)
    | None =>
        let node := parent_node then_block None in
        let! (else_type, cast, g) :=
          resolve_type_compatibility g import context node expected_type entry_void in
        Ok (else_type, None,
            match cast with
            | Some parent => first_param parent node
            | None => node
            end,
            cast, g)
    end in
  match expected_type with
  | Some _ =>
      Ok (if decide (type_id then_type = TypeTableEntryIdUnreachable)
          then else_type else then_type,
          node, cast, g)
  | None =>
      let! (t, op_nodes, g) :=
        resolve_peer_type_compatibility g import context (create_index node)
          [Some then_block; else_node] [then_type; else_type] in
      match op_nodes with
      | [Some then_block; else_node] => Ok (t, parent_node then_block else_node, cast, g)
      | _ => Ok (t, node, cast, g)
      end
  end.

(** [analyze_if_bool_expr] *)
Definition analyze_if_bool_expr (g : CodeGen) (import : Z) (context : BlockContext)
    (expected_type : option TypeTableEntry) (node : AstNode)
    : result (TypeTableEntry * AstNode * option AstNode * CodeGen) :=
  match node_data node with
  | if_bool_expr condition then_block else_node =>
      let! (_, condition, g) :=
        analyze_expression g import context (Some entry_bool) condition in
      analyze_if_then_else g import context expected_type then_block else_node
        (fun then_block else_node =>
           set_node_data node (if_bool_expr condition then_block else_node))
  | _ => Panic "node->type == NodeTypeIfBoolExpr"
  end.

(** [analyze_if_var_expr] *)
Definition analyze_if_var_expr (g : CodeGen) (import : Z) (context : BlockContext)
    (expected_type : option TypeTableEntry) (node : AstNode)
    : result (TypeTableEntry * AstNode * option AstNode * CodeGen) :=
  match node_data node with
  | if_var_expr var_decl then_block else_node =>
      let child_context := new_block_context (Some (create_index node)) (Some context) in
      let! (_, var_decl, child_context, g) :=
        analyze_variable_declaration_raw g import child_context
          (decl_other (create_index node)) var_decl true in
      analyze_if_then_else g import child_context expected_type then_block else_node
        (fun then_block else_node =>
           set_node_data node (if_var_expr var_decl then_block else_node))
  | _ => Panic "node->type == NodeTypeIfVarExpr"
  end.

(** [analyze_slice_expr] *)
Definition analyze_slice_expr (g : CodeGen) (import : Z) (context : BlockContext)
    (node : AstNode) : result (TypeTableEntry * AstNode * CodeGen) :=
  match node_data node with
  | slice_expr array_ref_expr start end_ is_const =>
      let! (array_type, array_ref_expr, g) :=
        analyze_expression g import context None array_ref_expr in
      let! (return_type, g) :=
        match array_type with
        | entry_invalid => Ok (entry_invalid, g)
        | TypeArray child_type _ =>
            let! t := get_unknown_size_array_type child_type is_const in Ok (t, g)
        | TypePointer child_type _ =>
            let! t := get_unknown_size_array_type child_type is_const in Ok (t, g)
        | TypeUnknownSizeArray child_type _ =>
            let! t := get_unknown_size_array_type child_type is_const in Ok (t, g)
        | _ =>
            Ok (entry_invalid,
                add_node_error g (create_index node)
                  ("slice of non-array type '" ++ type_name array_type ++ "'"))
        end in
      let! (_, start, g) :=
        analyze_expression g import context (Some (entry_isize g)) start in
      let! (end_, g) :=
        match end_ with
        | Some end_node =>
            let! (_, end_node, g) :=
              analyze_expression g import context (Some (entry_isize g)) end_node in
            Ok (Some end_node, g)
        | None => Ok (None, g)
        end in
      Ok (return_type,
          set_node_data node (slice_expr array_ref_expr start end_ is_const), g)
  | _ => Panic "node->type == NodeTypeSliceExpr"
  end.

(** The body of [analyze_expression]: the dispatch on the kind of the node,
    then the conversion to the expected type and the recording of the type
    in the [Expr] of the node. *)
Definition analyze_expression_body (g : CodeGen) (import : Z) (context : BlockContext)
    (expected_type : option TypeTableEntry) (node : AstNode)
    : result (TypeTableEntry * AstNode * CodeGen) :=
  let plain (r : result (TypeTableEntry * AstNode * CodeGen))
      : result (TypeTableEntry * AstNode * option AstNode * CodeGen) :=
    let! (t, n, g) := r in Ok (t, n, None, g) in
  let! (return_type, node, outer, g) :=
    match node_data node with
    | bin_op_expr _ _ _ => plain (analyze_bin_op_expr g import context node)
    | fn_call_expr _ _ _ => plain (analyze_fn_call_expr g import context node)
    | slice_expr _ _ _ _ => plain (analyze_slice_expr g import context node)
    | number_literal overflow x_uint =>
        plain (Ok (analyze_number_literal_expr g node overflow x_uint))
    | string_literal buf c => plain (analyze_string_literal_expr g node buf c)
    | bool_literal value =>
        let '(t, n) := resolve_expr_const_val_as_bool node value in Ok (t, n, None, g)
    | symbol_expr symbol override_type_entry =>
        plain (analyze_symbol_expr g import context node symbol override_type_entry)
    | if_bool_expr _ _ _ => analyze_if_bool_expr g import context expected_type node
    | if_var_expr _ _ _ => analyze_if_var_expr g import context expected_type node
    end in
  let! (resolved_type, cast, g) :=
    resolve_type_compatibility g import context node expected_type return_type in
  let node :=
    match cast with
    | Some parent =>
        set_first_param parent (set_type_entry (first_param parent node) return_type)
    | None => set_type_entry node return_type
    end in
  Ok (resolved_type,
      match outer with
      | Some parent => set_first_param parent node
      | None => node
      end,
      g).

End analysis.

(** [analyze_expression], with a bound on the depth of the calls. *)
Fixpoint analyze_expression (entry_size_in_bits : TypeTableEntry -> Z) (fuel : nat)
    (g : CodeGen) (import : Z) (context : BlockContext)
    (expected_type : option TypeTableEntry) (node : AstNode)
    : result (TypeTableEntry * AstNode * CodeGen) :=
  match fuel with
  | O => OutOfFuel
  | S fuel =>
      analyze_expression_body entry_size_in_bits
        (analyze_expression entry_size_in_bits fuel) g import context expected_type node
  end.

(** *** Code generation of a slice expression

    Of [gen_slice_expr], the value it takes for the end of the slice: the
    value of the [end] expression, the length of the array, or the [len]
    field of the slice.  For a pointer base the source passes [end] to
    [gen_expr] without a test, and [gen_expr] reads the kind of the node. *)
Inductive SliceEnd :=
| slice_end_expr (node : AstNode)
| slice_end_array_len (len : Z)
| slice_end_len_field.

Definition gen_slice_expr_end_val (array_type : TypeTableEntry) (end_ : option AstNode)
    : result SliceEnd :=
  match array_type with
  | TypeArray _ len =>
      Ok (match end_ with
          | Some end_node => slice_end_expr end_node
          | None => slice_end_array_len len
          end)
  | TypePointer _ _ =>
      match end_ with
      | Some end_node => Ok (slice_end_expr end_node)
      | None => Panic "gen_expr of a null node"
      end
  | TypeUnknownSizeArray _ _ =>
      Ok (match end_ with
          | Some end_node => slice_end_expr end_node
          | None => slice_end_len_field
          end)
  | TypeStruct _ _ => Panic "array_type->data.structure.is_unknown_size_array"
  | _ => zig_unreachable
  end.

(** ** A session for the examples

    One import with an empty root scope and, below it, the scope of a
    function [f] with the variables [m : ?i32], [p : &u8], [a : i32],
    [b : i64], [c : bool] and [s : []const u8]. *)
Definition example_root : BlockContext := new_block_context None None.

Definition example_import : ImportTableEntry :=
  {| root := []; block_context := example_root; importers := []; fn_table := ∅ |}.

Definition example_session : CodeGen :=
  set_next_node_index (put_import (codegen_create 8) 0 example_import) 100.

Definition example_local (name : string) (type : TypeTableEntry) : VariableTableEntry :=
  {| var_name := name; var_type := type; var_is_const := false;
     var_decl_node := decl_other 1 |}.

Definition example_fn_context : BlockContext :=
  mkBlockContext (Some 1) (Some "f") (Some example_root)
    (list_to_map
       [ ("m", example_local "m" (TypeMaybe entry_i32));
         ("p", example_local "p" (TypePointer entry_u8 false));
         ("a", example_local "a" entry_i32);
         ("b", example_local "b" entry_i64);
         ("c", example_local "c" entry_bool);
         ("s", example_local "s" (TypeUnknownSizeArray entry_u8 true)) ])
    ∅ ∅ None.

Definition symbol_node (i : Z) (symbol : string) : AstNode :=
  mkAstNode i (symbol_expr symbol None) expr_zero.

Definition number_node (i : Z) (x : Z) : AstNode :=
  mkAstNode i (number_literal false x) expr_zero.

Definition string_node (i : Z) (buf : string) : AstNode :=
  mkAstNode i (string_literal buf false) expr_zero.

(** The analyzer on the example session, in the scope of [f]. *)
Definition analyze_example (expected_type : option TypeTableEntry) (node : AstNode)
    : result (TypeTableEntry * AstNode * CodeGen) :=
  analyze_expression size_in_bits 8 example_session 0 example_fn_context
    expected_type node.

(** [p[0...]] *)
Definition slice_of_pointer_example : AstNode :=
  mkAstNode 10 (slice_expr (symbol_node 11 "p") (number_node 12 0) None false) expr_zero.

(** [if (var x ?= m) x else x] *)
Definition if_var_example : AstNode :=
  mkAstNode 10
    (if_var_expr
       (mkVariableDeclaration "x" false VisibModPrivate None (Some (symbol_node 11 "m")))
       (symbol_node 12 "x") (Some (symbol_node 13 "x")))
    expr_zero.

(** [if (var x ?= a) x else x] *)
Definition if_var_not_maybe_example : AstNode :=
  mkAstNode 10
    (if_var_expr
       (mkVariableDeclaration "x" false VisibModPrivate None (Some (symbol_node 11 "a")))
       (symbol_node 12 "x") (Some (symbol_node 13 "x")))
    expr_zero.

(** ["foo" ++ "bar"] *)
Definition str_cat_example : AstNode :=
  mkAstNode 10
    (bin_op_expr (string_node 11 "foo") BinOpTypeStrCat (string_node 12 "bar"))
    expr_zero.

(** [y ++ "bar"], with no [y] declared *)
Definition str_cat_undeclared_example : AstNode :=
  mkAstNode 10
    (bin_op_expr (symbol_node 11 "y") BinOpTypeStrCat (string_node 12 "bar"))
    expr_zero.

(** [s ++ "bar"], with the variable [s : []const u8] *)
Definition str_cat_variable_example : AstNode :=
  mkAstNode 10
    (bin_op_expr (symbol_node 11 "s") BinOpTypeStrCat (string_node 12 "bar"))
    expr_zero.

(** [if (c) a else b] *)
Definition if_bool_example : AstNode :=
  mkAstNode 10
    (if_bool_expr (symbol_node 11 "c") (symbol_node 12 "a") (Some (symbol_node 13 "b")))
    expr_zero.

(** What a run reports: its type and its errors. *)
Definition result_type {A B : Type} (r : result (TypeTableEntry * A * B))
    : option TypeTableEntry :=
  match r with
  | Ok (t, _, _) => Some t
  | _ => None
  end.

Definition result_errors {A : Type} (r : result (TypeTableEntry * A * CodeGen))
    : list ErrorMsg :=
  match r with
  | Ok (_, _, g) => errors g
  | _ => []
  end.

(** ** Notions the statements use *)

(** The scope [analyze_if_var_expr] makes for node [i] below [context],
    with the variable declared in it. *)
Definition if_var_variable (i : Z) (symbol : string) (type : TypeTableEntry)
    (is_const : bool) : VariableTableEntry :=
  {| var_name := symbol; var_type := type; var_is_const := is_const;
     var_decl_node := decl_other i |}.

Definition if_var_scope (i : Z) (context : BlockContext) (symbol : string)
    (type : TypeTableEntry) (is_const : bool) : BlockContext :=
  let child_context := new_block_context (Some i) (Some context) in
  set_variable_table child_context
    (<[symbol := if_var_variable i symbol type is_const]> (variable_table child_context)).

(** [symbol] can be declared below [context]: it names no variable that
    [add_local_var] looks for, no primitive type and no container. *)
Definition declarable (g : CodeGen) (context : BlockContext) (symbol : string) : bool :=
  bool_decide
    (match context_fn_entry context with
     | Some _ => find_local_variable context symbol
     | None => find_variable context symbol
     end = None)
  && bool_decide (primitive_type_table g !! symbol = None)
  && bool_decide (find_container context symbol = None).

(** The elements of a constant slice: a constant whose value is a struct of
    a pointer to the elements and of their number. *)
Definition const_slice_elems (v : ConstExprValue) : option (list ConstExprValue) :=
  match v with
  | mkConstExprValue true _
      (x_struct [mkConstExprValue _ _ (x_ptr ptr _); mkConstExprValue _ _ (x_bignum bn)]) =>
      if decide (bignum_x_uint bn = Z.of_nat (length ptr)) then Some ptr else None
  | _ => None
  end.

(** The constant slice that [++] makes of the elements. *)
Definition str_cat_value (undef : bool) (elems : list ConstExprValue) : ConstExprValue :=
  let len := Z.of_nat (length elems) in
  mkConstExprValue true undef
    (x_struct [mkConstExprValue true false (x_ptr elems len);
               mkConstExprValue true false (x_bignum (bignum_init_unsigned len))]).

(** ** More notions and examples *)

(** The session a run ends in; the session it started in when it aborts. *)
Definition result_session {A : Type} (g : CodeGen) (r : result (A * CodeGen)) : CodeGen :=
  match r with
  | Ok (_, g') => g'
  | _ => g
  end.

(** The scope of [f] with, besides, the constant [x : i32 = 300]. *)
Definition example_const_context : BlockContext :=
  set_variable_table example_fn_context
    (<["x" := {| var_name := "x"; var_type := entry_i32; var_is_const := true;
                 var_decl_node :=
                   decl_variable_declaration 2
                     (Some {| type_entry := Some entry_i32;
                              const_val := const_char 300 |}) |}]>
       (variable_table example_fn_context)).

(** [u8(x)], the type already resolved. *)
Definition cast_example : AstNode :=
  mkAstNode 10
    (fn_call_expr (mkAstNode 11 (symbol_expr "" (Some entry_u8)) expr_zero)
       [symbol_node 12 "x"] CastOpNoCast)
    expr_zero.

(** What expression analysis leaves of an import: all but the variables of
    its root scope. *)
Definition import_declarations (i : ImportTableEntry)
    : list TopLevelDeclNode * list ImporterInfo * gmap string FnTableEntry
      * gmap string TypeTableEntry * gmap string ErrorTableEntry :=
  (root i, importers i, fn_table i, type_table (block_context i),
   error_table (block_context i)).

(** What expression analysis leaves of a session: the errors reported so
    far, in their order, the declarations of the imports, the container and
    error-value tables and the parameters of the target. *)
Definition session_kept (g g' : CodeGen) : Prop :=
  errors g `prefix_of` errors g' /\
  (forall k, import_declarations <$> imports g' !! k
             = import_declarations <$> imports g !! k) /\
  structs g' = structs g /\ enums g' = enums g /\
  pointer_size_bytes g' = pointer_size_bytes g /\
  next_error_index g' = next_error_index g /\
  error_value_count g' = error_value_count g /\
  err_tag_type g' = err_tag_type g.


(** ** Resolution of the declared containers

    [resolve_struct_type] and [resolve_enum_type].  A struct or enum entry is
    named by the key of its mutable part in the session ([TypeStruct],
    [TypeEnum]); a slice is a struct entry whose fields are set when it is
    made.  Every write goes to the entry in the session, so that what a
    recursive call did to the entry is seen after it.

    Of the array of fields the list holds the elements written so far; the
    rest of the array is zero-filled.  The array of a declaration without
    fields is taken to be allocated (not null).  The sizes, the alignment and
    the LLVM and debug types that the source computes are not modelled;
    [entry_type_ref] says of an entry whether its [type_ref] is set, which
    [resolve_struct_type] asserts of the type of a field. *)

Definition get_struct (g : CodeGen) (decl : Z) : result TypeTableEntryStruct :=
  match structs g !! decl with
  | Some s => Ok s
  | None => Panic "null struct entry"
  end.

Definition get_enum (g : CodeGen) (decl : Z) : result TypeTableEntryEnum :=
  match enums g !! decl with
  | Some s => Ok s
  | None => Panic "null enum entry"
  end.

Definition put_struct (g : CodeGen) (decl : Z) (s : TypeTableEntryStruct) : CodeGen :=
  set_structs g (<[decl := s]> (structs g)).

Definition put_enum (g : CodeGen) (decl : Z) (s : TypeTableEntryEnum) : CodeGen :=
  set_enums g (<[decl := s]> (enums g)).

Definition set_struct_decl_fields (d : AstNodeStructDecl) (fields : list AstNodeStructField)
    : AstNodeStructDecl :=
  {| struct_decl_node := struct_decl_node d; struct_decl_name := struct_decl_name d;
     struct_decl_fields := fields |}.

(** The declaration with [type] in the slot of the type of field [i]. *)
Definition set_struct_field_type (d : AstNodeStructDecl) (i : nat) (type : AstNode)
    : AstNodeStructDecl :=
  set_struct_decl_fields d
    (alter (fun f => {| struct_field_node := struct_field_node f;
                        struct_field_name := struct_field_name f;
                        struct_field_type := type |}) i (struct_decl_fields d)).

(** The state of a struct entry as [resolve_struct_type] starts on it. *)
Definition structure_started (s : TypeTableEntryStruct) (field_count : Z)
    : TypeTableEntryStruct :=
  {| structure_decl_node := structure_decl_node s;
     structure_import := structure_import s;
     structure_src_field_count := field_count;
     structure_gen_field_count := structure_gen_field_count s;
     structure_fields := Some [];
     structure_is_invalid := structure_is_invalid s;
     structure_embedded_in_current := true;
     structure_reported_infinite_err := structure_reported_infinite_err s;
     structure_complete := structure_complete s |}.

Definition structure_with_decl (s : TypeTableEntryStruct) (d : AstNodeStructDecl)
    : TypeTableEntryStruct :=
  {| structure_decl_node := d;
     structure_import := structure_import s;
     structure_src_field_count := structure_src_field_count s;
     structure_gen_field_count := structure_gen_field_count s;
     structure_fields := structure_fields s;
     structure_is_invalid := structure_is_invalid s;
     structure_embedded_in_current := structure_embedded_in_current s;
     structure_reported_infinite_err := structure_reported_infinite_err s;
     structure_complete := structure_complete s |}.

(** Writing field [f] as the next element of the array. *)
Definition structure_with_field (s : TypeTableEntryStruct) (f : TypeStructField)
    : TypeTableEntryStruct :=
  {| structure_decl_node := structure_decl_node s;
     structure_import := structure_import s;
     structure_src_field_count := structure_src_field_count s;
     structure_gen_field_count := structure_gen_field_count s;
     structure_fields := Some (default [] (structure_fields s) ++ [f])%list;
     structure_is_invalid := structure_is_invalid s;
     structure_embedded_in_current := structure_embedded_in_current s;
     structure_reported_infinite_err := structure_reported_infinite_err s;
     structure_complete := structure_complete s |}.

(** Setting [gen_index] of element [i]. *)
Definition structure_with_gen_index (s : TypeTableEntryStruct) (i : nat) (gen_index : Z)
    : TypeTableEntryStruct :=
  {| structure_decl_node := structure_decl_node s;
     structure_import := structure_import s;
     structure_src_field_count := structure_src_field_count s;
     structure_gen_field_count := structure_gen_field_count s;
     structure_fields :=
       match structure_fields s with
       | Some fields =>
           Some (alter (fun f => {| field_name := field_name f;
                                    field_type_entry := field_type_entry f;
                                    src_index := src_index f;
                                    gen_index := gen_index |})
                   i fields)
       | None => None
       end;
     structure_is_invalid := structure_is_invalid s;
     structure_embedded_in_current := structure_embedded_in_current s;
     structure_reported_infinite_err := structure_reported_infinite_err s;
     structure_complete := structure_complete s |}.

Definition structure_with_is_invalid (s : TypeTableEntryStruct) : TypeTableEntryStruct :=
  {| structure_decl_node := structure_decl_node s;
     structure_import := structure_import s;
     structure_src_field_count := structure_src_field_count s;
     structure_gen_field_count := structure_gen_field_count s;
     structure_fields := structure_fields s;
     structure_is_invalid := true;
     structure_embedded_in_current := structure_embedded_in_current s;
     structure_reported_infinite_err := structure_reported_infinite_err s;
     structure_complete := structure_complete s |}.

Definition structure_with_reported (s : TypeTableEntryStruct) : TypeTableEntryStruct :=
  {| structure_decl_node := structure_decl_node s;
     structure_import := structure_import s;
     structure_src_field_count := structure_src_field_count s;
     structure_gen_field_count := structure_gen_field_count s;
     structure_fields := structure_fields s;
     structure_is_invalid := structure_is_invalid s;
     structure_embedded_in_current := structure_embedded_in_current s;
     structure_reported_infinite_err := true;
     structure_complete := structure_complete s |}.

(** The state of a struct entry once the loop over its fields is done. *)
Definition structure_finished (s : TypeTableEntryStruct) (gen_field_count : Z)
    : TypeTableEntryStruct :=
  {| structure_decl_node := structure_decl_node s;
     structure_import := structure_import s;
     structure_src_field_count := structure_src_field_count s;
     structure_gen_field_count := gen_field_count;
     structure_fields := structure_fields s;
     structure_is_invalid := structure_is_invalid s;
     structure_embedded_in_current := false;
     structure_reported_infinite_err := structure_reported_infinite_err s;
     structure_complete := true |}.

Definition enumeration_started (s : TypeTableEntryEnum) (field_count : Z)
    : TypeTableEntryEnum :=
  {| enumeration_decl_node := enumeration_decl_node s;
     enumeration_import := enumeration_import s;
     enumeration_field_count := field_count;
     enumeration_gen_field_count := enumeration_gen_field_count s;
     enumeration_fields := Some [];
     enumeration_is_invalid := enumeration_is_invalid s;
     enumeration_tag_type := enumeration_tag_type s;
     enumeration_embedded_in_current := true;
     enumeration_reported_infinite_err := enumeration_reported_infinite_err s;
     enumeration_complete := enumeration_complete s |}.

Definition enumeration_with_decl (s : TypeTableEntryEnum) (d : AstNodeStructDecl)
    : TypeTableEntryEnum :=
  {| enumeration_decl_node := d;
     enumeration_import := enumeration_import s;
     enumeration_field_count := enumeration_field_count s;
     enumeration_gen_field_count := enumeration_gen_field_count s;
     enumeration_fields := enumeration_fields s;
     enumeration_is_invalid := enumeration_is_invalid s;
     enumeration_tag_type := enumeration_tag_type s;
     enumeration_embedded_in_current := enumeration_embedded_in_current s;
     enumeration_reported_infinite_err := enumeration_reported_infinite_err s;
     enumeration_complete := enumeration_complete s |}.

Definition enumeration_with_field (s : TypeTableEntryEnum) (f : TypeEnumField)
    : TypeTableEntryEnum :=
  {| enumeration_decl_node := enumeration_decl_node s;
     enumeration_import := enumeration_import s;
     enumeration_field_count := enumeration_field_count s;
     enumeration_gen_field_count := enumeration_gen_field_count s;
     enumeration_fields := Some (default [] (enumeration_fields s) ++ [f])%list;
     enumeration_is_invalid := enumeration_is_invalid s;
     enumeration_tag_type := enumeration_tag_type s;
     enumeration_embedded_in_current := enumeration_embedded_in_current s;
     enumeration_reported_infinite_err := enumeration_reported_infinite_err s;
     enumeration_complete := enumeration_complete s |}.

Definition enumeration_with_is_invalid (s : TypeTableEntryEnum) : TypeTableEntryEnum :=
  {| enumeration_decl_node := enumeration_decl_node s;
     enumeration_import := enumeration_import s;
     enumeration_field_count := enumeration_field_count s;
     enumeration_gen_field_count := enumeration_gen_field_count s;
     enumeration_fields := enumeration_fields s;
     enumeration_is_invalid := true;
     enumeration_tag_type := enumeration_tag_type s;
     enumeration_embedded_in_current := enumeration_embedded_in_current s;
     enumeration_reported_infinite_err := enumeration_reported_infinite_err s;
     enumeration_complete := enumeration_complete s |}.

Definition enumeration_with_reported (s : TypeTableEntryEnum) : TypeTableEntryEnum :=
  {| enumeration_decl_node := enumeration_decl_node s;
     enumeration_import := enumeration_import s;
     enumeration_field_count := enumeration_field_count s;
     enumeration_gen_field_count := enumeration_gen_field_count s;
     enumeration_fields := enumeration_fields s;
     enumeration_is_invalid := enumeration_is_invalid s;
     enumeration_tag_type := enumeration_tag_type s;
     enumeration_embedded_in_current := enumeration_embedded_in_current s;
     enumeration_reported_infinite_err := true;
     enumeration_complete := enumeration_complete s |}.

(** The state of an enum entry once the loop over its fields is done;
    [layout] is the number of fields that take space and the tag type, for an
    enum that is not invalid. *)
Definition enumeration_finished (s : TypeTableEntryEnum)
    (layout : option (Z * TypeTableEntry)) : TypeTableEntryEnum :=
  {| enumeration_decl_node := enumeration_decl_node s;
     enumeration_import := enumeration_import s;
     enumeration_field_count := enumeration_field_count s;
     enumeration_gen_field_count :=
       match layout with
       | Some (n, _) => n
       | None => enumeration_gen_field_count s
       end;
     enumeration_fields := enumeration_fields s;
     enumeration_is_invalid := enumeration_is_invalid s;
     enumeration_tag_type :=
       match layout with
       | Some (_, t) => Some t
       | None => enumeration_tag_type s
       end;
     enumeration_embedded_in_current := false;
     enumeration_reported_infinite_err := enumeration_reported_infinite_err s;
     enumeration_complete := true |}.

Section containers.

Variable entry_type_ref : TypeTableEntry -> bool.

Variable analyze_expression :
  CodeGen -> Z -> BlockContext -> option TypeTableEntry -> AstNode ->
  result (TypeTableEntry * AstNode * CodeGen).

Section fields.

(** The two functions, for the calls on the type of a field. *)
Variable resolve_struct_type resolve_enum_type :
  CodeGen -> Z -> TypeTableEntry -> result CodeGen.

(** The loop of [resolve_struct_type] over the fields from number [i] on;
    the result is [gen_field_index]. *)
Fixpoint resolve_struct_fields (g : CodeGen) (import : Z) (decl : Z)
    (fields : list AstNodeStructField) (i : nat) (gen_field_index : Z)
    : result (Z * CodeGen) :=
  match fields with
  | [] => Ok (gen_field_index, g)
  | field_node :: rest =>
      let! imp := get_import g import in
      let! (type_entry, type_node, g) :=
        analyze_type_expr analyze_expression g import (block_context imp)
          (struct_field_type field_node) in
      let! s := get_struct g decl in
      let g :=
        put_struct g decl
          (structure_with_field
             (structure_with_decl s
                (set_struct_field_type (structure_decl_node s) i type_node))
             {| field_name := struct_field_name field_node;
                field_type_entry := type_entry;
                src_index := Z.of_nat i; gen_index := -1 |}) in
      let next (g : CodeGen) : result (Z * CodeGen) :=
        let! s := get_struct g decl in
        let g := put_struct g decl (structure_with_gen_index s i gen_field_index) in
        let! _ := assert (entry_type_ref type_entry) in
        resolve_struct_fields g import decl rest (S i) (gen_field_index + 1) in
      if decide (type_id type_entry = TypeTableEntryIdStruct) then
        let! g := resolve_struct_type g import type_entry in next g
      else if decide (type_id type_entry = TypeTableEntryIdEnum) then
        let! g := resolve_enum_type g import type_entry in next g
      else if decide (type_id type_entry = TypeTableEntryIdInvalid) then
        let! s := get_struct g decl in
        resolve_struct_fields (put_struct g decl (structure_with_is_invalid s))
          import decl rest (S i) gen_field_index
      else if decide (type_id type_entry = TypeTableEntryIdVoid) then
        resolve_struct_fields g import decl rest (S i) gen_field_index
      else next g
  end.

(** [resolve_struct_type], the recursive calls apart. *)
Definition resolve_struct_type_body (g : CodeGen) (import : Z)
    (struct_type : TypeTableEntry) : result CodeGen :=
  match struct_type with
  | TypeUnknownSizeArray _ _ => Ok g
  | TypeStruct decl _ =>
      let! s := get_struct g decl in
      if structure_embedded_in_current s then
        if structure_reported_infinite_err s then Ok g
        else
          Ok (add_node_error (put_struct g decl (structure_with_reported s))
                (struct_decl_node (structure_decl_node s)) "struct has infinite size")
      else if bool_decide (is_Some (structure_fields s)) then
        Ok g (* we already resolved this type. skip *)
      else
        let fields := struct_decl_fields (structure_decl_node s) in
        let g := put_struct g decl (structure_started s (Z.of_nat (length fields))) in
        let! (gen_field_index, g) := resolve_struct_fields g import decl fields 0 0 in
        let! s := get_struct g decl in
        Ok (put_struct g decl (structure_finished s gen_field_index))
  | _ => Panic "struct_type->id == TypeTableEntryIdStruct"
  end.

(** The loop of [resolve_enum_type] over the fields. *)
Fixpoint resolve_enum_fields (g : CodeGen) (import : Z) (decl : Z)
    (fields : list AstNodeStructField) (i : nat) (gen_field_index : Z)
    : result (Z * CodeGen) :=
  match fields with
  | [] => Ok (gen_field_index, g)
  | field_node :: rest =>
      let! imp := get_import g import in
      let! (type_entry, type_node, g) :=
        analyze_type_expr analyze_expression g import (block_context imp)
          (struct_field_type field_node) in
      let! s := get_enum g decl in
      let g :=
        put_enum g decl
          (enumeration_with_field
             (enumeration_with_decl s
                (set_struct_field_type (enumeration_decl_node s) i type_node))
             {| enum_field_name := struct_field_name field_node;
                enum_field_type_entry := type_entry;
                enum_field_value := wrap32 (Z.of_nat i) |}) in
      let next (g : CodeGen) : result (Z * CodeGen) :=
        resolve_enum_fields g import decl rest (S i) (gen_field_index + 1) in
      if decide (type_id type_entry = TypeTableEntryIdStruct) then
        let! g := resolve_struct_type g import type_entry in next g
      else if decide (type_id type_entry = TypeTableEntryIdEnum) then
        let! g := resolve_enum_type g import type_entry in next g
      else if decide (type_id type_entry = TypeTableEntryIdInvalid) then
        let! s := get_enum g decl in
        resolve_enum_fields (put_enum g decl (enumeration_with_is_invalid s))
          import decl rest (S i) gen_field_index
      else if decide (type_id type_entry = TypeTableEntryIdVoid) then
        resolve_enum_fields g import decl rest (S i) gen_field_index
      else next g
  end.

(** [resolve_enum_type], the recursive calls apart. *)
Definition resolve_enum_type_body (g : CodeGen) (import : Z)
    (enum_type : TypeTableEntry) : result CodeGen :=
  match enum_type with
  | TypeEnum decl _ =>
      let! s := get_enum g decl in
      if enumeration_embedded_in_current s then
        if enumeration_reported_infinite_err s then Ok g
        else
          Ok (add_node_error (put_enum g decl (enumeration_with_reported s))
                (struct_decl_node (enumeration_decl_node s)) "enum has infinite size")
      else if bool_decide (is_Some (enumeration_fields s)) then
        Ok g (* we already resolved this type. skip *)
      else
        let fields := struct_decl_fields (enumeration_decl_node s) in
        let field_count := wrap32 (Z.of_nat (length fields)) in
        let g := put_enum g decl (enumeration_started s field_count) in
        let! (gen_field_index, g) := resolve_enum_fields g import decl fields 0 0 in
        let! s := get_enum g decl in
        if enumeration_is_invalid s then
          Ok (put_enum g decl (enumeration_finished s None))
        else
          let! tag_type_entry := get_smallest_unsigned_int_type field_count in
          Ok (put_enum g decl
                (enumeration_finished s (Some (gen_field_index, tag_type_entry))))
  | _ => Panic "enum_type->id == TypeTableEntryIdEnum"
  end.

End fields.

(** [resolve_struct_type] and [resolve_enum_type], with a bound on the depth
    of the calls. *)
Fixpoint resolve_struct_type (fuel : nat) (g : CodeGen) (import : Z)
    (struct_type : TypeTableEntry) : result CodeGen :=
  match fuel with
  | O => OutOfFuel
  | S fuel =>
      resolve_struct_type_body (resolve_struct_type fuel) (resolve_enum_type fuel)
        g import struct_type
  end
with resolve_enum_type (fuel : nat) (g : CodeGen) (import : Z)
    (enum_type : TypeTableEntry) : result CodeGen :=
  match fuel with
  | O => OutOfFuel
  | S fuel =>
      resolve_enum_type_body (resolve_struct_type fuel) (resolve_enum_type fuel)
        g import enum_type
  end.

End containers.

(** *** Fields named by a type

    The type of a field whose type expression is a name: a primitive type,
    or the container [name] itself (entry [self]). *)
Definition named_field_type (g : CodeGen) (name : string) (self : TypeTableEntry)
    (f : AstNodeStructField) : option TypeTableEntry :=
  match struct_field_type f with
  | mkAstNode _ (symbol_expr symbol None) _ =>
      match primitive_type_table g !! symbol with
      | Some t => Some t
      | None => if decide (symbol = name) then Some self else None
      end
  | _ => None
  end.

(** A struct [S] that names itself as the type of its first and of its last
    field, and [i32] in between. *)
Definition self_embedding_decl : AstNodeStructDecl :=
  {| struct_decl_node := 50; struct_decl_name := "S";
     struct_decl_fields :=
       [ {| struct_field_node := 51; struct_field_name := "a";
            struct_field_type := symbol_node 52 "S" |};
         {| struct_field_node := 53; struct_field_name := "n";
            struct_field_type := symbol_node 54 "i32" |};
         {| struct_field_node := 55; struct_field_name := "b";
            struct_field_type := symbol_node 56 "S" |} ] |}.

Definition self_embedding_entry : TypeTableEntryStruct :=
  {| structure_decl_node := self_embedding_decl; structure_import := 0;
     structure_src_field_count := 0; structure_gen_field_count := 0;
     structure_fields := None; structure_is_invalid := false;
     structure_embedded_in_current := false;
     structure_reported_infinite_err := false; structure_complete := false |}.

Definition self_embedding_import : ImportTableEntry :=
  {| root := [];
     block_context :=
       mkBlockContext None None None ∅ {[ "S" := TypeStruct 50 "S" ]} ∅ None;
     importers := []; fn_table := ∅ |}.

Definition self_embedding_session : CodeGen :=
  put_struct (put_import (codegen_create 8) 0 self_embedding_import) 50
    self_embedding_entry.

(** A struct [S] that names itself as the type of its first field and
    [type] as the type of its second. *)
Definition type_field_decl : AstNodeStructDecl :=
  {| struct_decl_node := 50; struct_decl_name := "S";
     struct_decl_fields :=
       [ {| struct_field_node := 51; struct_field_name := "a";
            struct_field_type := symbol_node 52 "S" |};
         {| struct_field_node := 53; struct_field_name := "t";
            struct_field_type := symbol_node 54 "type" |} ] |}.

Definition type_field_entry : TypeTableEntryStruct :=
  {| structure_decl_node := type_field_decl; structure_import := 0;
     structure_src_field_count := 0; structure_gen_field_count := 0;
     structure_fields := None; structure_is_invalid := false;
     structure_embedded_in_current := false;
     structure_reported_infinite_err := false; structure_complete := false |}.

Definition type_field_session : CodeGen :=
  put_struct (put_import (codegen_create 8) 0 self_embedding_import) 50
    type_field_entry.

(** Every entry of the example has its [type_ref]. *)
Definition all_type_refs (t : TypeTableEntry) : bool := true.

(** The error that a struct that embeds itself is given. *)
Definition infinite_size_error (s : TypeTableEntryStruct) : ErrorMsg :=
  {| err_node := struct_decl_node (structure_decl_node s);
     err_msg := "struct has infinite size" |}.

(** The session while the fields of struct [decl] are resolved, [g0] being
    the session at the start and [s0] the entry then: [types] are the types
    of the fields done, [reported] is whether the error was reported. *)
Definition resolving (g0 : CodeGen) (decl : Z) (s0 : TypeTableEntryStruct)
    (g : CodeGen) (types : list TypeTableEntry) (reported : bool) : Prop :=
  imports g = imports g0 /\
  enums g = enums g0 /\
  pointer_size_bytes g = pointer_size_bytes g0 /\
  errors g = (errors g0 ++ if reported then [infinite_size_error s0] else [])%list /\
  exists s fields,
    structs g !! decl = Some s /\
    struct_decl_node (structure_decl_node s) = struct_decl_node (structure_decl_node s0) /\
    structure_embedded_in_current s = true /\
    structure_reported_infinite_err s = reported /\
    structure_is_invalid s = structure_is_invalid s0 /\
    structure_fields s = Some fields /\
    field_type_entry <$> fields = types.

(** The error that an enum that embeds itself is given. *)
Definition enum_infinite_size_error (s : TypeTableEntryEnum) : ErrorMsg :=
  {| err_node := struct_decl_node (enumeration_decl_node s);
     err_msg := "enum has infinite size" |}.

(** The session while the fields of enum [decl] are resolved: [fields] are
    the elements written so far. *)
Definition resolving_enum (g0 : CodeGen) (decl : Z) (s0 : TypeTableEntryEnum)
    (g : CodeGen) (fields : list TypeEnumField) (reported : bool) : Prop :=
  imports g = imports g0 /\
  structs g = structs g0 /\
  pointer_size_bytes g = pointer_size_bytes g0 /\
  errors g = (errors g0 ++ if reported then [enum_infinite_size_error s0] else [])%list /\
  exists s,
    enums g !! decl = Some s /\
    struct_decl_node (enumeration_decl_node s) = struct_decl_node (enumeration_decl_node s0) /\
    enumeration_embedded_in_current s = true /\
    enumeration_reported_infinite_err s = reported /\
    enumeration_is_invalid s = enumeration_is_invalid s0 /\
    enumeration_fields s = Some fields.

(** An enum [E] with a field without a payload, a field of [i32] and a field
    of [E] itself. *)
Definition self_embedding_enum_decl : AstNodeStructDecl :=
  {| struct_decl_node := 60; struct_decl_name := "E";
     struct_decl_fields :=
       [ {| struct_field_node := 61; struct_field_name := "None";
            struct_field_type := symbol_node 62 "void" |};
         {| struct_field_node := 63; struct_field_name := "Leaf";
            struct_field_type := symbol_node 64 "i32" |};
         {| struct_field_node := 65; struct_field_name := "Node";
            struct_field_type := symbol_node 66 "E" |} ] |}.

Definition self_embedding_enum_entry : TypeTableEntryEnum :=
  {| enumeration_decl_node := self_embedding_enum_decl; enumeration_import := 0;
     enumeration_field_count := 0; enumeration_gen_field_count := 0;
     enumeration_fields := None; enumeration_is_invalid := false;
     enumeration_tag_type := None;
     enumeration_embedded_in_current := false;
     enumeration_reported_infinite_err := false; enumeration_complete := false |}.

Definition self_embedding_enum_import : ImportTableEntry :=
  {| root := [];
     block_context :=
       mkBlockContext None None None ∅ {[ "E" := TypeEnum 60 "E" ]} ∅ None;
     importers := []; fn_table := ∅ |}.

Definition self_embedding_enum_session : CodeGen :=
  put_enum (put_import (codegen_create 8) 0 self_embedding_enum_import) 60
    self_embedding_enum_entry.

(** The elements that the loop writes for the fields from number [i] on. *)
Definition enum_fields_from (i : nat) (fields : list AstNodeStructField)
    (types : list TypeTableEntry) : list TypeEnumField :=
  imap (fun k ft => {| enum_field_name := struct_field_name ft.1;
                       enum_field_type_entry := ft.2;
                       enum_field_value := wrap32 (Z.of_nat (i + k)) |})
    (zip fields types).

(** ** The parent slots of the type table

    Notions for what the interner keeps between calls: which entry is in
    which parent slot of which child. *)
Module InternerLinks.
Import Interner.

(** The parameters of a call other than the child type: the parent slot of
    the child that the call reads and fills. *)
Inductive ParentSlot :=
| slot_pointer (is_const : bool)
| slot_array (len : Z)
| slot_slice (is_const : bool)
| slot_maybe
| slot_error.

#[global] Instance ParentSlot_eq_dec : EqDecision ParentSlot.
Proof. solve_decision. Defined.

Definition parent_of (e : TypeTableEntry) (p : ParentSlot) : option handle :=
  match p with
  | slot_pointer k => slot (pointer_parent e) k
  | slot_array n => arrays_by_size e !! n
  | slot_slice k => slot (unknown_size_array_parent e) k
  | slot_maybe => maybe_parent e
  | slot_error => error_parent e
  end.

Definition call_child (call : InternCall) : handle :=
  match call with
  | intern_pointer c _ | intern_array c _ | intern_slice c _
  | intern_optional c | intern_error_union c => c
  end.

Definition call_slot (call : InternCall) : ParentSlot :=
  match call with
  | intern_pointer _ k => slot_pointer k
  | intern_array _ n => slot_array n
  | intern_slice _ k => slot_slice k
  | intern_optional _ => slot_maybe
  | intern_error_union _ => slot_error
  end.

(** What slot [p] of the entry at [c] holds. *)
Definition parent_at (g : CodeGen) (c : handle) (p : ParentSlot) : option handle :=
  match types g !! c with
  | Some e => parent_of e p
  | None => None
  end.

(** Every entry in a parent slot is in the table, and it is in one slot of
    one child only. *)
Definition parents_distinct (g : CodeGen) : Prop :=
  forall c p h, parent_at g c p = Some h ->
    is_Some (types g !! h) /\
    forall c' p', parent_at g c' p' = Some h -> c' = c /\ p' = p.

(** No slot holds [h]. *)
Definition orphan (g : CodeGen) (h : handle) : Prop :=
  forall c p, parent_at g c p <> Some h.

(** From [g] to [g']: the entries stay, the slots that are set stay as they
    are, and a slot that is set in [g'] only holds an entry that is new and
    in no other slot. *)
Definition extends (g g' : CodeGen) : Prop :=
  (forall h, is_Some (types g !! h) -> is_Some (types g' !! h)) /\
  (forall c p h, parent_at g c p = Some h -> parent_at g' c p = Some h) /\
  (forall c p h, parent_at g' c p = Some h ->
     parent_at g c p = Some h \/
     (types g !! h = None /\ is_Some (types g' !! h) /\
      forall c' p', parent_at g' c' p' = Some h -> c' = c /\ p' = p)).

End InternerLinks.

(** ** The conversion relations, in the words of the specification

    What the specification says of the two checks, written as relations of
    their own, to compare the code with.  The specification also names a
    rule for function types; the code has none. *)

(** Structural match up to constness: equality, or two pointers, or two
    slices, with matching pointees and [actual_const <= expected_const], or
    two optionals, or two error unions, with matching payloads. *)
Inductive spec_const_cast_match : TypeTableEntry -> TypeTableEntry -> Prop :=
| spec_match_equal t : spec_const_cast_match t t
| spec_match_pointer expected actual expected_const actual_const :
    (actual_const = true -> expected_const = true) ->
    spec_const_cast_match expected actual ->
    spec_const_cast_match (TypePointer expected expected_const)
      (TypePointer actual actual_const)
| spec_match_slice expected actual expected_const actual_const :
    (actual_const = true -> expected_const = true) ->
    spec_const_cast_match expected actual ->
    spec_const_cast_match (TypeUnknownSizeArray expected expected_const)
      (TypeUnknownSizeArray actual actual_const)
| spec_match_optional expected actual :
    spec_const_cast_match expected actual ->
    spec_const_cast_match (TypeMaybe expected) (TypeMaybe actual)
| spec_match_error_union expected actual :
    spec_const_cast_match expected actual ->
    spec_const_cast_match (TypeErrorUnion expected) (TypeErrorUnion actual).

(** The number [bn] lies in the range of the integers of [bits] bits. *)
Definition spec_in_int_range (bn : BigNum) (is_signed : bool) (bits : Z) : Prop :=
  let v := if bignum_is_negative bn then - bignum_x_uint bn else bignum_x_uint bn in
  if is_signed then - 2 ^ (bits - 1) <= v < 2 ^ (bits - 1) else 0 <= v < 2 ^ bits.

(** The value [v] of a number literal fits the type: the value is known,
    and the type is a float type, or an integer type in whose range the
    integer [v] lies, or the type of the literals of the kind of [v]. *)
Definition spec_literal_fits (v : ConstExprValue) (type : TypeTableEntry) : Prop :=
  const_ok v = true /\
  (type_id type = TypeTableEntryIdFloat \/
   exists bn, const_data v = x_bignum bn /\
     match type with
     | TypeInt _ is_signed bits =>
         bignum_kind bn = BigNumKindInt /\ spec_in_int_range bn is_signed bits
     | entry_num_lit_int => bignum_kind bn = BigNumKindInt
     | entry_num_lit_float => bignum_kind bn = BigNumKindFloat
     | _ => False
     end).

(** Implicit convertibility of a value of type [actual], the number literal
    [v] when it is one, to the type [expected]. *)
Inductive spec_implicit_cast (v : ConstExprValue)
    : TypeTableEntry -> TypeTableEntry -> Prop :=
| spec_cast_match expected actual :
    spec_const_cast_match expected actual -> spec_implicit_cast v expected actual
| spec_cast_wrap_optional payload actual :
    spec_implicit_cast v payload actual ->
    spec_implicit_cast v (TypeMaybe payload) actual
| spec_cast_wrap_error_union payload actual :
    spec_implicit_cast v payload actual ->
    spec_implicit_cast v (TypeErrorUnion payload) actual
| spec_cast_pure_error payload :
    spec_implicit_cast v (TypeErrorUnion payload) entry_pure_error
| spec_cast_widen expected_name actual_name is_signed expected_bits actual_bits :
    expected_bits >= actual_bits ->
    spec_implicit_cast v (TypeInt expected_name is_signed expected_bits)
      (TypeInt actual_name is_signed actual_bits)
| spec_cast_array_to_slice expected_child expected_const actual_child len :
    spec_const_cast_match expected_child actual_child ->
    spec_implicit_cast v (TypeUnknownSizeArray expected_child expected_const)
      (TypeArray actual_child len)
| spec_cast_literal expected actual :
    actual = entry_num_lit_int \/ actual = entry_num_lit_float ->
    spec_literal_fits v expected ->
    spec_implicit_cast v expected actual.

(** * Properties *)

(** ** Equality of type entries *)

Lemma type_eqb_eq (a b : TypeTableEntry) : type_eqb a b = true <-> a = b.
Proof.
  revert b.
  induction a as [| | | | | | | | |n s z|n z|c k IH|c l IH|c k IH|d n|d n|c IH|c IH
                 |i n ps r v k IHps IHr] using TypeTableEntry_nested_ind;
    intros y; destruct y; simpl;
    try (split; [discriminate | congruence]); try (split; congruence);
    rewrite ?andb_true_iff, ?bool_decide_eq_true, ?IH.
  1-9: split; [intros; destruct_and?; congruence | intros H; injection H; intros; subst; auto].
  assert (Hl : forall l',
    (fix go (l l' : list TypeTableEntry) : bool :=
       match l, l' with
       | [], [] => true
       | x :: l, y :: l' => type_eqb x y && go l l'
       | _, _ => false
       end) ps l' = true <-> ps = l').
  { induction IHps as [|x l Hx Hl IH]; intros [|x' l']; simpl;
      try (split; [discriminate | congruence]); try (split; congruence).
    rewrite andb_true_iff, Hx, IH.
    split; [intros [-> ->]; auto | intros H; injection H; auto]. }
  rewrite Hl, IHr.
  split; [intros; destruct_and?; congruence | intros H; injection H; intros; subst; auto 10].
Qed.

#[global] Instance TypeTableEntry_eq_dec : EqDecision TypeTableEntry.
Proof.
  intros a b. destruct (type_eqb a b) eqn:E.
  - left. by apply type_eqb_eq.
  - right. intros H. apply type_eqb_eq in H. congruence.
Defined.


(** ** Inversion of the result monad *)

Lemma bind_Ok {A B : Type} (m : result A) (f : A -> result B) (b : B) :
  bind m f = Ok b -> exists a, m = Ok a /\ f a = Ok b.
Proof. destruct m; simpl; [eauto | done..]. Qed.

Lemma get_import_Ok g k i : get_import g k = Ok i -> imports g !! k = Some i.
Proof. unfold get_import. destruct (imports g !! k); [congruence | done]. Qed.

Lemma assert_Ok b u : assert b = Ok u -> b = true.
Proof. by destruct b. Qed.

Ltac inv_bind H :=
  repeat match type of H with
  | bind _ _ = Ok _ =>
      let a := fresh "a" in
      let Ha := fresh "Ha" in
      apply bind_Ok in H as (a & Ha & H)
  end.

(** ** Error values *)

(** What a step of the error-value allocator may do to the imports: the
    roots and the importers stay, an error table keeps every entry it has and
    gains at most [err]. *)
Definition tables_extend (err : ErrorTableEntry) (g g' : CodeGen) : Prop :=
  (forall k, root <$> (imports g' !! k) = root <$> (imports g !! k)) /\
  (forall k, importers <$> (imports g' !! k) = importers <$> (imports g !! k)) /\
  (forall k i n e, imports g !! k = Some i ->
     error_table (block_context i) !! n = Some e ->
     exists i', imports g' !! k = Some i' /\
       error_table (block_context i') !! n = Some e) /\
  (forall k i' n e, imports g' !! k = Some i' ->
     error_table (block_context i') !! n = Some e ->
     (exists i, imports g !! k = Some i /\
        error_table (block_context i) !! n = Some e) \/ e = err).

Lemma tables_extend_refl err g g' :
  imports g' = imports g -> tables_extend err g g'.
Proof.
  intros E. unfold tables_extend. rewrite E. repeat split; eauto.
Qed.

Lemma tables_extend_trans err g1 g2 g3 :
  tables_extend err g1 g2 -> tables_extend err g2 g3 -> tables_extend err g1 g3.
Proof.
  intros (R1 & I1 & K1 & N1) (R2 & I2 & K2 & N2). repeat split.
  - intros k. by rewrite R2, R1.
  - intros k. by rewrite I2, I1.
  - intros k i n e Hi He. destruct (K1 k i n e Hi He) as (i' & Hi' & He'). eauto.
  - intros k i' n e Hi He. destruct (N2 k i' n e Hi He) as [(i & Hi2 & He2)|]; eauto.
Qed.

Lemma error_table_set_block_context i c :
  error_table (block_context (set_block_context i c)) = error_table c.
Proof. reflexivity. Qed.

Lemma error_table_set_error_table c t : error_table (set_error_table c t) = t.
Proof. by destruct c. Qed.

Lemma tables_extend_put err g k i :
  imports g !! k = Some i ->
  error_table (block_context i) !! error_name err = None ->
  tables_extend err g
    (put_import g k
       (set_block_context i
          (set_error_table (block_context i)
             (<[error_name err := err]> (error_table (block_context i)))))).
Proof.
  intros Hi Hnone. repeat split; simpl.
  - intros k'. destruct (decide (k = k')) as [->|Hne].
    + by rewrite lookup_insert_eq, Hi.
    + by rewrite lookup_insert_ne.
  - intros k'. destruct (decide (k = k')) as [->|Hne].
    + by rewrite lookup_insert_eq, Hi.
    + by rewrite lookup_insert_ne.
  - intros k' i0 n e Hi0 He. destruct (decide (k = k')) as [->|Hne].
    + rewrite lookup_insert_eq. eexists; split; [done|].
      rewrite error_table_set_block_context, error_table_set_error_table.
      assert (i0 = i) as -> by congruence.
      rewrite lookup_insert_ne; [done|]. intros <-. congruence.
    + rewrite lookup_insert_ne by done. eauto.
  - intros k' i' n e Hi' He. destruct (decide (k = k')) as [->|Hne].
    + rewrite lookup_insert_eq in Hi'. injection Hi' as <-.
      rewrite error_table_set_block_context, error_table_set_error_table in He.
      destruct (decide (error_name err = n)) as [<-|Hn].
      * rewrite lookup_insert_eq in He. right. congruence.
      * rewrite lookup_insert_ne in He by done. left. eauto.
    + rewrite lookup_insert_ne in Hi' by done. left. eauto.
Qed.

Lemma import_error_value_spec importers0 : forall g err g',
  import_error_value g err importers0 = Ok g' ->
  tables_extend err g g' /\
  next_error_index g' = next_error_index g /\
  error_value_count g' = error_value_count g /\
  err_tag_type g' = err_tag_type g.
Proof.
  induction importers0 as [|importer rest IH]; intros g err g' H; simpl in H.
  - injection H as <-. split; [by apply tables_extend_refl | done].
  - unfold get_import in H.
    destruct (imports g !! importer_import importer) as [i|] eqn:Hi; [|done].
    simpl in H.
    destruct (error_table (block_context i) !! error_name err) eqn:Hn;
      apply IH in H as (T & ? & ? & ?).
    + split; [|done].
      eapply tables_extend_trans; [|exact T]. by apply tables_extend_refl.
    + split; [|done].
      eapply tables_extend_trans; [|exact T]. by apply tables_extend_put.
Qed.

Lemma resolve_error_value_decl_spec g import node name visib_mod g' :
  resolve_error_value_decl g import node name visib_mod = Ok g' ->
  tables_extend
    {| error_name := name; error_value := next_error_index g;
       error_decl_node := node |} g g' /\
  next_error_index g' = wrap32 (next_error_index g + 1) /\
  error_value_count g' = error_value_count g /\
  err_tag_type g' = err_tag_type g.
Proof.
  unfold resolve_error_value_decl, get_import. simpl.
  destruct (imports g !! import) as [i|] eqn:Hi; [|done]. simpl.
  set (err := {| error_name := name; error_value := next_error_index g;
                 error_decl_node := node |}).
  intros H.
  assert (Hstep : exists g1,
    tables_extend err g g1 /\
    next_error_index g1 = wrap32 (next_error_index g + 1) /\
    error_value_count g1 = error_value_count g /\
    err_tag_type g1 = err_tag_type g /\
    (if bool_decide (visib_mod <> VisibModPrivate)
     then import_error_value g1 err (importers i) else Ok g1) = Ok g').
  { destruct (error_table (block_context i) !! name) eqn:Hn.
    - eexists; split; [|split; [|split; [|split; [|exact H]]]]; try done.
      by apply tables_extend_refl.
    - eexists; split; [|split; [|split; [|split; [|exact H]]]]; try done.
      eapply tables_extend_trans;
        [|apply (tables_extend_put err
                   (set_next_error_index g (wrap32 (next_error_index g + 1))) import i);
          [exact Hi | exact Hn]].
      by apply tables_extend_refl. }
  destruct Hstep as (g1 & T & Hn1 & Hc1 & Ht1 & Hrest).
  destruct (bool_decide (visib_mod <> VisibModPrivate)).
  - apply import_error_value_spec in Hrest as (T' & ? & ? & ?).
    split; [by eapply tables_extend_trans|]. repeat split; congruence.
  - injection Hrest as <-. done.
Qed.

(** The error value declarations of a root, and of a session. *)
Fixpoint count_error_value_decls (decls : list TopLevelDeclNode) : nat :=
  match decls with
  | [] => 0%nat
  | NodeTypeErrorValueDecl _ _ _ :: rest => S (count_error_value_decls rest)
  | NodeTypeImport _ _ _ :: rest => count_error_value_decls rest
  end.

Definition root_of (g : CodeGen) (k : Z) : list TopLevelDeclNode :=
  match imports g !! k with
  | Some i => root i
  | None => []
  end.

Definition session_error_value_decls (g : CodeGen) : nat :=
  sum_list_with (fun k => count_error_value_decls (root_of g k)) (import_keys g).

Definition same_roots (g g' : CodeGen) : Prop :=
  forall k, root <$> (imports g' !! k) = root <$> (imports g !! k).

Lemma same_roots_root_of g g' k : same_roots g g' -> root_of g' k = root_of g k.
Proof.
  intros H. specialize (H k). unfold root_of.
  destruct (imports g' !! k), (imports g !! k); simpl in H; congruence.
Qed.

Lemma same_roots_trans g1 g2 g3 :
  same_roots g1 g2 -> same_roots g2 g3 -> same_roots g1 g3.
Proof. intros H1 H2 k. by rewrite H2, H1. Qed.

Lemma same_roots_import_keys g g' :
  same_roots g g' -> import_keys g' ≡ₚ import_keys g.
Proof.
  intros H. unfold import_keys.
  apply NoDup_Permutation; try apply NoDup_fst_map_to_list.
  intros k. rewrite !list_elem_of_fmap. specialize (H k).
  split; intros ([k' i] & -> & Hin%elem_of_map_to_list); simpl in *.
  - rewrite Hin in H. destruct (imports g !! k') as [i0|] eqn:E; [|done].
    exists (k', i0). split; [done|]. by apply elem_of_map_to_list.
  - rewrite Hin in H. destruct (imports g' !! k') as [i0|] eqn:E; [|done].
    exists (k', i0). split; [done|]. by apply elem_of_map_to_list.
Qed.

Lemma same_roots_session g g' :
  same_roots g g' -> session_error_value_decls g' = session_error_value_decls g.
Proof.
  intros H. unfold session_error_value_decls.
  rewrite (same_roots_import_keys g g' H).
  induction (import_keys g) as [|k l IH]; [done|].
  simpl. by rewrite IH, (same_roots_root_of g g' k H).
Qed.

Lemma wrap32_range z : 0 <= wrap32 z < 2 ^ 32.
Proof. unfold wrap32. apply Z.mod_pos_bound. lia. Qed.

Lemma wrap32_small z : 0 <= z < 2 ^ 32 -> wrap32 z = z.
Proof. unfold wrap32. apply Z.mod_small. Qed.

Lemma wrap32_succ z n : wrap32 (wrap32 (z + 1) + n) = wrap32 (z + (1 + n)).
Proof.
  unfold wrap32. rewrite Zplus_mod_idemp_l. f_equal. lia.
Qed.

Lemma invalid_directives_imports ds : forall g,
  imports (invalid_directives g ds) = imports g /\
  next_error_index (invalid_directives g ds) = next_error_index g /\
  error_value_count (invalid_directives g ds) = error_value_count g.
Proof.
  induction ds as [|d ds IH]; intros g; simpl; [done|].
  destruct (IH (add_node_error g (directive_node d)
    ("invalid directive: '" ++ directive_name d ++ "'"))) as (-> & -> & ->). done.
Qed.

Lemma preview_top_level_decls_spec decls : forall g k g',
  0 <= error_value_count g < 2 ^ 32 ->
  preview_top_level_decls g k decls = Ok g' ->
  same_roots g g' /\
  next_error_index g' = next_error_index g /\
  0 <= error_value_count g' < 2 ^ 32 /\
  error_value_count g' =
    wrap32 (error_value_count g + Z.of_nat (count_error_value_decls decls)).
Proof.
  induction decls as [|d rest IH]; intros g k g' Hr H; simpl in H.
  - injection H as <-. repeat split; try done; try lia.
    simpl. rewrite Z.add_0_r. by rewrite wrap32_small.
  - destruct d as [idx ds target|idx name vis].
    + destruct (invalid_directives_imports ds g) as (Ei & En & Ec).
      unfold get_import in H. rewrite Ei in H.
      destruct (imports g !! target) as [ti|] eqn:Ht; [|done]. simpl in H.
      apply IH in H as (R & N & C1 & C2); [|simpl; by rewrite Ec].
      simpl in *. rewrite Ec in C2. rewrite En in N. split; [|done].
      intros k'. rewrite (R k'). simpl. rewrite Ei.
      destruct (decide (target = k')) as [->|Hne].
      * by rewrite lookup_insert_eq, Ht.
      * by rewrite lookup_insert_ne.
    + apply IH in H as (R & N & C1 & C2); [|simpl; apply wrap32_range].
      simpl in *. split; [done|]. split; [done|]. split; [done|].
      rewrite C2, wrap32_succ. f_equal. lia.
Qed.

Lemma for_each_preview_spec keys : forall g g',
  0 <= error_value_count g < 2 ^ 32 ->
  for_each_import
    (fun g k => let! i := get_import g k in preview_top_level_decls g k (root i))
    g keys = Ok g' ->
  same_roots g g' /\
  next_error_index g' = next_error_index g /\
  0 <= error_value_count g' < 2 ^ 32 /\
  error_value_count g' =
    wrap32 (error_value_count g +
      Z.of_nat (sum_list_with (fun k => count_error_value_decls (root_of g k)) keys)).
Proof.
  induction keys as [|k keys IH]; intros g g' Hr H; simpl in H.
  - injection H as <-. repeat split; try done; try lia.
    simpl. rewrite Z.add_0_r. by rewrite wrap32_small.
  - apply bind_Ok in H as (g1 & H1 & H). apply bind_Ok in H1 as (i & Hi & H1).
    apply get_import_Ok in Hi.
    apply preview_top_level_decls_spec in H1 as (R1 & N1 & C1 & C1'); [|done].
    apply IH in H as (R & N & C & C'); [|done].
    split; [by eapply same_roots_trans|]. split; [congruence|]. split; [done|].
    rewrite C', C1'. simpl.
    assert (root_of g k = root i) as -> by (unfold root_of; by rewrite Hi).
    assert (sum_list_with (fun k => count_error_value_decls (root_of g1 k)) keys =
            sum_list_with (fun k => count_error_value_decls (root_of g k)) keys) as ->.
    { clear -R1. induction keys as [|k' l IHl]; [done|].
      simpl. by rewrite IHl, (same_roots_root_of g g1 k' R1). }
    unfold wrap32. rewrite Zplus_mod_idemp_l. f_equal. lia.
Qed.

Lemma detect_top_level_decl_deps_list_spec decls : forall g k g',
  0 <= next_error_index g < 2 ^ 32 ->
  detect_top_level_decl_deps_list g k decls = Ok g' ->
  same_roots g g' /\
  error_value_count g' = error_value_count g /\
  err_tag_type g' = err_tag_type g /\
  0 <= next_error_index g' < 2 ^ 32 /\
  next_error_index g' =
    wrap32 (next_error_index g + Z.of_nat (count_error_value_decls decls)).
Proof.
  induction decls as [|d rest IH]; intros g k g' Hr H; simpl in H.
  - injection H as <-. repeat split; try done; try lia.
    simpl. rewrite Z.add_0_r. by rewrite wrap32_small.
  - destruct d as [idx ds target|idx name vis]; simpl in H.
    + by apply IH in H.
    + destruct (resolve_error_value_decl g k idx name vis) as [g1| |] eqn:H1; [|done..].
      simpl in H.
      apply resolve_error_value_decl_spec in H1 as ((R1 & _) & N1 & C1 & T1).
      apply IH in H as (R & C & T & N & N'); [|rewrite N1; apply wrap32_range].
      split; [by eapply same_roots_trans|]. split; [congruence|].
      split; [congruence|]. split; [done|].
      rewrite N', N1, wrap32_succ. f_equal. simpl. lia.
Qed.

Lemma for_each_detect_spec keys : forall g g',
  0 <= next_error_index g < 2 ^ 32 ->
  for_each_import detect_top_level_decl_deps_root g keys = Ok g' ->
  same_roots g g' /\
  error_value_count g' = error_value_count g /\
  err_tag_type g' = err_tag_type g /\
  0 <= next_error_index g' < 2 ^ 32 /\
  next_error_index g' =
    wrap32 (next_error_index g +
      Z.of_nat (sum_list_with (fun k => count_error_value_decls (root_of g k)) keys)).
Proof.
  induction keys as [|k keys IH]; intros g g' Hr H; simpl in H.
  - injection H as <-. repeat split; try done; try lia.
    simpl. rewrite Z.add_0_r. by rewrite wrap32_small.
  - apply bind_Ok in H as (g1 & H1 & H). unfold detect_top_level_decl_deps_root in H1.
    apply bind_Ok in H1 as (i & Hi & H1). apply get_import_Ok in Hi.
    apply detect_top_level_decl_deps_list_spec in H1 as (R1 & C1 & T1 & N1 & N1'); [|done].
    apply IH in H as (R & C & T & N & N'); [|done].
    split; [by eapply same_roots_trans|]. split; [congruence|].
    split; [congruence|]. split; [done|].
    rewrite N', N1'. simpl.
    assert (root_of g k = root i) as -> by (unfold root_of; by rewrite Hi).
    assert (sum_list_with (fun k => count_error_value_decls (root_of g1 k)) keys =
            sum_list_with (fun k => count_error_value_decls (root_of g k)) keys) as ->.
    { clear -R1. induction keys as [|k' l IHl]; [done|].
      simpl. by rewrite IHl, (same_roots_root_of g g1 k' R1). }
    unfold wrap32. rewrite Zplus_mod_idemp_l. f_equal. lia.
Qed.

Lemma get_smallest_unsigned_int_type_total x :
  get_smallest_unsigned_int_type x = Ok (entry_int false (bits_needed_for_unsigned x)).
Proof.
  unfold get_smallest_unsigned_int_type, bits_needed_for_unsigned.
  repeat case_decide; reflexivity.
Qed.

(** What [semantic_analyze] leaves in the session that it started from the
    state of [codegen_create] (both counters at 1). *)
Lemma semantic_analyze_spec g g' :
  error_value_count g = 1 -> next_error_index g = 1 ->
  semantic_analyze g = Ok g' ->
  error_value_count g' = wrap32 (1 + Z.of_nat (session_error_value_decls g)) /\
  next_error_index g' = error_value_count g' /\
  err_tag_type g' =
    Some (entry_int false
      (bits_needed_for_unsigned (wrap32 (1 + Z.of_nat (session_error_value_decls g))))).
Proof.
  intros Hc Hn. unfold semantic_analyze.
  destruct (for_each_import _ g (import_keys g)) as [g1| |] eqn:H1; [|done..].
  simpl. apply for_each_preview_spec in H1 as (R1 & N1 & C1 & C1'); [|rewrite Hc; lia].
  rewrite get_smallest_unsigned_int_type_total. simpl.
  set (g2 := set_err_tag_type g1 _).
  destruct (for_each_import detect_top_level_decl_deps_root g2 (import_keys g2))
    as [g3| |] eqn:H3; [|done..].
  simpl. apply for_each_detect_spec in H3 as (R3 & C3 & T3 & N3 & N3');
    [|simpl; rewrite N1, Hn; lia].
  case_bool_decide as Hassert; [|done]. simpl. intros [= <-].
  assert (same_roots g g2) as R2 by exact R1.
  fold (session_error_value_decls g2) in N3'.
  rewrite (same_roots_session g g2 R2) in N3'.
  fold (session_error_value_decls g) in C1'.
  rewrite C3. simpl. rewrite C1', Hc. split; [done|]. split.
  - rewrite N3'. simpl. by rewrite N1, Hn.
  - rewrite T3. simpl. by rewrite C1', Hc.
Qed.

(** A session with one import (key 0) whose root declares [n] error values
    [E0], [E1], ... *)
Definition error_decls (n : nat) : list TopLevelDeclNode :=
  (fun i => NodeTypeErrorValueDecl (Z.of_nat i) ("E" ++ pretty i) VisibModPrivate)
    <$> seq 0 n.

Definition import_of_root (decls : list TopLevelDeclNode) : ImportTableEntry :=
  {| root := decls; block_context := new_block_context None None;
     importers := []; fn_table := ∅ |}.

Definition session_with_errors (n : nat) : CodeGen :=
  put_import (codegen_create 8) 0 (import_of_root (error_decls n)).

(** C9, as stated, fails: with 255 declared error values (a count in
    1..256) the error tag is [u16], not [u8]. *)
Lemma err_tag_type_255_declarations :
  exists g',
    semantic_analyze (session_with_errors 255) = Ok g' /\
    session_error_value_decls (session_with_errors 255) = 255%nat /\
    err_tag_type g' = Some entry_u16 /\
    err_tag_type g' <> Some entry_u8.
Proof.
  eexists. split; [vm_compute; reflexivity|].
  split; [vm_compute; reflexivity|]. split; [reflexivity | discriminate].
Qed.

(** C9, amended: in a session started from [codegen_create] whose roots
    declare [N] error values ([N + 1] within [uint32_t]), the error tag is
    the narrowest of u8/u16/u32 that holds the count [N + 1] (the count
    starts at 1, for the absence of an error): u8 exactly when N <= 254, u16
    exactly when 255 <= N <= 65534, and u32 exactly when 65535 <= N. *)
Theorem err_tag_type_selection (g g' : CodeGen) :
  error_value_count g = 1 -> next_error_index g = 1 ->
  1 + Z.of_nat (session_error_value_decls g) < 2 ^ 32 ->
  semantic_analyze g = Ok g' ->
  exists t,
    err_tag_type g' = Some t /\
    t = entry_int false (bits_needed_for_unsigned (error_value_count g')) /\
    error_value_count g' = 1 + Z.of_nat (session_error_value_decls g) /\
    (t = entry_u8 <-> Z.of_nat (session_error_value_decls g) <= 254) /\
    (t = entry_u16 <-> 255 <= Z.of_nat (session_error_value_decls g) <= 65534) /\
    (t = entry_u32 <-> 65535 <= Z.of_nat (session_error_value_decls g)).
Proof.
  intros Hc Hn Hsmall H.
  destruct (semantic_analyze_spec g g' Hc Hn H) as (C & N & T).
  rewrite wrap32_small in C, T by lia.
  eexists. split; [exact T|]. rewrite C. split; [done|]. split; [done|].
  set (n := Z.of_nat (session_error_value_decls g)) in *.
  assert (0 <= n) by lia.
  unfold bits_needed_for_unsigned, UINT8_MAX, UINT16_MAX, UINT32_MAX.
  repeat case_decide; (split; [|split]); split; intros E;
    try discriminate E; try lia; try reflexivity.
Qed.

Definition analyzed (g : CodeGen) : CodeGen :=
  match semantic_analyze g with
  | Ok g' => g'
  | _ => g
  end.

Lemma err_tag_type_selection_witness :
  exists t,
    err_tag_type (analyzed (session_with_errors 3)) = Some t /\
    (t = entry_u8 <-> Z.of_nat (session_error_value_decls (session_with_errors 3)) <= 254).
Proof.
  destruct (err_tag_type_selection (session_with_errors 3)
    (analyzed (session_with_errors 3))) as (t & Ht & _ & _ & H8 & _).
  - reflexivity.
  - reflexivity.
  - vm_compute. reflexivity.
  - vm_compute. reflexivity.
  - exists t. split; [exact Ht | exact H8].
Defined.

(** Every entry of every error table was given an index below the next
    one. *)
Definition error_tables_below (g : CodeGen) : Prop :=
  forall k i n e, imports g !! k = Some i ->
    error_table (block_context i) !! n = Some e ->
    error_value e < next_error_index g.

(** C10, as stated, fails: after the detection pass over one declaration
    the counter is 2, not 1. *)
Lemma next_error_index_after_one_declaration :
  exists g',
    semantic_analyze (session_with_errors 1) = Ok g' /\
    session_error_value_decls (session_with_errors 1) = 1%nat /\
    next_error_index g' = 2.
Proof.
  eexists. split; [vm_compute; reflexivity|]. split; reflexivity.
Qed.

(** C10, amended: every processed [error Name;] declaration, a
    redefinition included, moves [next_error_index] up by exactly one (within
    [uint32_t]); the error tables keep every entry they hold, a new entry
    carries the index current at its declaration, which is above the index of
    every earlier entry; and after the detection pass of a session started
    from [codegen_create] the counter equals [error_value_count], that is one
    more than the number of error value declarations. *)
Theorem error_value_indices :
  (forall g import node name visib_mod g',
     next_error_index g + 1 < 2 ^ 32 ->
     0 <= next_error_index g ->
     error_tables_below g ->
     resolve_error_value_decl g import node name visib_mod = Ok g' ->
     next_error_index g' = next_error_index g + 1 /\
     (forall k i n e, imports g !! k = Some i ->
        error_table (block_context i) !! n = Some e ->
        exists i', imports g' !! k = Some i' /\
          error_table (block_context i') !! n = Some e) /\
     (forall k i' n e, imports g' !! k = Some i' ->
        error_table (block_context i') !! n = Some e ->
        (exists i, imports g !! k = Some i /\
           error_table (block_context i) !! n = Some e /\
           error_value e < next_error_index g) \/
        error_value e = next_error_index g) /\
     error_tables_below g') /\
  (forall g g',
     error_value_count g = 1 -> next_error_index g = 1 ->
     semantic_analyze g = Ok g' ->
     next_error_index g' = error_value_count g' /\
     next_error_index g' = wrap32 (1 + Z.of_nat (session_error_value_decls g))).
Proof.
  split.
  - intros g import node name visib_mod g' Hsmall Hpos Hbelow H.
    apply resolve_error_value_decl_spec in H as ((_ & _ & K & N) & Hn & _ & _).
    rewrite wrap32_small in Hn by lia.
    split; [done|]. split; [exact K|]. split.
    + intros k i' n e Hi He. destruct (N k i' n e Hi He) as [(i & Hi0 & He0)| ->].
      * left. exists i. eauto using Hbelow.
      * by right.
    + intros k i' n e Hi He. rewrite Hn.
      destruct (N k i' n e Hi He) as [(i & Hi0 & He0)| ->].
      * specialize (Hbelow k i n e Hi0 He0). lia.
      * simpl. lia.
  - intros g g' Hc Hn H.
    destruct (semantic_analyze_spec g g' Hc Hn H) as (C & N & _).
    split; [done|]. by rewrite N, C.
Qed.

Definition redeclared (g : CodeGen) : CodeGen :=
  match resolve_error_value_decl g 0 7 "E0" VisibModPub with
  | Ok g' => g'
  | _ => g
  end.

Lemma error_value_indices_witness :
  next_error_index (analyzed (session_with_errors 2)) = 3 /\
  next_error_index (redeclared (analyzed (session_with_errors 2))) = 4.
Proof.
  split.
  - destruct (proj2 error_value_indices (session_with_errors 2)
      (analyzed (session_with_errors 2))) as [_ H]; [reflexivity..|].
    rewrite H. reflexivity.
  - assert (H : resolve_error_value_decl (analyzed (session_with_errors 2)) 0 7 "E0"
        VisibModPub = Ok (redeclared (analyzed (session_with_errors 2))))
      by (vm_compute; reflexivity).
    destruct (proj1 error_value_indices (analyzed (session_with_errors 2))
      0 7 "E0" VisibModPub (redeclared (analyzed (session_with_errors 2)))) as [Hn _].
    + vm_compute. reflexivity.
    + vm_compute. discriminate.
    + intros k i n e Hi He.
      change (imports (analyzed (session_with_errors 2))) with
        (<[0 := set_block_context (import_of_root (error_decls 2))
             (set_error_table (new_block_context None None)
                (<["E1" := {| error_name := "E1"; error_value := 2;
                              error_decl_node := 1 |}]>
                 (<["E0" := {| error_name := "E0"; error_value := 1;
                               error_decl_node := 0 |}]> ∅)))]>
           (∅ : gmap Z ImportTableEntry)) in Hi.
      apply lookup_insert_Some in Hi as [[_ <-]|[_ Hi]]; [|by rewrite lookup_empty in Hi].
      rewrite error_table_set_block_context, error_table_set_error_table in He.
      apply lookup_insert_Some in He as [[_ <-]|[_ He]]; [vm_compute; reflexivity|].
      apply lookup_insert_Some in He as [[_ <-]|[_ He]]; [vm_compute; reflexivity|].
      by rewrite lookup_empty in He.
    + exact H.
    + rewrite Hn. reflexivity.
Defined.

(** ** Conversion checks *)

Lemma type_eqb_refl t : type_eqb t t = true.
Proof. by apply type_eqb_eq. Qed.

Lemma type_eqb_neq a b : a <> b -> type_eqb a b = false.
Proof.
  intros H. destruct (type_eqb a b) eqn:E; [|done]. by apply type_eqb_eq in E.
Qed.


(** The wrappers above a function type: the depth at which a descent through
    pointers, slices, maybes and error unions meets a function type. *)
Fixpoint fn_depth (t : TypeTableEntry) : option nat :=
  match t with
  | TypeFn _ _ _ _ _ _ => Some 0%nat
  | TypePointer c _ | TypeUnknownSizeArray c _ | TypeMaybe c | TypeErrorUnion c =>
      S <$> fn_depth c
  | _ => None
  end.

Lemma types_match_const_cast_only_unfold e a :
  types_match_const_cast_only e a =
  if type_eqb e a then Ok true
  else
    match e, a with
    | TypePointer ec ek, TypePointer ac ak =>
        if negb ak || ek then types_match_const_cast_only ec ac else Ok false
    | TypeUnknownSizeArray ec ek, TypeUnknownSizeArray ac ak =>
        if negb ak || ek then types_match_const_cast_only ec ac else Ok false
    | TypeMaybe ec, TypeMaybe ac => types_match_const_cast_only ec ac
    | TypeErrorUnion ec, TypeErrorUnion ac => types_match_const_cast_only ec ac
    | TypeFn _ _ _ _ _ _, TypeFn _ _ _ _ _ _ =>
        Panic "TODO types_match_const_cast_only for fns"
    | _, _ => Ok false
    end.
Proof. destruct e; reflexivity. Qed.

Lemma types_match_const_cast_only_refl t : types_match_const_cast_only t t = Ok true.
Proof. by rewrite types_match_const_cast_only_unfold, type_eqb_refl. Qed.

(** The structural match aborts only when both sides reach a function type
    at the same depth. *)
Lemma types_match_const_cast_only_abort e : forall a,
  (forall b, types_match_const_cast_only e a <> Ok b) ->
  fn_depth e = fn_depth a /\ is_Some (fn_depth e).
Proof.
  induction e using TypeTableEntry_nested_ind; intros a Hno;
    rewrite types_match_const_cast_only_unfold in Hno;
    destruct (type_eqb _ a); try (by destruct (Hno true));
    destruct a; try (by destruct (Hno false)); simpl.
  - destruct (negb is_const || k); [|by destruct (Hno false)].
    destruct (IHe a Hno) as [-> [d Hd]]. rewrite Hd. eauto.
  - destruct (negb is_const || k); [|by destruct (Hno false)].
    destruct (IHe a Hno) as [-> [d Hd]]. rewrite Hd. eauto.
  - destruct (IHe a Hno) as [-> [d Hd]]. rewrite Hd. eauto.
  - destruct (IHe a Hno) as [-> [d Hd]]. rewrite Hd. eauto.
  - eauto.
Qed.

Lemma types_match_const_cast_only_depth e : forall a,
  types_match_const_cast_only e a = Ok true -> fn_depth e = fn_depth a.
Proof.
  induction e using TypeTableEntry_nested_ind; intros a Hm;
    rewrite types_match_const_cast_only_unfold in Hm;
    destruct (type_eqb _ a) eqn:E;
    try (apply type_eqb_eq in E; by subst a);
    destruct a; try discriminate Hm; simpl.
  - destruct (negb is_const || k); [|done]. by rewrite (IHe a Hm).
  - destruct (negb is_const || k); [|done]. by rewrite (IHe a Hm).
  - by rewrite (IHe a Hm).
  - by rewrite (IHe a Hm).
Qed.

Lemma types_match_with_implicit_cast_unfold g e a l r :
  types_match_with_implicit_cast g e a l r =
  let! m := types_match_const_cast_only e a in
  if m then Ok (true, g, r)
  else
    let! (m_maybe, g, r) :=
      match e with
      | TypeMaybe child => types_match_with_implicit_cast g child a l r
      | _ => Ok (false, g, r)
      end in
    if m_maybe then Ok (true, g, r)
    else
      let! (m_error, g, r) :=
        match e with
        | TypeErrorUnion child => types_match_with_implicit_cast g child a l r
        | _ => Ok (false, g, r)
        end in
      if m_error then Ok (true, g, r)
      else if bool_decide (type_id e = TypeTableEntryIdErrorUnion)
              && bool_decide (type_id a = TypeTableEntryIdPureError)
      then Ok (true, g, r)
      else if bool_decide (type_id e = TypeTableEntryIdInt)
              && bool_decide (type_id a = TypeTableEntryIdInt)
              && bool_decide (integral_is_signed e = integral_is_signed a)
              && bool_decide (size_in_bits e >= size_in_bits a)
      then Ok (true, g, r)
      else
        let! m_array :=
          match e, a with
          | TypeUnknownSizeArray expected_child _, TypeArray actual_child _ =>
              types_match_const_cast_only expected_child actual_child
          | _, _ => Ok false
          end in
        if m_array then Ok (true, g, r)
        else if bool_decide (type_id a = TypeTableEntryIdNumLitFloat)
                || bool_decide (type_id a = TypeTableEntryIdNumLitInt)
        then
          let! (fits, g) := num_lit_fits_in_other_type g l e in
          if fits then Ok (true, g, r) else Ok (false, g, true)
        else Ok (false, g, r).
Proof. destruct e; reflexivity. Qed.

(** Whether a literal fits does not depend on the session. *)
Lemma num_lit_fits_in_other_type_session g g1 l t b g' :
  num_lit_fits_in_other_type g l t = Ok (b, g') ->
  exists g1', num_lit_fits_in_other_type g1 l t = Ok (b, g1').
Proof.
  unfold num_lit_fits_in_other_type.
  destruct (decide (type_id t = TypeTableEntryIdInvalid)); [intros [= <- <-]; eauto|].
  destruct (assert _); simpl; [|done..].
  destruct (decide (type_id t = TypeTableEntryIdFloat)); [intros [= <- <-]; eauto|].
  destruct (get_x_bignum _); simpl; [|done..].
  repeat case_match; intros [= <- <-]; eauto.
Qed.

(** A literal fits no maybe and no error union. *)
Lemma num_lit_fits_in_other_type_true g l t g' :
  num_lit_fits_in_other_type g l t = Ok (true, g') ->
  type_id t = TypeTableEntryIdFloat \/ type_id t = TypeTableEntryIdInt \/
  type_id t = TypeTableEntryIdNumLitFloat \/ type_id t = TypeTableEntryIdNumLitInt.
Proof.
  unfold num_lit_fits_in_other_type.
  destruct (decide (type_id t = TypeTableEntryIdInvalid)); [intros [=]|].
  destruct (assert _); simpl; [|done..].
  destruct (decide (type_id t = TypeTableEntryIdFloat)); [eauto|].
  destruct (get_x_bignum _); simpl; [|done..].
  repeat case_match; intros [= <-]; eauto;
    repeat match goal with
    | H : _ && _ = true |- _ => apply andb_true_iff in H as [? ?]
    | H : _ || _ = true |- _ => apply orb_true_iff in H as [?|?]
    | H : bool_decide _ = true |- _ => apply bool_decide_eq_true in H
    end; eauto.
Qed.

Definition implicit_cast_matches (g : CodeGen) (expected_type actual_type : TypeTableEntry)
    (literal_node : AstNode) (reported_err : bool) : Prop :=
  exists g' r',
    types_match_with_implicit_cast g expected_type actual_type literal_node reported_err
    = Ok (true, g', r').

Ltac type_induction e :=
  induction e as [| | | | | | | | |?n ?s ?z|?n ?z|e ek IHe|e ?z IHe|e ek IHe|?n ?s
                 |?n ?s|e IHe|e IHe|?n ?s ?ps ?c ?v ?v IHps IHr]
    using TypeTableEntry_nested_ind.

(** With a pure error for the actual type the check always returns. *)
Lemma types_match_with_implicit_cast_pure_error e : forall g lit r,
  exists b g' r',
    types_match_with_implicit_cast g e entry_pure_error lit r = Ok (b, g', r').
Proof.
  type_induction e; intros g lit r;
    rewrite types_match_with_implicit_cast_unfold;
    rewrite types_match_const_cast_only_unfold;
    try (simpl; eauto; fail).
  - simpl. destruct (IHe g lit r) as (b & g' & r' & ->). destruct b; simpl; eauto.
  - simpl. destruct (IHe g lit r) as (b & g' & r' & ->). destruct b; simpl; eauto.
Qed.

(** A successful implicit match leaves the actual type no deeper above a
    function type than the expected one. *)
Lemma types_match_with_implicit_cast_depth e : forall g a lit r d,
  implicit_cast_matches g e a lit r ->
  fn_depth a = Some d ->
  exists k, fn_depth e = Some k /\ (d <= k)%nat.
Proof.
  type_induction e; intros g a lit r d (g' & r' & H) Hd;
    rewrite types_match_with_implicit_cast_unfold in H;
    destruct (types_match_const_cast_only _ a) as [[|]| |] eqn:Hm;
    try discriminate H;
    try (apply types_match_const_cast_only_depth in Hm; rewrite Hm, Hd; eauto; fail);
    simpl in H;
    try (destruct a; simpl in *; discriminate).
  - destruct (types_match_with_implicit_cast g e a lit r) as [[[[|] g1] r1]| |] eqn:H1;
      simpl in H; try discriminate.
    + destruct (IHe g a lit r d) as (k & Hk & ?); [by eexists _, _ | done |].
      simpl. rewrite Hk. simpl. eexists; split; [done | lia].
    + destruct a; simpl in *; discriminate.
  - destruct (types_match_with_implicit_cast g e a lit r) as [[[[|] g1] r1]| |] eqn:H1;
      simpl in H; try discriminate.
    + destruct (IHe g a lit r d) as (k & Hk & ?); [by eexists _, _ | done |].
      simpl. rewrite Hk. simpl. eexists; split; [done | lia].
    + destruct a; simpl in *; discriminate.
Qed.

(** [types_match_with_implicit_cast] returns true exactly when
    [types_match_const_cast_only] does, or the expected type is a maybe
    or an error union whose child implicitly accepts the actual type, or an
    error union is expected and a pure error given, or both are integers of
    the same signedness and the expected one is at least as wide, or a slice
    is expected and an array given whose elements
    [types_match_const_cast_only] accepts, or the actual type is that of a
    number literal that [num_lit_fits_in_other_type] accepts. *)
Theorem types_match_with_implicit_cast_true (g : CodeGen)
    (expected_type actual_type : TypeTableEntry) (literal_node : AstNode)
    (reported_err : bool) :
  implicit_cast_matches g expected_type actual_type literal_node reported_err <->
  ( types_match_const_cast_only expected_type actual_type = Ok true
    \/ (exists child,
          (expected_type = TypeMaybe child \/ expected_type = TypeErrorUnion child) /\
          implicit_cast_matches g child actual_type literal_node reported_err)
    \/ (type_id expected_type = TypeTableEntryIdErrorUnion /\
        type_id actual_type = TypeTableEntryIdPureError)
    \/ (type_id expected_type = TypeTableEntryIdInt /\
        type_id actual_type = TypeTableEntryIdInt /\
        integral_is_signed expected_type = integral_is_signed actual_type /\
        size_in_bits expected_type >= size_in_bits actual_type)
    \/ (exists expected_child expected_const actual_child len,
          expected_type = TypeUnknownSizeArray expected_child expected_const /\
          actual_type = TypeArray actual_child len /\
          types_match_const_cast_only expected_child actual_child = Ok true)
    \/ ((type_id actual_type = TypeTableEntryIdNumLitFloat \/
         type_id actual_type = TypeTableEntryIdNumLitInt) /\
        exists g', num_lit_fits_in_other_type g literal_node expected_type = Ok (true, g')) ).
Proof.
  rename expected_type into e, actual_type into a, literal_node into lit,
    reported_err into r.
  split.
  - intros (g' & r' & H). rewrite types_match_with_implicit_cast_unfold in H.
    destruct (types_match_const_cast_only e a) as [[|]| |] eqn:Hm;
      try discriminate H; [by left|]. right. simpl in H.
    destruct (match e with
              | TypeMaybe child => types_match_with_implicit_cast g child a lit r
              | _ => Ok (false, g, r)
              end) as [[[[|] g1] r1]| |] eqn:HM; simpl in H; try discriminate H.
    { left. destruct e; try discriminate HM. eexists. split; [by left|]. by eexists _, _. }
    destruct (match e with
              | TypeErrorUnion child => types_match_with_implicit_cast g1 child a lit r1
              | _ => Ok (false, g1, r1)
              end) as [[[[|] g2] r2]| |] eqn:HE; simpl in H; try discriminate H.
    { left. destruct e; try discriminate HE. injection HM as <- <-.
      eexists. split; [by right|]. by eexists _, _. }
    right.
    destruct (bool_decide (type_id e = TypeTableEntryIdErrorUnion)
              && bool_decide (type_id a = TypeTableEntryIdPureError)) eqn:H3.
    { left. apply andb_true_iff in H3 as [?%bool_decide_eq_true ?%bool_decide_eq_true].
      done. }
    right.
    destruct (bool_decide (type_id e = TypeTableEntryIdInt)
              && bool_decide (type_id a = TypeTableEntryIdInt)
              && bool_decide (integral_is_signed e = integral_is_signed a)
              && bool_decide (size_in_bits e >= size_in_bits a)) eqn:H4.
    { left. repeat (apply andb_true_iff in H4 as [H4 ?%bool_decide_eq_true]).
      apply bool_decide_eq_true in H4. done. }
    right.
    destruct (match e, a with
              | TypeUnknownSizeArray expected_child _, TypeArray actual_child _ =>
                  types_match_const_cast_only expected_child actual_child
              | _, _ => Ok false
              end) as [[|]| |] eqn:H5; simpl in H; try discriminate H.
    { left. destruct e; try discriminate H5. destruct a; try discriminate H5.
      by eexists _, _, _, _. }
    right.
    destruct (bool_decide (type_id a = TypeTableEntryIdNumLitFloat)
              || bool_decide (type_id a = TypeTableEntryIdNumLitInt)) eqn:H6;
      [|discriminate H].
    destruct (num_lit_fits_in_other_type g2 lit e) as [[[|] g3]| |] eqn:HF;
      simpl in H; try discriminate H.
    split.
    + apply orb_true_iff in H6 as [?%bool_decide_eq_true|?%bool_decide_eq_true]; eauto.
    + by apply (num_lit_fits_in_other_type_session g2 g) in HF.
  - intros [D1|[D2|[D3|[D4|[D5|D6]]]]].
    + unfold implicit_cast_matches. rewrite types_match_with_implicit_cast_unfold, D1.
      by eexists _, _.
    + destruct D2 as (c & Hc & Hmatch).
      assert (Hm : exists b, types_match_const_cast_only e a = Ok b).
      { destruct (types_match_const_cast_only e a) as [b| |] eqn:Hm; [by eexists|..].
        all: destruct (types_match_const_cast_only_abort e a) as [Hd [d Hde]];
          [intros b; congruence|].
        all: rewrite Hde in Hd; symmetry in Hd.
        all: destruct (types_match_with_implicit_cast_depth c g a lit r d Hmatch Hd)
          as (k & Hk & ?).
        all: exfalso; destruct Hc as [Hc|Hc]; rewrite Hc in Hde; simpl in Hde;
          rewrite Hk in Hde; simpl in Hde; injection Hde; lia. }
      destruct Hm as [[|] Hm];
        unfold implicit_cast_matches;
        rewrite types_match_with_implicit_cast_unfold, Hm;
        [by eexists _, _|]. simpl.
      destruct Hmatch as (g1 & r1 & Hmatch).
      destruct Hc as [->| ->]; simpl; rewrite Hmatch; simpl; by eexists _, _.
    + destruct D3 as [He Ha].
      destruct e as [| | | | | | | | | | | | | | | | |child|] eqn:Ee; try discriminate He.
      destruct a; try discriminate Ha.
      unfold implicit_cast_matches. rewrite types_match_with_implicit_cast_unfold. simpl.
      destruct (types_match_with_implicit_cast_pure_error child g lit r)
        as (b & g1 & r1 & ->).
      destruct b; simpl; by eexists _, _.
    + destruct D4 as (He & Ha & Hs & Hz).
      destruct e eqn:Ee; try discriminate He. destruct a eqn:Ea; try discriminate Ha.
      simpl in Hs, Hz.
      unfold implicit_cast_matches.
      rewrite types_match_with_implicit_cast_unfold, types_match_const_cast_only_unfold.
      destruct (type_eqb _ _); simpl; [by eexists _, _|].
      rewrite !bool_decide_true; [|done..]. simpl. by eexists _, _.
    + destruct D5 as (ec & ek & ac & al & He & Ha & Hm).
      unfold implicit_cast_matches.
      rewrite types_match_with_implicit_cast_unfold, types_match_const_cast_only_unfold.
      subst e a. simpl. rewrite Hm. simpl. by eexists _, _.
    + destruct D6 as (Ha & g1 & Hf).
      pose proof (num_lit_fits_in_other_type_true _ _ _ _ Hf) as He.
      unfold implicit_cast_matches.
      rewrite types_match_with_implicit_cast_unfold, types_match_const_cast_only_unfold.
      destruct (type_eqb e a) eqn:Eeq; simpl; [by eexists _, _|].
      destruct e eqn:Ee; simpl in He; try (by destruct He as [|[|[|]]]);
        destruct a eqn:Ea; simpl in Ha; try (by destruct Ha);
        try discriminate Eeq; simpl; rewrite Hf; simpl; by eexists _, _.
Qed.

(** Two function types that are not the same entry: [fn()] and
    [fn(i32)] of import 0. *)
Definition fn_type_void : TypeTableEntry :=
  TypeFn 0 "fn()" [] entry_void false false.
Definition fn_type_i32 : TypeTableEntry :=
  TypeFn 0 "fn(i32)" [entry_i32] entry_void false false.

(** C6, at the failing input: for two distinct function types the
    structural match ends in [zig_panic] and returns nothing, and so does a
    peer resolution over them. *)
Theorem types_match_const_cast_only_fn_aborts :
  types_match_const_cast_only fn_type_void fn_type_i32
    = Panic "TODO types_match_const_cast_only for fns" /\
  determine_peer_type_compatibility (codegen_create 8) 0 [None; None]
    [fn_type_void; fn_type_i32]
    = Panic "TODO types_match_const_cast_only for fns".
Proof. split; reflexivity. Qed.

(** C5, at the failing input: where [fn()] is expected and [fn(i32)] is
    given, [types_match_with_implicit_cast] ends in the [zig_panic] of the
    structural match and returns neither true nor false. *)
Theorem types_match_with_implicit_cast_fn_aborts :
  types_match_with_implicit_cast (codegen_create 8) fn_type_void fn_type_i32
    (symbol_node 10 "f") false
  = Panic "TODO types_match_const_cast_only for fns".
Proof. reflexivity. Qed.

(** The same for every pair of distinct function types. *)
Lemma types_match_const_cast_only_distinct_fns i n ps r v k i' n' ps' r' v' k' :
  TypeFn i n ps r v k <> TypeFn i' n' ps' r' v' k' ->
  types_match_const_cast_only (TypeFn i n ps r v k) (TypeFn i' n' ps' r' v' k')
    = Panic "TODO types_match_const_cast_only for fns".
Proof.
  intros H. rewrite types_match_const_cast_only_unfold.
  by rewrite (type_eqb_neq _ _ H).
Qed.

(** C3, as stated, fails: the peer type of an [i32] and an [i64] is [i64],
    and no error is reported. *)
Lemma peer_type_i32_i64 :
  determine_peer_type_compatibility (codegen_create 8) 0 [None; None]
    [entry_i32; entry_i64] = Ok (entry_i64, codegen_create 8) /\
  entry_i64 <> entry_invalid /\
  errors (codegen_create 8) = [].
Proof. split; [reflexivity|]. split; [discriminate | reflexivity]. Qed.

(** C3, amended: for two integer types of the same signedness, an [i32]
    and an [i64] among them, peer resolution reports no error and picks the
    wider of the two (the first when they are as wide). *)
Theorem peer_type_of_integers (g : CodeGen) (parent_source_node : Z)
    (node1 node2 : option AstNode) (type1 type2 : TypeTableEntry) :
  type_id type1 = TypeTableEntryIdInt ->
  type_id type2 = TypeTableEntryIdInt ->
  integral_is_signed type1 = integral_is_signed type2 ->
  determine_peer_type_compatibility g parent_source_node [node1; node2] [type1; type2]
  = Ok (if decide (size_in_bits type2 > size_in_bits type1) then type2 else type1, g).
Proof.
  intros H1 H2 Hs.
  destruct type1 as [| | | | | | | | |n1 s1 z1| | | | | | | | |]; try discriminate H1.
  destruct type2 as [| | | | | | | | |n2 s2 z2| | | | | | | | |]; try discriminate H2.
  simpl in Hs. subst s2.
  unfold determine_peer_type_compatibility.
  rewrite decide_False by done.
  cbn [zip zip_with determine_peer_type_loop].
  rewrite decide_False by done.
  rewrite !types_match_const_cast_only_unfold.
  destruct (type_eqb (TypeInt n1 s1 z1) (TypeInt n2 s1 z2)) eqn:E.
  - apply type_eqb_eq in E. injection E as -> ->. cbn.
    rewrite decide_False by lia. done.
  - cbn [bind].
    assert (type_eqb (TypeInt n2 s1 z2) (TypeInt n1 s1 z1) = false) as ->.
    { apply type_eqb_neq. intros E'. symmetry in E'. apply type_eqb_eq in E'. congruence. }
    cbn [bind type_id size_in_bits integral_is_signed].
    rewrite !decide_False by done.
    rewrite !bool_decide_true by done. cbn [andb].
    by destruct (decide (z2 > z1)).
Qed.

Lemma peer_type_of_integers_witness :
  determine_peer_type_compatibility (codegen_create 8) 0 [None; None]
    [entry_i32; entry_i64]
  = Ok (if decide (size_in_bits entry_i64 > size_in_bits entry_i32)
        then entry_i64 else entry_i32, codegen_create 8).
Proof.
  apply (peer_type_of_integers (codegen_create 8) 0 None None entry_i32 entry_i64);
    reflexivity.
Defined.

(** ** The interner *)

Module InternerFacts.
Import Interner.

(** An entry keeps its [id] and what its parent slots hold. *)
Definition entry_le (e e' : TypeTableEntry) : Prop :=
  id e' = id e /\
  (forall k p, slot (pointer_parent e) k = Some p ->
     slot (pointer_parent e') k = Some p) /\
  (forall k p, slot (unknown_size_array_parent e) k = Some p ->
     slot (unknown_size_array_parent e') k = Some p) /\
  (forall n p, arrays_by_size e !! n = Some p -> arrays_by_size e' !! n = Some p) /\
  (forall p, maybe_parent e = Some p -> maybe_parent e' = Some p) /\
  (forall p, error_parent e = Some p -> error_parent e' = Some p).

Definition preserved (g g' : CodeGen) : Prop :=
  forall h e, types g !! h = Some e ->
    exists e', types g' !! h = Some e' /\ entry_le e e'.

Lemma entry_le_refl e : entry_le e e.
Proof. by repeat split. Qed.

Lemma entry_le_trans e1 e2 e3 : entry_le e1 e2 -> entry_le e2 e3 -> entry_le e1 e3.
Proof.
  intros (I1 & P1 & U1 & A1 & M1 & E1) (I2 & P2 & U2 & A2 & M2 & E2).
  repeat split; [congruence | eauto..].
Qed.

Lemma preserved_refl g : preserved g g.
Proof. intros h e H. eauto using entry_le_refl. Qed.

Lemma preserved_trans g1 g2 g3 : preserved g1 g2 -> preserved g2 g3 -> preserved g1 g3.
Proof.
  intros H1 H2 h e H. destruct (H1 h e H) as (e' & H' & L1).
  destruct (H2 h e' H') as (e'' & H'' & L2). eauto using entry_le_trans.
Qed.

Lemma preserved_store_new g h e :
  types g !! h = None -> preserved g (store g h e).
Proof.
  intros Hnone h' e' H'. exists e'. split; [|apply entry_le_refl].
  simpl. rewrite lookup_insert_ne; [done|]. congruence.
Qed.

Lemma preserved_store g h e e' :
  types g !! h = Some e -> entry_le e e' -> preserved g (store g h e').
Proof.
  intros H L h0 e0 H0. simpl. destruct (decide (h = h0)) as [->|Hne].
  - rewrite lookup_insert_eq. exists e'. split; [done|]. congruence.
  - rewrite lookup_insert_ne by done. eauto using entry_le_refl.
Qed.

Lemma fresh_types_None g : types g !! fresh (dom (types g)) = None.
Proof. apply not_elem_of_dom, is_fresh. Qed.

Lemma preserved_new_type_table_entry g i h g' :
  new_type_table_entry g i = (h, g') ->
  preserved g g' /\ types g' !! h = Some (zero_entry i) /\ types g !! h = None.
Proof.
  unfold new_type_table_entry. intros [= <- <-]. split; [|split].
  - apply preserved_store_new, fresh_types_None.
  - simpl. by rewrite lookup_insert_eq.
  - apply fresh_types_None.
Qed.

Lemma deref_Ok g h e : deref g h = Ok e -> types g !! h = Some e.
Proof. unfold deref. destruct (types g !! h); [congruence | done]. Qed.

Lemma slot_set_slot p k h : slot (set_slot p k h) k = Some h.
Proof. by destruct k. Qed.

Lemma slot_set_slot_le p k h k' q :
  slot p k = None -> slot p k' = Some q -> slot (set_slot p k h) k' = Some q.
Proof. destruct p, k, k'; simpl; congruence. Qed.

(** What a call leaves in the table for a later call with the same
    parameters. *)
Definition cached (g : CodeGen) (call : InternCall) (h : handle) : Prop :=
  match call with
  | intern_pointer c k =>
      exists e, types g !! c = Some e /\ id e <> TypeTableEntryIdInvalid /\
        slot (pointer_parent e) k = Some h
  | intern_array c n =>
      exists e, types g !! c = Some e /\ arrays_by_size e !! n = Some h
  | intern_slice c k =>
      exists e, types g !! c = Some e /\ id e <> TypeTableEntryIdInvalid /\
        slot (unknown_size_array_parent e) k = Some h
  | intern_optional c => exists e, types g !! c = Some e /\ maybe_parent e = Some h
  | intern_error_union c => exists e, types g !! c = Some e /\ error_parent e = Some h
  end.

Lemma cached_preserved g g' call h :
  cached g call h -> preserved g g' -> cached g' call h.
Proof.
  intros Hc Hp. destruct call; simpl in *.
  - destruct Hc as (e & He & Hi & Hs).
    destruct (Hp _ _ He) as (e' & He' & I & P & U & A & M & E).
    exists e'. repeat split; [done | congruence | eauto].
  - destruct Hc as (e & He & Hs).
    destruct (Hp _ _ He) as (e' & He' & I & P & U & A & M & E). eauto.
  - destruct Hc as (e & He & Hi & Hs).
    destruct (Hp _ _ He) as (e' & He' & I & P & U & A & M & E).
    exists e'. repeat split; [done | congruence | eauto].
  - destruct Hc as (e & He & Hs).
    destruct (Hp _ _ He) as (e' & He' & I & P & U & A & M & E). eauto.
  - destruct Hc as (e & He & Hs).
    destruct (Hp _ _ He) as (e' & He' & I & P & U & A & M & E). eauto.
Qed.

Lemma assert_negb_Ok P `{Decision P} u :
  assert (negb (bool_decide P)) = Ok u -> ~ P.
Proof. intros H0%assert_Ok. by apply negb_true_iff, bool_decide_eq_false in H0. Qed.

(** A call whose result is in the table returns it and changes nothing. *)
Lemma cached_intern g call h : cached g call h -> intern g call = Ok (h, g).
Proof.
  destruct call; simpl.
  - intros (e & He & Hi & Hs). unfold get_pointer_to_type, deref. rewrite He. simpl.
    rewrite bool_decide_false by done. simpl. by rewrite Hs.
  - intros (e & He & Hs). unfold get_array_type, deref. rewrite He. simpl.
    by rewrite Hs.
  - intros (e & He & Hi & Hs). unfold get_unknown_size_array_type.
    destruct is_const.
    + unfold deref. rewrite He. simpl.
      rewrite bool_decide_false by done. simpl in *. by rewrite Hs.
    + unfold get_unknown_size_array_type_var, deref. rewrite He. simpl.
      rewrite bool_decide_false by done. simpl in *. by rewrite Hs.
  - intros (e & He & Hs). unfold get_maybe_type, deref. rewrite He. simpl.
    by rewrite Hs.
  - intros (e & He & Hs). unfold get_error_type, deref. rewrite He. simpl.
    by rewrite Hs.
Qed.

(** Allocating an entry, filling it and recording it in its child. *)
Lemma preserved_alloc_store g i e0 c e e' :
  types g !! c = Some e -> entry_le e e' ->
  preserved g
    (store (store (store g (fresh (dom (types g))) (zero_entry i))
              (fresh (dom (types g))) e0) c e') /\
  c <> fresh (dom (types g)).
Proof.
  intros He L. pose proof (fresh_types_None g) as Hf.
  assert (c <> fresh (dom (types g))) by congruence. split; [|done].
  intros h0 e1 H0. simpl. destruct (decide (c = h0)) as [->|Hne].
  - rewrite lookup_insert_eq. exists e'. split; [done|]. congruence.
  - rewrite lookup_insert_ne by done.
    rewrite !lookup_insert_ne by congruence. eauto using entry_le_refl.
Qed.

Lemma get_pointer_to_type_spec g c k h g' :
  get_pointer_to_type g c k = Ok (h, g') ->
  preserved g g' /\ cached g' (intern_pointer c k) h.
Proof.
  unfold get_pointer_to_type. intros H.
  apply bind_Ok in H as (e & He%deref_Ok & H).
  apply bind_Ok in H as (u & Hi%assert_negb_Ok & H).
  destruct (slot (pointer_parent e) k) as [p|] eqn:Hs.
  - injection H as <- <-. split; [apply preserved_refl|]. simpl. eauto.
  - unfold new_type_table_entry in H.
    apply bind_Ok in H as (u' & _ & H). injection H as <- <-.
    split.
    + eapply preserved_alloc_store; [exact He|].
      repeat split; simpl; eauto.
      intros k' q Hq. by apply slot_set_slot_le.
    + simpl. eexists. split; [by rewrite lookup_insert_eq|]. simpl.
      split; [done | apply slot_set_slot].
Qed.

Lemma get_maybe_type_spec g c h g' :
  get_maybe_type g c = Ok (h, g') ->
  preserved g g' /\ cached g' (intern_optional c) h.
Proof.
  unfold get_maybe_type. intros H.
  apply bind_Ok in H as (e & He%deref_Ok & H).
  destruct (maybe_parent e) as [p|] eqn:Hs.
  - injection H as <- <-. split; [apply preserved_refl|]. simpl. eauto.
  - unfold new_type_table_entry in H.
    apply bind_Ok in H as (u1 & _ & H). apply bind_Ok in H as (u2 & _ & H).
    injection H as <- <-. split.
    + eapply preserved_alloc_store; [exact He|].
      repeat split; simpl; eauto. congruence.
    + simpl. eexists. split; [by rewrite lookup_insert_eq|]. done.
Qed.

Lemma get_error_type_spec g c h g' :
  get_error_type g c = Ok (h, g') ->
  preserved g g' /\ cached g' (intern_error_union c) h.
Proof.
  unfold get_error_type. intros H.
  apply bind_Ok in H as (e & He%deref_Ok & H).
  destruct (error_parent e) as [p|] eqn:Hs.
  - injection H as <- <-. split; [apply preserved_refl|]. simpl. eauto.
  - unfold new_type_table_entry in H.
    apply bind_Ok in H as (u1 & _ & H). apply bind_Ok in H as (u2 & _ & H).
    apply bind_Ok in H as (tag & _ & H).
    injection H as <- <-. split.
    + eapply preserved_alloc_store; [exact He|].
      repeat split; simpl; eauto. congruence.
    + simpl. eexists. split; [by rewrite lookup_insert_eq|]. done.
Qed.

Lemma get_array_type_spec g c n h g' :
  get_array_type g c n = Ok (h, g') ->
  preserved g g' /\ cached g' (intern_array c n) h.
Proof.
  unfold get_array_type. intros H.
  apply bind_Ok in H as (e & He%deref_Ok & H).
  destruct (arrays_by_size e !! n) as [p|] eqn:Hs.
  - injection H as <- <-. split; [apply preserved_refl|]. simpl. eauto.
  - unfold new_type_table_entry in H. injection H as <- <-. split.
    + eapply preserved_alloc_store; [exact He|].
      repeat split; simpl; eauto.
      intros n' q Hq. rewrite lookup_insert_ne; [done|]. congruence.
    + simpl. eexists. split; [by rewrite lookup_insert_eq|]. simpl.
      by rewrite lookup_insert_eq.
Qed.

Lemma modify_preserved g h f g' :
  modify g h f = Ok g' -> (forall e, entry_le e (f e)) -> preserved g g'.
Proof.
  unfold modify. intros H L. apply bind_Ok in H as (e & He%deref_Ok & H).
  injection H as <-. eapply preserved_store; eauto.
Qed.

Lemma modify_lookup g h f g' :
  modify g h f = Ok g' -> exists e, types g !! h = Some e /\ types g' !! h = Some (f e).
Proof.
  unfold modify. intros H. apply bind_Ok in H as (e & He%deref_Ok & H).
  injection H as <-. exists e. split; [done|]. simpl. by rewrite lookup_insert_eq.
Qed.

Lemma entry_le_with_name_refs n t d e : entry_le e (with_name_refs n t d e).
Proof. by repeat split. Qed.

Lemma entry_le_with_layout s a d e : entry_le e (with_layout s a d e).
Proof. by repeat split. Qed.

Lemma unknown_size_array_type_common_init_preserved g c k entry g' :
  unknown_size_array_type_common_init g c k entry = Ok g' -> preserved g g'.
Proof.
  unfold unknown_size_array_type_common_init. intros H.
  apply bind_Ok in H as ([pt g1] & [P1 _]%get_pointer_to_type_spec & H).
  eapply preserved_trans; [exact P1|].
  eapply modify_preserved; [exact H|]. intros e. apply entry_le_with_layout.
Qed.

(** Recording the new slice in its child. *)
Lemma modify_slice_slot g0 g c k entry e g' :
  types g0 !! c = Some e -> id e <> TypeTableEntryIdInvalid ->
  slot (unknown_size_array_parent e) k = None ->
  preserved g0 g ->
  (forall e1, types g !! c = Some e1 -> slot (unknown_size_array_parent e1) k = None) ->
  modify g c
    (fun c0 => with_unknown_size_array_parent c0
                 (set_slot (unknown_size_array_parent c0) k entry)) = Ok g' ->
  preserved g0 g' /\ cached g' (intern_slice c k) entry.
Proof.
  intros He Hi Hs P Hnone H.
  destruct (modify_lookup _ _ _ _ H) as (e1 & He1 & He1').
  destruct (P _ _ He) as (e1' & He1'' & L).
  assert (e1' = e1) as -> by congruence.
  split.
  - eapply preserved_trans; [exact P|].
    unfold modify, deref in H. rewrite He1 in H. injection H as <-.
    eapply preserved_store; [exact He1|].
    repeat split; simpl; eauto.
    intros k' q Hq. apply slot_set_slot_le; [by apply Hnone | done].
  - simpl. eexists. split; [exact He1'|]. simpl.
    destruct L as (I & _). split; [congruence | apply slot_set_slot].
Qed.

(** The slot [k] of the slices of every entry is left as it is. *)
Definition slice_slot_kept (k : bool) (g g' : CodeGen) : Prop :=
  forall h e e', types g !! h = Some e -> types g' !! h = Some e' ->
    slot (unknown_size_array_parent e') k = slot (unknown_size_array_parent e) k.

Lemma slice_slot_kept_refl k g : slice_slot_kept k g g.
Proof. intros h e e' H H'. congruence. Qed.

Lemma slice_slot_kept_trans k g1 g2 g3 :
  preserved g1 g2 -> slice_slot_kept k g1 g2 -> slice_slot_kept k g2 g3 ->
  slice_slot_kept k g1 g3.
Proof.
  intros P K1 K2 h e e3 H1 H3. destruct (P _ _ H1) as (e2 & H2 & _).
  rewrite (K2 _ _ _ H2 H3). eauto.
Qed.

Lemma slice_slot_kept_store_new k g h e :
  types g !! h = None -> slice_slot_kept k g (store g h e).
Proof.
  intros Hnone h0 e0 e0' H0 H0'. simpl in H0'.
  rewrite lookup_insert_ne in H0' by congruence. congruence.
Qed.

Lemma slice_slot_kept_store k g h e e' :
  types g !! h = Some e ->
  slot (unknown_size_array_parent e') k = slot (unknown_size_array_parent e) k ->
  slice_slot_kept k g (store g h e').
Proof.
  intros H E h0 e0 e0' H0 H0'. simpl in H0'. destruct (decide (h = h0)) as [->|Hne].
  - rewrite lookup_insert_eq in H0'. congruence.
  - rewrite lookup_insert_ne in H0' by done. congruence.
Qed.

Lemma modify_slice_slot_kept k g h f g' :
  modify g h f = Ok g' ->
  (forall e, slot (unknown_size_array_parent (f e)) k
             = slot (unknown_size_array_parent e) k) ->
  slice_slot_kept k g g'.
Proof.
  unfold modify. intros H L. apply bind_Ok in H as (e & He%deref_Ok & H).
  injection H as <-. eapply slice_slot_kept_store; eauto.
Qed.

Lemma get_pointer_to_type_slice_slot_kept k0 g c k h g' :
  get_pointer_to_type g c k = Ok (h, g') -> slice_slot_kept k0 g g'.
Proof.
  unfold get_pointer_to_type. intros H.
  apply bind_Ok in H as (e & He%deref_Ok & H).
  apply bind_Ok in H as (u & Hi & H).
  destruct (slot (pointer_parent e) k) as [p|] eqn:Hs.
  - injection H as <- <-. apply slice_slot_kept_refl.
  - unfold new_type_table_entry in H.
    apply bind_Ok in H as (u' & _ & H). injection H as <- <-.
    pose proof (fresh_types_None g) as Hf.
    intros h0 e0 e0' H0 H0'. simpl in H0'.
    destruct (decide (c = h0)) as [->|Hne].
    + rewrite lookup_insert_eq in H0'. injection H0' as <-. simpl. congruence.
    + rewrite lookup_insert_ne in H0' by done.
      rewrite !lookup_insert_ne in H0' by congruence. congruence.
Qed.

Lemma unknown_size_array_type_common_init_slice_slot_kept k0 g c k entry g' :
  unknown_size_array_type_common_init g c k entry = Ok g' -> slice_slot_kept k0 g g'.
Proof.
  unfold unknown_size_array_type_common_init. intros H.
  apply bind_Ok in H as ([pt g1] & H1 & H).
  eapply slice_slot_kept_trans.
  - by apply get_pointer_to_type_spec in H1 as [P1 _].
  - by eapply get_pointer_to_type_slice_slot_kept.
  - by eapply modify_slice_slot_kept.
Qed.

(** Both relations at once, for the steps between the allocation of a
    slice entry and its recording. *)
Definition grows (k : bool) (g g' : CodeGen) : Prop :=
  preserved g g' /\ slice_slot_kept k g g'.

Lemma grows_trans k g1 g2 g3 : grows k g1 g2 -> grows k g2 g3 -> grows k g1 g3.
Proof.
  intros [P1 K1] [P2 K2]. split.
  - by eapply preserved_trans.
  - by eapply slice_slot_kept_trans.
Qed.

Lemma grows_new_type_table_entry k g i h g' :
  new_type_table_entry g i = (h, g') -> grows k g g'.
Proof.
  unfold new_type_table_entry. intros [= <- <-].
  pose proof (fresh_types_None g). split.
  - by apply preserved_store_new.
  - by apply slice_slot_kept_store_new.
Qed.

Lemma grows_modify k g h f g' :
  modify g h f = Ok g' ->
  (forall e, entry_le e (f e)) ->
  (forall e, slot (unknown_size_array_parent (f e)) k
             = slot (unknown_size_array_parent e) k) ->
  grows k g g'.
Proof.
  intros H L S. split.
  - by eapply modify_preserved.
  - by eapply modify_slice_slot_kept.
Qed.

Lemma grows_get_pointer_to_type k0 g c k h g' :
  get_pointer_to_type g c k = Ok (h, g') -> grows k0 g g'.
Proof.
  intros H. split.
  - by apply get_pointer_to_type_spec in H as [P _].
  - by eapply get_pointer_to_type_slice_slot_kept.
Qed.

Lemma grows_common_init k0 g c k entry g' :
  unknown_size_array_type_common_init g c k entry = Ok g' -> grows k0 g g'.
Proof.
  intros H. split.
  - by eapply unknown_size_array_type_common_init_preserved.
  - by eapply unknown_size_array_type_common_init_slice_slot_kept.
Qed.

Lemma grows_slot_None k g0 g c e :
  grows k g0 g -> types g0 !! c = Some e ->
  slot (unknown_size_array_parent e) k = None ->
  forall e1, types g !! c = Some e1 -> slot (unknown_size_array_parent e1) k = None.
Proof. intros [P K] He Hs e1 He1. by rewrite (K _ _ _ He He1). Qed.

Lemma get_unknown_size_array_type_var_spec g c h g' :
  get_unknown_size_array_type_var g c = Ok (h, g') ->
  preserved g g' /\ cached g' (intern_slice c false) h /\ slice_slot_kept true g g'.
Proof.
  unfold get_unknown_size_array_type_var. intros H.
  apply bind_Ok in H as (e & He%deref_Ok & H).
  apply bind_Ok in H as (u & Hi%assert_negb_Ok & H).
  destruct (slot (unknown_size_array_parent e) false) as [p|] eqn:Hs.
  - injection H as <- <-.
    split; [apply preserved_refl|]. split; [simpl; eauto | apply slice_slot_kept_refl].
  - destruct (new_type_table_entry g TypeTableEntryIdStruct) as [entry g1] eqn:Hn.
    apply bind_Ok in H as (g2 & H2 & H).
    apply bind_Ok in H as ([pt g3] & H3 & H).
    apply bind_Ok in H as (g4 & H4 & H).
    apply bind_Ok in H as (g5 & H5 & H).
    apply bind_Ok in H as (g6 & H6 & H). injection H as <- <-.
    assert (G : forall k, grows k g g5).
    { intros k.
      eapply grows_trans; [by eapply grows_new_type_table_entry|].
      eapply grows_trans;
        [eapply grows_modify; [exact H2 | intros; apply entry_le_with_name_refs | done]|].
      eapply grows_trans; [by eapply grows_get_pointer_to_type|].
      eapply grows_trans; [by eapply grows_common_init|].
      eapply grows_modify; [exact H5 | intros; apply entry_le_with_name_refs | done]. }
    destruct (modify_slice_slot g g5 c false entry e g6 He Hi Hs (proj1 (G false))
                (grows_slot_None _ _ _ _ _ (G false) He Hs) H6) as [P C].
    split; [done|]. split; [done|].
    eapply slice_slot_kept_trans; [apply (G true) | apply (G true) |].
    eapply modify_slice_slot_kept; [exact H6|].
    intros e0. simpl. by destruct (unknown_size_array_parent e0).
Qed.

Lemma get_unknown_size_array_type_spec g c k h g' :
  get_unknown_size_array_type g c k = Ok (h, g') ->
  preserved g g' /\ cached g' (intern_slice c k) h.
Proof.
  unfold get_unknown_size_array_type. destruct k.
  - intros H.
    apply bind_Ok in H as (e & He%deref_Ok & H).
    apply bind_Ok in H as (u & Hi%assert_negb_Ok & H).
    destruct (slot (unknown_size_array_parent e) true) as [p|] eqn:Hs.
    + injection H as <- <-. split; [apply preserved_refl | simpl; eauto].
    + apply bind_Ok in H as ([var_peer g1] & H1 & H).
      apply get_unknown_size_array_type_var_spec in H1 as (P1 & _ & K1).
      destruct (new_type_table_entry g1 TypeTableEntryIdStruct) as [entry g2] eqn:Hn.
      apply bind_Ok in H as (g3 & H3 & H).
      apply bind_Ok in H as (g4 & H4 & H).
      apply bind_Ok in H as (peer & _ & H).
      apply bind_Ok in H as (g5 & H5 & H).
      apply bind_Ok in H as (g6 & H6 & H). injection H as <- <-.
      assert (G : grows true g g5).
      { eapply grows_trans; [by split|].
        eapply grows_trans; [by eapply grows_new_type_table_entry|].
        eapply grows_trans;
          [eapply grows_modify; [exact H3 | intros; apply entry_le_with_name_refs | done]|].
        eapply grows_trans; [by eapply grows_common_init|].
        eapply grows_modify; [exact H5 | intros; apply entry_le_with_name_refs | done]. }
      exact (modify_slice_slot g g5 c true entry e g6 He Hi Hs (proj1 G)
               (grows_slot_None _ _ _ _ _ G He Hs) H6).
  - intros H. by apply get_unknown_size_array_type_var_spec in H as (? & ? & _).
Qed.

Lemma intern_spec g call h g' :
  intern g call = Ok (h, g') -> preserved g g' /\ cached g' call h.
Proof.
  destruct call; simpl.
  - apply get_pointer_to_type_spec.
  - apply get_array_type_spec.
  - apply get_unknown_size_array_type_spec.
  - apply get_maybe_type_spec.
  - apply get_error_type_spec.
Qed.

Lemma intern_all_preserved calls : forall g g',
  intern_all g calls = Ok g' -> preserved g g'.
Proof.
  induction calls as [|call rest IH]; intros g g' H; simpl in H.
  - injection H as <-. apply preserved_refl.
  - apply bind_Ok in H as ([h g1] & [P _]%intern_spec & H).
    eapply preserved_trans; eauto.
Qed.

(** A session for the examples: a table that holds [u8] alone. *)
Definition u8_entry : TypeTableEntry :=
  with_layout 8 8 (data_integral false)
    (with_name_refs "u8" true true (zero_entry TypeTableEntryIdInt)).

Definition u8_session : CodeGen :=
  {| types := {[ 0%nat := u8_entry ]}; pointer_size_bytes := 8;
     err_tag_type := Some 0%nat; entry_isize := 0%nat |}.

Definition interned (g : CodeGen) (call : InternCall) : handle * CodeGen :=
  match intern g call with
  | Ok r => r
  | _ => (0%nat, g)
  end.

Definition interned_all (g : CodeGen) (calls : list InternCall) : CodeGen :=
  match intern_all g calls with
  | Ok g' => g'
  | _ => g
  end.

Definition later_calls : list InternCall :=
  [intern_pointer 0%nat true; intern_optional 0%nat; intern_array 0%nat 3;
   intern_slice 1%nat false; intern_error_union 0%nat; intern_slice 0%nat false].

(** C1: a call of the interner that returned a handle returns the same
    handle, and leaves the table as it is, when it is made again with the
    same parameters after any further calls of the session. *)
Theorem interner_idempotent (g g1 g2 : CodeGen) (call : InternCall)
    (calls : list InternCall) (h : handle) :
  intern g call = Ok (h, g1) ->
  intern_all g1 calls = Ok g2 ->
  intern g2 call = Ok (h, g2).
Proof.
  intros [_ C]%intern_spec P%intern_all_preserved.
  apply cached_intern. by eapply cached_preserved.
Qed.

Lemma interner_idempotent_witness :
  let g1 := (interned u8_session (intern_slice 0%nat true)).2 in
  let g2 := interned_all g1 later_calls in
  intern g2 (intern_slice 0%nat true) = Ok (3%nat, g2).
Proof.
  apply (interner_idempotent u8_session
           (interned u8_session (intern_slice 0%nat true)).2
           (interned_all (interned u8_session (intern_slice 0%nat true)).2 later_calls)
           (intern_slice 0%nat true) later_calls 3%nat).
  - vm_compute. reflexivity.
  - vm_compute. reflexivity.
Defined.

End InternerFacts.

(** * Expression analysis: facts *)

Section slices.
Variable ae : CodeGen -> Z -> BlockContext -> option TypeTableEntry -> AstNode ->
  result (TypeTableEntry * AstNode * CodeGen).

Lemma analyze_slice_expr_pointer g import context i array_ref_expr start end_ is_const re
    child_type k array_ref_expr' g1 :
  ae g import context None array_ref_expr
    = Ok (TypePointer child_type k, array_ref_expr', g1) ->
  type_id child_type <> TypeTableEntryIdInvalid ->
  analyze_slice_expr ae g import context
    (mkAstNode i (slice_expr array_ref_expr start end_ is_const) re)
  = (let! (_, start, g) := ae g1 import context (Some (entry_isize g1)) start in
     let! (end_, g) :=
       match end_ with
       | Some end_node =>
           let! (_, end_node, g) :=
             ae g import context (Some (entry_isize g)) end_node in
           Ok (Some end_node, g)
       | None => Ok (None, g)
       end in
     Ok (TypeUnknownSizeArray child_type is_const,
         mkAstNode i (slice_expr array_ref_expr' start end_ is_const) re, g)).
Proof.
  intros H Hc. unfold analyze_slice_expr. simpl. rewrite H. simpl.
  unfold get_unknown_size_array_type. rewrite bool_decide_eq_false_2 by done. simpl.
  reflexivity.
Qed.
End slices.

(** C8: a slice expression on a pointer with no end expression is accepted.
    Whatever analyzes the children, when the base has the type of a pointer
    to [child_type], [analyze_slice_expr] gives the slice of [child_type] and
    leaves the session as the analysis of the base and of the start left it:
    it reports no error.  The code generator then passes the null end
    expression to [gen_expr]. *)
Theorem slice_of_pointer_without_end
    (ae : CodeGen -> Z -> BlockContext -> option TypeTableEntry -> AstNode ->
          result (TypeTableEntry * AstNode * CodeGen))
    (g g1 g2 : CodeGen) (import : Z) (context : BlockContext) (i : Z)
    (array_ref_expr array_ref_expr' start start' : AstNode) (is_const : bool) (re : Expr)
    (child_type start_type : TypeTableEntry) (k : bool) :
  ae g import context None array_ref_expr
    = Ok (TypePointer child_type k, array_ref_expr', g1) ->
  type_id child_type <> TypeTableEntryIdInvalid ->
  ae g1 import context (Some (entry_isize g1)) start = Ok (start_type, start', g2) ->
  analyze_slice_expr ae g import context
    (mkAstNode i (slice_expr array_ref_expr start None is_const) re)
  = Ok (TypeUnknownSizeArray child_type is_const,
        mkAstNode i (slice_expr array_ref_expr' start' None is_const) re, g2)
  /\ gen_slice_expr_end_val (TypePointer child_type k) None
     = Panic "gen_expr of a null node".
Proof.
  intros H Hc Hs. split; [|reflexivity].
  rewrite (analyze_slice_expr_pointer ae _ _ _ _ _ _ _ _ _ _ _ _ _ H Hc).
  rewrite Hs. reflexivity.
Qed.

Lemma slice_of_pointer_without_end_witness :
  let r := analyze_slice_expr (analyze_expression size_in_bits 4) example_session 0
             example_fn_context slice_of_pointer_example in
  result_type r = Some (TypeUnknownSizeArray entry_u8 false) /\ result_errors r = [].
Proof.
  unfold slice_of_pointer_example. cbv zeta.
  edestruct slice_of_pointer_without_end
    with (ae := analyze_expression size_in_bits 4) (g := example_session) (import := 0)
         (context := example_fn_context) (i := 10) (array_ref_expr := symbol_node 11 "p")
         (start := number_node 12 0) (is_const := false) (re := expr_zero)
         (child_type := entry_u8) (k := false) as [-> _].
  - vm_compute. reflexivity.
  - vm_compute. discriminate.
  - vm_compute. reflexivity.
  - split; reflexivity.
Defined.

(** * Further properties of the analyzer *)

Lemma session_kept_refl g : session_kept g g.
Proof. by repeat split. Qed.

Lemma session_kept_trans g1 g2 g3 :
  session_kept g1 g2 -> session_kept g2 g3 -> session_kept g1 g3.
Proof.
  intros (P1 & I1 & S1 & E1 & Z1 & N1 & C1 & T1) (P2 & I2 & S2 & E2 & Z2 & N2 & C2 & T2).
  split; [by etrans|]. split; [intros k; by rewrite I2|].
  repeat split; congruence.
Qed.

Lemma session_kept_add_node_error g n m : session_kept g (add_node_error g n m).
Proof. repeat split. cbn. by apply prefix_app_r. Qed.

Lemma session_kept_set_next_node_index g n : session_kept g (set_next_node_index g n).
Proof. by repeat split. Qed.

Lemma session_kept_put_import g k i i' :
  imports g !! k = Some i -> import_declarations i' = import_declarations i ->
  session_kept g (put_import g k i').
Proof.
  intros Hi Hd. repeat split; try done. intros k'. cbn.
  destruct (decide (k = k')) as [<-|Hne].
  - by rewrite lookup_insert_eq, Hi; cbn; rewrite Hd.
  - by rewrite lookup_insert_ne.
Qed.

(** Closing a goal [session_kept g g'] from the steps in the context, from
    the last one back. *)
Ltac kept_solve :=
  solve [ repeat first
    [ apply session_kept_refl
    | assumption
    | (eapply session_kept_trans; [|apply session_kept_add_node_error])
    | (eapply session_kept_trans; [|apply session_kept_set_next_node_index])
    | match goal with
      | H : session_kept ?a ?b |- session_kept _ ?b =>
          eapply session_kept_trans; [|exact H]
      end ] ].

(** One step of taking apart a hypothesis [_ = Ok _]. *)
Ltac ok_step :=
  match goal with
  | H : Ok _ = Ok _ |- _ => injection H as H; try subst
  | H : (_, _) = (_, _) |- _ => injection H as H; try subst
  | H : Panic _ = Ok _ |- _ => discriminate H
  | H : OutOfFuel = Ok _ |- _ => discriminate H
  | H : zig_unreachable = Ok _ |- _ => discriminate H
  | H : bind _ _ = Ok _ |- _ =>
      let a := fresh "a" in
      let Ha := fresh "Ha" in
      apply bind_Ok in H as (a & Ha & H)
  | H : (let '(_, _) := ?x in _) = Ok _ |- _ =>
      first [is_var x; destruct x | destruct x eqn:?]
  | H : (if ?b then _ else _) = (_, _) |- _ => destruct b eqn:?
  | H : match ?x with _ => _ end = (_, _) |- _ => destruct x eqn:?
  | H : (if ?b then _ else _) = Ok _ |- _ => destruct b eqn:?
  | H : match ?x with _ => _ end = Ok _ |- _ => destruct x eqn:?
  end.

Ltac ok_steps := repeat (ok_step; cbn beta iota in * ).

Lemma num_lit_fits_in_other_type_kept g l t b g' :
  num_lit_fits_in_other_type g l t = Ok (b, g') -> session_kept g g'.
Proof.
  unfold num_lit_fits_in_other_type. intros H. ok_steps; kept_solve.
Qed.

Lemma types_match_with_implicit_cast_kept e : forall g a l r b g' r',
  types_match_with_implicit_cast g e a l r = Ok (b, g', r') -> session_kept g g'.
Proof.
  type_induction e; intros g a l r b g' r' H;
    rewrite types_match_with_implicit_cast_unfold in H.
  all: ok_steps.
  all: repeat match goal with
       | H : num_lit_fits_in_other_type _ _ _ = Ok _ |- _ =>
           apply num_lit_fits_in_other_type_kept in H
       | H : types_match_with_implicit_cast _ _ _ _ _ = Ok _ |- _ => apply IHe in H
       end.
  all: kept_solve.
Qed.

Lemma determine_peer_type_loop_kept children : forall g p t n r g',
  determine_peer_type_loop g p t n children = Ok (r, g') -> session_kept g g'.
Proof.
  induction children as [|[cn ct] rest IH]; intros g p t n r g' H; cbn in H.
  - ok_steps. kept_solve.
  - ok_steps.
    all: repeat match goal with
         | H : num_lit_fits_in_other_type _ _ _ = Ok _ |- _ =>
             apply num_lit_fits_in_other_type_kept in H
         | H : determine_peer_type_loop _ _ _ _ _ = Ok _ |- _ => apply IH in H
         end.
    all: kept_solve.
Qed.

Lemma determine_peer_type_compatibility_kept g p nodes types r g' :
  determine_peer_type_compatibility g p nodes types = Ok (r, g') -> session_kept g g'.
Proof.
  unfold determine_peer_type_compatibility. intros H. ok_steps.
  all: try apply determine_peer_type_loop_kept in H.
  all: kept_solve.
Qed.

Lemma resolve_type_kept g node t g' :
  resolve_type g node = Ok (t, g') -> session_kept g g'.
Proof. unfold resolve_type. intros H. ok_steps; kept_solve. Qed.

Lemma analyze_symbol_expr_kept g import context node symbol o t node' g' :
  analyze_symbol_expr g import context node symbol o = Ok (t, node', g') ->
  session_kept g g'.
Proof. unfold analyze_symbol_expr. intros H. ok_steps; kept_solve. Qed.

Lemma analyze_string_literal_expr_kept g node buf c t node' g' :
  analyze_string_literal_expr g node buf c = Ok (t, node', g') -> session_kept g g'.
Proof. unfold analyze_string_literal_expr. intros H. ok_steps; kept_solve. Qed.

Lemma analyze_number_literal_expr_kept g node o x t node' g' :
  analyze_number_literal_expr g node o x = (t, node', g') -> session_kept g g'.
Proof.
  unfold analyze_number_literal_expr. destruct o; intros [= <- <- <-]; kept_solve.
Qed.

Lemma import_variable_kept var importers : forall g g',
  import_variable g var importers = Ok g' -> session_kept g g'.
Proof.
  induction importers as [|i rest IH]; intros g g' H; cbn in H.
  - ok_steps. kept_solve.
  - apply bind_Ok in H as (a & Ha%get_import_Ok & H). apply IH in H.
    destruct (variable_table (block_context a) !! var_name var); [kept_solve|].
    eapply session_kept_trans; [|exact H].
    eapply session_kept_put_import; [exact Ha|]. by destruct a as [? [] ? ?].
Qed.

Lemma add_local_var_kept g src context name type k var context' g' :
  add_local_var g src context name type k = (var, context', g') -> session_kept g g'.
Proof.
  unfold add_local_var. intros H.
  repeat (match goal with
          | H : (_, _) = (_, _) |- _ => injection H as H; try subst
          | H : (let '(_, _) := ?x in _) = _ |- _ => destruct x eqn:?
          | H : match ?x with _ => _ end = _ |- _ => destruct x eqn:?
          end; cbn beta iota in * ).
  all: kept_solve.
Qed.

(** The unsigned type made for a value below 2^64 holds the value, and no
    narrower one of u8, u16, u32 and u64 does. *)
Theorem get_smallest_unsigned_int_type_least (x : Z) :
  0 <= x < 2 ^ 64 ->
  exists bits,
    get_smallest_unsigned_int_type x = Ok (entry_int false bits) /\
    x < 2 ^ bits /\
    forall w, w ∈ [8; 16; 32; 64] -> x < 2 ^ w -> bits <= w.
Proof.
  intros Hx. exists (bits_needed_for_unsigned x).
  split; [apply get_smallest_unsigned_int_type_total|].
  unfold bits_needed_for_unsigned, UINT8_MAX, UINT16_MAX, UINT32_MAX.
  repeat case_decide; (split; [lia|]); intros w Hw Hlt;
    repeat (apply elem_of_cons in Hw as [->|Hw]); try (by apply elem_of_nil in Hw); lia.
Qed.

Lemma get_smallest_unsigned_int_type_least_witness :
  exists bits,
    get_smallest_unsigned_int_type 256 = Ok (entry_int false bits) /\
    256 < 2 ^ bits /\
    forall w, w ∈ [8; 16; 32; 64] -> 256 < 2 ^ w -> bits <= w.
Proof. apply (get_smallest_unsigned_int_type_least 256). lia. Defined.

(** Casting constness only is transitive. *)
Lemma types_match_const_cast_only_trans (e : TypeTableEntry) : forall m a,
  types_match_const_cast_only e m = Ok true ->
  types_match_const_cast_only m a = Ok true ->
  types_match_const_cast_only e a = Ok true.
Proof.
  type_induction e; intros m a Hem Hma;
    rewrite types_match_const_cast_only_unfold in Hem;
    (destruct (type_eqb _ m) eqn:Eem;
     [apply type_eqb_eq in Eem; subst m; exact Hma|]);
    destruct m as [| | | | | | | | |? ? ?|? ?|m mk|m ?|m mk|? ?|? ?|m|m|? ? ? ? ? ?];
    try discriminate Hem;
    rewrite types_match_const_cast_only_unfold in Hma;
    (destruct (type_eqb _ a) eqn:Ema;
     [apply type_eqb_eq in Ema; subst a;
      rewrite types_match_const_cast_only_unfold, Eem; exact Hem|]);
    destruct a as [| | | | | | | | |? ? ?|? ?|a ak|a ?|a ak|? ? |? ?|a|a|? ? ? ? ? ?];
    try discriminate Hma;
    rewrite types_match_const_cast_only_unfold;
    match goal with
    | |- context [type_eqb ?x ?y] => destruct (type_eqb x y); [reflexivity|]
    end.
  - destruct ek, mk, ak; simpl in *; try discriminate; eauto.
  - destruct ek, mk, ak; simpl in *; try discriminate; eauto.
  - eauto.
  - eauto.
Qed.

(** Two types that cast to each other are the same type. *)
Lemma types_match_const_cast_only_antisym (e : TypeTableEntry) : forall a,
  types_match_const_cast_only e a = Ok true ->
  types_match_const_cast_only a e = Ok true ->
  e = a.
Proof.
  type_induction e; intros a Hea Hae;
    rewrite types_match_const_cast_only_unfold in Hea;
    (destruct (type_eqb _ a) eqn:Eea; [by apply type_eqb_eq in Eea|]);
    destruct a as [| | | | | | | | |? ? ?|? ?|a ak|a ?|a ak|? ? |? ?|a|a|? ? ? ? ? ?];
    try discriminate Hea;
    rewrite types_match_const_cast_only_unfold in Hae;
    match type of Hae with
    | context [type_eqb ?x ?y] =>
        destruct (type_eqb x y) eqn:Eae; [by apply type_eqb_eq in Eae|]
    end.
  - destruct ek, ak; simpl in *; try discriminate; f_equal; eauto.
  - destruct ek, ak; simpl in *; try discriminate; f_equal; eauto.
  - f_equal; eauto.
  - f_equal; eauto.
Qed.

Lemma primitive_type_table_names g g' symbol :
  primitive_type_table g !! symbol = None -> primitive_type_table g' !! symbol = None.
Proof.
  unfold primitive_type_table. rewrite <- !not_elem_of_list_to_map.
  cbn [fmap list_fmap fst]. done.
Qed.

Lemma declarable_spec g context symbol :
  declarable g context symbol = true <->
  match context_fn_entry context with
  | Some _ => find_local_variable context symbol
  | None => find_variable context symbol
  end = None /\
  primitive_type_table g !! symbol = None /\
  find_container context symbol = None.
Proof.
  unfold declarable. rewrite !andb_true_iff, !bool_decide_eq_true. tauto.
Qed.

Lemma find_local_variable_new_block_context i context symbol :
  find_local_variable (new_block_context (Some i) (Some context)) symbol
  = find_local_variable context symbol.
Proof.
  unfold new_block_context. destruct context as [n f p v t e l]. cbn.
  destruct f; [|reflexivity]. by rewrite lookup_empty.
Qed.

Lemma find_variable_new_block_context i context symbol :
  find_variable (new_block_context i (Some context)) symbol
  = find_variable context symbol.
Proof. unfold new_block_context. cbn. by rewrite lookup_empty. Qed.

Lemma find_container_new_block_context i context symbol :
  find_container (new_block_context i (Some context)) symbol
  = find_container context symbol.
Proof. unfold new_block_context. cbn. by rewrite lookup_empty. Qed.

Lemma add_local_var_if_var g i context symbol type is_const :
  declarable g context symbol = true ->
  add_local_var g (decl_other i) (new_block_context (Some i) (Some context))
    (Some symbol) type is_const
  = (if_var_variable i symbol type is_const,
     if_var_scope i context symbol type is_const, g).
Proof.
  intros (Hv & Hp & Hc)%declarable_spec. unfold add_local_var.
  rewrite find_local_variable_new_block_context, find_variable_new_block_context,
    find_container_new_block_context, Hp, Hc.
  replace (context_fn_entry (new_block_context (Some i) (Some context)))
    with (context_fn_entry context) by reflexivity.
  rewrite Hv. reflexivity.
Qed.

Lemma analyze_symbol_expr_if_var sz fuel g import i context symbol type is_const j re :
  primitive_type_table g !! symbol = None ->
  analyze_expression sz (S fuel) g import (if_var_scope i context symbol type is_const)
    None (mkAstNode j (symbol_expr symbol None) re)
  = Ok (type,
        mkAstNode j (symbol_expr symbol None)
          {| type_entry := Some type; const_val := const_val re |},
        g).
Proof.
  intros Hp. cbn [analyze_expression]. unfold analyze_expression_body.
  cbn [node_data]. unfold analyze_symbol_expr. rewrite Hp.
  unfold if_var_scope, new_block_context. cbn [find_variable set_variable_table variable_table].
  rewrite lookup_insert_eq. cbn. by destruct is_const.
Qed.

(** C7, as amended: [if (var x ?= init)] in a function, with no type given
    for [x], where [x] can be declared.  Whatever analyzes the initializer
    and the branches: [x] is declared in a new scope below the current one,
    with the payload type when the type [t] of the initializer is an optional
    type, and with the invalid type when it is not, after the error "expected
    maybe type" on the initializer unless [t] is itself the invalid type; a
    use of [x] in that scope has the type of [x]; and the then branch and
    the else branch are both analyzed in that scope: the result of the
    expression is made of what the analysis of the then branch in the scope,
    and after it that of the else branch in the same scope, return. *)
Theorem analyze_if_var_expr_scope
    (ae : CodeGen -> Z -> BlockContext -> option TypeTableEntry -> AstNode ->
          result (TypeTableEntry * AstNode * CodeGen))
    (g g1 : CodeGen) (import : Z) (context : BlockContext)
    (expected_type : option TypeTableEntry) (i : Z) (symbol : string) (is_const : bool)
    (init init' then_block : AstNode) (else_node : option AstNode) (re : Expr)
    (t : TypeTableEntry) :
  ae g import (new_block_context (Some i) (Some context)) None init = Ok (t, init', g1) ->
  is_Some (context_fn_entry context) ->
  declarable g1 context symbol = true ->
  let var_type :=
    match t with
    | TypeMaybe child_type => child_type
    | _ => entry_invalid
    end in
  let g2 :=
    match t with
    | TypeMaybe _ | entry_invalid => g1
    | _ => add_node_error g1 (create_index init') "expected maybe type"
    end in
  let scope := if_var_scope i context symbol var_type is_const in
  let node :=
    mkAstNode i
      (if_var_expr (mkVariableDeclaration symbol is_const VisibModPrivate None (Some init))
         then_block else_node) re in
  let parent := fun then_block else_node =>
    mkAstNode i
      (if_var_expr (mkVariableDeclaration symbol is_const VisibModPrivate None (Some init'))
         then_block else_node) re in
  find_variable scope symbol = Some (if_var_variable i symbol var_type is_const) /\
  (forall sz fuel g' j re',
     analyze_expression sz (S fuel) g' import scope None
       (mkAstNode j (symbol_expr symbol None) re')
     = Ok (var_type,
           mkAstNode j (symbol_expr symbol None)
             {| type_entry := Some var_type; const_val := const_val re' |},
           g')) /\
  analyze_if_var_expr ae g import context expected_type node
  = analyze_if_then_else ae g2 import scope expected_type then_block else_node parent /\
  (forall else_branch then_type then' g3 else_type else' g4,
     else_node = Some else_branch ->
     ae g2 import scope expected_type then_block = Ok (then_type, then', g3) ->
     ae g3 import scope expected_type else_branch = Ok (else_type, else', g4) ->
     analyze_if_var_expr ae g import context expected_type node
     = match expected_type with
       | Some _ =>
           Ok (if decide (type_id then_type = TypeTableEntryIdUnreachable)
               then else_type else then_type,
               parent then' (Some else'), None, g4)
       | None =>
           let! (peer_type, op_nodes, g5) :=
             resolve_peer_type_compatibility ae g4 import scope i
               [Some then'; Some else'] [then_type; else_type] in
           match op_nodes with
           | [Some then_block; else_node] =>
               Ok (peer_type, parent then_block else_node, None, g5)
           | _ => Ok (peer_type, parent then' (Some else'), None, g5)
           end
       end) /\
  (forall then_type then' g3,
     else_node = None ->
     ae g2 import scope expected_type then_block = Ok (then_type, then', g3) ->
     analyze_if_var_expr ae g import context expected_type node
     = let! (else_type, cast, g4) :=
         resolve_type_compatibility ae g3 import scope (parent then' None)
           expected_type entry_void in
       let node := match cast with
                   | Some cast_node => first_param cast_node (parent then' None)
                   | None => parent then' None
                   end in
       match expected_type with
       | Some _ =>
           Ok (if decide (type_id then_type = TypeTableEntryIdUnreachable)
               then else_type else then_type,
               node, cast, g4)
       | None =>
           let! (peer_type, op_nodes, g5) :=
             resolve_peer_type_compatibility ae g4 import scope (create_index node)
               [Some then'; None] [then_type; else_type] in
           match op_nodes with
           | [Some then_block; else_node] =>
               Ok (peer_type, parent then_block else_node, cast, g5)
           | _ => Ok (peer_type, node, cast, g5)
           end
       end).
Proof.
  intros Hinit [f Hf] Hd. cbv zeta.
  assert (Hscope :
    analyze_if_var_expr ae g import context expected_type
      (mkAstNode i
         (if_var_expr
            (mkVariableDeclaration symbol is_const VisibModPrivate None (Some init))
            then_block else_node) re)
    = analyze_if_then_else ae
        match t with
        | TypeMaybe _ | entry_invalid => g1
        | _ => add_node_error g1 (create_index init') "expected maybe type"
        end import
        (if_var_scope i context symbol
           match t with
           | TypeMaybe child_type => child_type
           | _ => entry_invalid
           end is_const)
        expected_type then_block else_node
        (fun then_block else_node =>
           mkAstNode i
             (if_var_expr
                (mkVariableDeclaration symbol is_const VisibModPrivate None (Some init'))
                then_block else_node) re)).
  { unfold analyze_if_var_expr. cbn [node_data create_index].
    unfold analyze_variable_declaration_raw. cbn [bind]. rewrite Hinit. cbn [bind].
    replace (context_fn_entry (new_block_context (Some i) (Some context)))
      with (context_fn_entry context) by reflexivity.
    rewrite Hf.
    rewrite (bool_decide_eq_true_2 (is_Some (Some f))) by eauto.
    assert (Hd2 : forall n m, declarable (add_node_error g1 n m) context symbol = true).
    { intros n m. apply declarable_spec. apply declarable_spec in Hd as (? & ? & ?).
      eauto using primitive_type_table_names. }
    destruct t; cbn [type_id];
      (destruct (decide _) as [E|E]; [try discriminate E|try (by destruct E)]);
      cbn [type_id negb andb default bind];
      rewrite ?andb_false_r; cbn [negb andb default bind];
      rewrite add_local_var_if_var by (exact Hd || apply Hd2);
      reflexivity. }
  split.
  { unfold if_var_scope, new_block_context. cbn. by rewrite lookup_insert_eq. }
  split.
  { intros sz fuel g' j re'. apply analyze_symbol_expr_if_var.
    apply declarable_spec in Hd as (_ & Hp & _).
    eauto using primitive_type_table_names. }
  split; [exact Hscope|]. split.
  - intros else_branch then_type then' g3 else_type else' g4 -> Hthen Helse.
    rewrite Hscope. unfold analyze_if_then_else.
    rewrite Hthen. cbn [bind]. rewrite Helse. cbn [bind].
    destruct expected_type; reflexivity.
  - intros then_type then' g3 -> Hthen.
    rewrite Hscope. unfold analyze_if_then_else.
    rewrite Hthen. cbn [bind].
    destruct (resolve_type_compatibility ae g3 import _ _ expected_type entry_void)
      as [[[else_type cast] g4]| |]; cbn [bind]; [|reflexivity..].
    destruct expected_type; reflexivity.
Qed.


Lemma copy_fields_take (ptr : list ConstExprValue) : forall len from,
  (from + len <= length ptr)%nat ->
  copy_fields ptr from len = Ok (take len (drop from ptr)).
Proof.
  intros len. induction len as [|len IH]; intros from Hlen; [reflexivity|].
  cbn [copy_fields].
  destruct (lookup_lt_is_Some_2 ptr from ltac:(lia)) as [v Hv]. rewrite Hv.
  rewrite IH by lia. cbn [bind].
  rewrite (drop_S _ _ _ Hv). reflexivity.
Qed.

Lemma copy_fields_all (ptr : list ConstExprValue) :
  copy_fields ptr 0 (length ptr) = Ok ptr.
Proof. rewrite copy_fields_take by (simpl; lia). by rewrite drop_0, firstn_all. Qed.

Lemma const_slice_elems_Some v elems :
  const_slice_elems v = Some elems ->
  exists u pf lf bn, v = mkConstExprValue true u (x_struct [pf; lf]) /\
    get_x_ptr pf = Ok elems /\ get_x_bignum lf = Ok bn /\
    bignum_x_uint bn = Z.of_nat (length elems).
Proof.
  destruct v as [[] u []]; try discriminate. cbn.
  destruct fields as [|[? ? []] [|[? ? []] []]]; try discriminate.
  case_decide; [|discriminate]. intros [= <-]. eauto 10.
Qed.

Section str_cat.
Variable ae : CodeGen -> Z -> BlockContext -> option TypeTableEntry -> AstNode ->
  result (TypeTableEntry * AstNode * CodeGen).

(** The [++] case of [analyze_bin_op_expr] once the operands are analyzed
    and have valid types. *)
Lemma analyze_bin_op_expr_str_cat_unfold
    (g g1 g2 : CodeGen) (import : Z) (context : BlockContext) (i : Z)
    (op1 op2 op1' op2' : AstNode) (re : Expr) (t1 t2 : TypeTableEntry) :
  let str_type := TypeUnknownSizeArray entry_u8 true in
  let node := mkAstNode i (bin_op_expr op1 BinOpTypeStrCat op2) re in
  let node' := mkAstNode i (bin_op_expr op1' BinOpTypeStrCat op2') re in
  let v1 := const_val (get_resolved_expr op1') in
  let v2 := const_val (get_resolved_expr op2') in
  ae g import context (Some str_type) op1 = Ok (t1, op1', g1) ->
  ae g1 import context (Some str_type) op2 = Ok (t2, op2', g2) ->
  type_id t1 <> TypeTableEntryIdInvalid ->
  type_id t2 <> TypeTableEntryIdInvalid ->
  analyze_bin_op_expr ae g import context node =
    (let bad_node :=
       if negb (const_ok v1) then Some op1'
       else if negb (const_ok v2) then Some op2' else None in
     match bad_node with
     | Some bad_node =>
         Ok (entry_invalid, node',
             add_node_error g2 (create_index bad_node)
               "string concatenation requires constant expression")
     | None =>
         let! op1_len_field := get_x_struct_field v1 1 in
         let! op1_len_bn := get_x_bignum op1_len_field in
         let op1_len := bignum_x_uint op1_len_bn in
         let! op2_len_field := get_x_struct_field v2 1 in
         let! op2_len_bn := get_x_bignum op2_len_field in
         let op2_len := bignum_x_uint op2_len_bn in
         let len := wrap64 (op1_len + op2_len) in
         let! _ := assert (bool_decide (len = op1_len + op2_len)) in
         let! op1_ptr_field := get_x_struct_field v1 0 in
         let! op1_ptr := get_x_ptr op1_ptr_field in
         let! fields1 := copy_fields op1_ptr 0 (Z.to_nat op1_len) in
         let! op2_ptr_field := get_x_struct_field v2 0 in
         let! op2_ptr := get_x_ptr op2_ptr_field in
         let! fields2 := copy_fields op2_ptr 0 (Z.to_nat op2_len) in
         let len_field :=
           mkConstExprValue true false (x_bignum (bignum_init_unsigned len)) in
         let ptr_field :=
           mkConstExprValue true false (x_ptr (fields1 ++ fields2)%list len) in
         Ok (str_type,
             set_const_val node'
               (const_set (const_val re) (x_struct [ptr_field; len_field])),
             g2)
     end).
Proof.
  intros str_type node node' v1 v2 H1 H2 Ht1 Ht2.
  unfold analyze_bin_op_expr. subst node. cbn [node_data].
  unfold get_unknown_size_array_type. cbn [bind assert entry_u8 entry_int type_id
    bool_decide decide_rel negb].
  change (TypeUnknownSizeArray (TypeInt (int_type_name false 8) false 8) true)
    with str_type.
  rewrite bool_decide_eq_false_2 by discriminate. cbn [negb assert bind].
  fold str_type. rewrite H1. cbn [bind]. rewrite H2. cbn [bind].
  rewrite !bool_decide_eq_false_2 by done. cbn [orb]. reflexivity.
Qed.

Lemma analyze_bin_op_expr_str_cat_constants
    (g g1 g2 : CodeGen) (import : Z) (context : BlockContext) (i : Z)
    (op1 op2 op1' op2' : AstNode) (re : Expr) (t1 t2 : TypeTableEntry)
    (elems1 elems2 : list ConstExprValue) :
  let str_type := TypeUnknownSizeArray entry_u8 true in
  ae g import context (Some str_type) op1 = Ok (t1, op1', g1) ->
  ae g1 import context (Some str_type) op2 = Ok (t2, op2', g2) ->
  type_id t1 <> TypeTableEntryIdInvalid ->
  type_id t2 <> TypeTableEntryIdInvalid ->
  const_slice_elems (const_val (get_resolved_expr op1')) = Some elems1 ->
  const_slice_elems (const_val (get_resolved_expr op2')) = Some elems2 ->
  Z.of_nat (length elems1 + length elems2) < 2 ^ 64 ->
  analyze_bin_op_expr ae g import context
    (mkAstNode i (bin_op_expr op1 BinOpTypeStrCat op2) re)
  = Ok (str_type,
        set_const_val (mkAstNode i (bin_op_expr op1' BinOpTypeStrCat op2') re)
          (str_cat_value (const_undef (const_val re)) (elems1 ++ elems2)%list),
        g2).
Proof.
  intros str_type H1 H2 Ht1 Ht2
    (u1 & pf1 & lf1 & bn1 & E1 & P1 & B1 & L1)%const_slice_elems_Some
    (u2 & pf2 & lf2 & bn2 & E2 & P2 & B2 & L2)%const_slice_elems_Some Hlen.
  rewrite (analyze_bin_op_expr_str_cat_unfold _ _ _ _ _ _ _ _ _ _ _ _ _ H1 H2 Ht1 Ht2).
  rewrite E1, E2. cbn [const_ok negb get_x_struct_field const_data lookup list_lookup bind].
  rewrite B1, B2, P1, P2. cbn [bind]. rewrite L1, L2.
  assert (W : wrap64 (Z.of_nat (length elems1) + Z.of_nat (length elems2))
              = Z.of_nat (length elems1) + Z.of_nat (length elems2)).
  { unfold wrap64. apply Z.mod_small. lia. }
  rewrite W, bool_decide_eq_true_2 by done. cbn [assert bind].
  rewrite !Nat2Z.id, !copy_fields_all. cbn [bind].
  unfold str_cat_value, const_set, bignum_init_unsigned.
  rewrite length_app, Nat2Z.inj_add. reflexivity.
Qed.

End str_cat.

(** The operator [++].  Whatever analyzes the operands, when both have a
    valid type: if their values are constant slices, the value of the
    expression is the constant slice of the elements of the first followed by
    those of the second, its length the sum of the two lengths, and no error
    is reported; if the value of an operand is not constant, the error "string
    concatenation requires constant expression" is reported on the first such
    operand and the type is invalid. *)
Theorem analyze_str_cat
    (ae : CodeGen -> Z -> BlockContext -> option TypeTableEntry -> AstNode ->
          result (TypeTableEntry * AstNode * CodeGen))
    (g g1 g2 : CodeGen) (import : Z) (context : BlockContext) (i : Z)
    (op1 op2 op1' op2' : AstNode) (re : Expr) (t1 t2 : TypeTableEntry) :
  let str_type := TypeUnknownSizeArray entry_u8 true in
  let node := mkAstNode i (bin_op_expr op1 BinOpTypeStrCat op2) re in
  let node' := mkAstNode i (bin_op_expr op1' BinOpTypeStrCat op2') re in
  let v1 := const_val (get_resolved_expr op1') in
  let v2 := const_val (get_resolved_expr op2') in
  ae g import context (Some str_type) op1 = Ok (t1, op1', g1) ->
  ae g1 import context (Some str_type) op2 = Ok (t2, op2', g2) ->
  type_id t1 <> TypeTableEntryIdInvalid ->
  type_id t2 <> TypeTableEntryIdInvalid ->
  (forall elems1 elems2,
     const_slice_elems v1 = Some elems1 ->
     const_slice_elems v2 = Some elems2 ->
     Z.of_nat (length elems1 + length elems2) < 2 ^ 64 ->
     analyze_bin_op_expr ae g import context node
     = Ok (str_type,
           set_const_val node' (str_cat_value (const_undef (const_val re))
                                  (elems1 ++ elems2)%list),
           g2)) /\
  (const_ok v1 && const_ok v2 = false ->
   analyze_bin_op_expr ae g import context node
   = Ok (entry_invalid, node',
         add_node_error g2 (create_index (if const_ok v1 then op2' else op1'))
           "string concatenation requires constant expression")).
Proof.
  intros str_type node node' v1 v2 H1 H2 Ht1 Ht2. split.
  - intros elems1 elems2 E1 E2 Hlen.
    by apply (analyze_bin_op_expr_str_cat_constants ae g g1 g2) with (t1 := t1) (t2 := t2).
  - intros Hok. subst node.
    rewrite (analyze_bin_op_expr_str_cat_unfold ae _ _ _ _ _ _ _ _ _ _ _ _ _ H1 H2 Ht1 Ht2).
    fold v1 v2. destruct (const_ok v1); cbn [negb]; [|reflexivity].
    cbn in Hok. rewrite Hok. reflexivity.
Qed.

(** The [++] case of [analyze_bin_op_expr] when an operand has the invalid
    type. *)
Lemma analyze_bin_op_expr_str_cat_invalid
    (ae : CodeGen -> Z -> BlockContext -> option TypeTableEntry -> AstNode ->
          result (TypeTableEntry * AstNode * CodeGen))
    (g g1 g2 : CodeGen) (import : Z) (context : BlockContext) (i : Z)
    (op1 op2 op1' op2' : AstNode) (re : Expr) (t1 t2 : TypeTableEntry) :
  let str_type := TypeUnknownSizeArray entry_u8 true in
  ae g import context (Some str_type) op1 = Ok (t1, op1', g1) ->
  ae g1 import context (Some str_type) op2 = Ok (t2, op2', g2) ->
  type_id t1 = TypeTableEntryIdInvalid \/ type_id t2 = TypeTableEntryIdInvalid ->
  analyze_bin_op_expr ae g import context
    (mkAstNode i (bin_op_expr op1 BinOpTypeStrCat op2) re)
  = Ok (entry_invalid, mkAstNode i (bin_op_expr op1' BinOpTypeStrCat op2') re, g2).
Proof.
  intros str_type H1 H2 Ht.
  unfold analyze_bin_op_expr. cbn [node_data].
  unfold get_unknown_size_array_type. cbn [bind assert entry_u8 entry_int type_id
    bool_decide decide_rel negb].
  change (TypeUnknownSizeArray (TypeInt (int_type_name false 8) false 8) true)
    with str_type.
  rewrite bool_decide_eq_false_2 by discriminate. cbn [negb assert bind].
  fold str_type. rewrite H1. cbn [bind]. rewrite H2. cbn [bind].
  destruct Ht as [Ht|Ht]; rewrite (bool_decide_eq_true_2 _ Ht);
    rewrite ?orb_true_r; reflexivity.
Qed.

(** C4, as amended.  The operator [++], whatever analyzes the operands.
    When both operands have a valid type: if their values are constant
    slices, the value of the expression is the constant slice of the elements
    of the first followed by those of the second, of type [[]const u8], its
    length the sum of the two lengths, and no error is reported; if the value
    of an operand is not constant, the error "string concatenation requires
    constant expression" is reported on the first such operand and the type
    is invalid.  When an operand has the invalid type, the type is invalid
    and no error is added to those of the operands. *)
Theorem analyze_str_cat_operands
    (ae : CodeGen -> Z -> BlockContext -> option TypeTableEntry -> AstNode ->
          result (TypeTableEntry * AstNode * CodeGen))
    (g g1 g2 : CodeGen) (import : Z) (context : BlockContext) (i : Z)
    (op1 op2 op1' op2' : AstNode) (re : Expr) (t1 t2 : TypeTableEntry) :
  let str_type := TypeUnknownSizeArray entry_u8 true in
  let node := mkAstNode i (bin_op_expr op1 BinOpTypeStrCat op2) re in
  let node' := mkAstNode i (bin_op_expr op1' BinOpTypeStrCat op2') re in
  let v1 := const_val (get_resolved_expr op1') in
  let v2 := const_val (get_resolved_expr op2') in
  ae g import context (Some str_type) op1 = Ok (t1, op1', g1) ->
  ae g1 import context (Some str_type) op2 = Ok (t2, op2', g2) ->
  (type_id t1 <> TypeTableEntryIdInvalid ->
   type_id t2 <> TypeTableEntryIdInvalid ->
   forall elems1 elems2,
     const_slice_elems v1 = Some elems1 ->
     const_slice_elems v2 = Some elems2 ->
     Z.of_nat (length elems1 + length elems2) < 2 ^ 64 ->
     analyze_bin_op_expr ae g import context node
     = Ok (str_type,
           set_const_val node' (str_cat_value (const_undef (const_val re))
                                  (elems1 ++ elems2)%list),
           g2)) /\
  (type_id t1 <> TypeTableEntryIdInvalid ->
   type_id t2 <> TypeTableEntryIdInvalid ->
   const_ok v1 && const_ok v2 = false ->
   analyze_bin_op_expr ae g import context node
   = Ok (entry_invalid, node',
         add_node_error g2 (create_index (if const_ok v1 then op2' else op1'))
           "string concatenation requires constant expression")) /\
  (type_id t1 = TypeTableEntryIdInvalid \/ type_id t2 = TypeTableEntryIdInvalid ->
   analyze_bin_op_expr ae g import context node = Ok (entry_invalid, node', g2)).
Proof.
  intros str_type node node' v1 v2 H1 H2. split; [|split].
  - intros Ht1 Ht2 elems1 elems2 E1 E2 Hlen.
    by apply (analyze_bin_op_expr_str_cat_constants ae g g1 g2) with (t1 := t1) (t2 := t2).
  - intros Ht1 Ht2 Hok. subst node.
    rewrite (analyze_bin_op_expr_str_cat_unfold ae _ _ _ _ _ _ _ _ _ _ _ _ _ H1 H2 Ht1 Ht2).
    fold v1 v2. destruct (const_ok v1); cbn [negb]; [|reflexivity].
    cbn in Hok. rewrite Hok. reflexivity.
  - intros Ht.
    by apply (analyze_bin_op_expr_str_cat_invalid ae g g1 g2) with (t1 := t1) (t2 := t2).
Qed.

Lemma length_buf_chars s : Z.of_nat (length (buf_chars s)) = buf_len s.
Proof.
  unfold buf_chars, buf_len. rewrite length_fmap. f_equal.
  induction s as [|a s IH]; [reflexivity|]. cbn. by rewrite IH.
Qed.

Lemma buf_chars_app s1 s2 : buf_chars (s1 ++ s2) = (buf_chars s1 ++ buf_chars s2)%list.
Proof.
  unfold buf_chars. rewrite <- fmap_app. f_equal.
  induction s1 as [|a s1 IH]; [reflexivity|]. simpl. f_equal. exact IH.
Qed.

(** A string literal where a [[]const u8] is expected: the literal is put
    under a cast node whose value is the constant slice of its bytes. *)
Lemma analyze_string_literal_as_slice sz fuel g import context i s re :
  exists node g',
    analyze_expression sz (S (S (S fuel))) g import context
      (Some (TypeUnknownSizeArray entry_u8 true))
      (mkAstNode i (string_literal s false) re)
    = Ok (TypeUnknownSizeArray entry_u8 true, node, g') /\
    const_val (get_resolved_expr node) = str_cat_value false (buf_chars s) /\
    errors g' = errors g.
Proof.
  eexists _, _. split; [|split].
  - cbn -[buf_chars buf_len wrap32 Z.add]. reflexivity.
  - cbn. unfold str_cat_value. by rewrite length_buf_chars.
  - reflexivity.
Qed.

Lemma const_slice_elems_str_cat_value u elems :
  const_slice_elems (str_cat_value u elems) = Some elems.
Proof. cbn. by rewrite decide_True. Qed.

(** The value of ["s1" ++ "s2"] is that of the literal ["s1s2"] as a
    [[]const u8]: for every two string literals (of a total length within
    [uint64_t]) the analysis gives the constant slice of the bytes of the
    first followed by those of the second, and reports no error. *)
Theorem analyze_str_cat_literals sz fuel g import context i i1 i2 s1 s2 re re1 re2 :
  buf_len s1 + buf_len s2 < 2 ^ 64 ->
  exists node g',
    analyze_expression sz (S (S (S (S fuel)))) g import context None
      (mkAstNode i
         (bin_op_expr (mkAstNode i1 (string_literal s1 false) re1) BinOpTypeStrCat
            (mkAstNode i2 (string_literal s2 false) re2)) re)
    = Ok (TypeUnknownSizeArray entry_u8 true, node, g') /\
    get_resolved_expr node
    = {| type_entry := Some (TypeUnknownSizeArray entry_u8 true);
         const_val := str_cat_value (const_undef (const_val re)) (buf_chars (s1 ++ s2)) |} /\
    errors g' = errors g.
Proof.
  intros Hlen.
  destruct (analyze_string_literal_as_slice sz fuel g import context i1 s1 re1)
    as (n1 & g1 & H1 & V1 & E1).
  destruct (analyze_string_literal_as_slice sz fuel g1 import context i2 s2 re2)
    as (n2 & g2 & H2 & V2 & E2).
  pose proof (analyze_bin_op_expr_str_cat_constants
    (analyze_expression sz (S (S (S fuel)))) g g1 g2 import context i
    _ _ n1 n2 re _ _ (buf_chars s1) (buf_chars s2) H1 H2
    ltac:(discriminate) ltac:(discriminate)) as Hcat.
  rewrite V1, V2, !const_slice_elems_str_cat_value in Hcat.
  specialize (Hcat eq_refl eq_refl).
  rewrite Nat2Z.inj_add, !length_buf_chars in Hcat. specialize (Hcat Hlen).
  eexists _, _. split; [|split].
  - cbn [analyze_expression]. unfold analyze_expression_body at 1. cbn [node_data].
    cbn [analyze_expression] in Hcat. rewrite Hcat. cbn [bind]. reflexivity.
  - cbn. by rewrite buf_chars_app.
  - congruence.
Qed.

(** An explicit cast from an integer type to an integer type is accepted
    whatever the two widths and signs are, without an error, and the constant
    value of the operand, when it has one, is the value of the cast as it is:
    it is not reduced to the width of the target. *)
Theorem analyze_cast_expr_int_to_int
    (sz : TypeTableEntry -> Z)
    (ae : CodeGen -> Z -> BlockContext -> option TypeTableEntry -> AstNode ->
          result (TypeTableEntry * AstNode * CodeGen))
    (g g1 : CodeGen) (import : Z) (context : BlockContext) (i : Z)
    (fn_ref_expr expr_node expr_node' : AstNode) (cast_op : CastOp) (re : Expr)
    (wanted_type actual_type : TypeTableEntry) :
  resolve_type g fn_ref_expr = Ok (wanted_type, g) ->
  ae g import context None expr_node = Ok (actual_type, expr_node', g1) ->
  type_id wanted_type = TypeTableEntryIdInt ->
  type_id actual_type = TypeTableEntryIdInt ->
  let other_val := const_val (get_resolved_expr expr_node') in
  analyze_cast_expr sz ae g import context
    (mkAstNode i (fn_call_expr fn_ref_expr [expr_node] cast_op) re)
  = Ok (wanted_type,
        mkAstNode i
          (fn_call_expr fn_ref_expr [expr_node']
             (if type_eqb wanted_type actual_type then CastOpNoop
              else CastOpIntWidenOrShorten))
          {| type_entry := type_entry re;
             const_val := if const_ok other_val then other_val else const_val re |},
        g1).
Proof.
  intros Hw Ha Hwi Hai other_val. destruct re as [rt rv].
  unfold analyze_cast_expr. cbn [node_data].
  rewrite Hw. cbn [bind]. rewrite Ha. cbn [bind].
  rewrite Hwi, Hai. cbn [bool_decide decide_rel orb].
  rewrite !(bool_decide_eq_false_2 (TypeTableEntryIdInt = TypeTableEntryIdInvalid))
    by discriminate. cbn [orb].
  rewrite types_match_const_cast_only_unfold.
  destruct (type_eqb wanted_type actual_type) eqn:E; cbn [bind].
  - unfold eval_const_expr_implicit_cast. cbn [get_resolved_expr set_node_data].
    fold other_val. destruct (const_ok other_val); reflexivity.
  - destruct wanted_type; try discriminate Hwi. destruct actual_type; try discriminate Hai.
    cbn [bind]. rewrite !(bool_decide_eq_false_2 (TypeTableEntryIdInt = TypeTableEntryIdPointer))
      by discriminate.
    rewrite !andb_false_r. cbn [andb].
    rewrite !(bool_decide_eq_true_2 (TypeTableEntryIdInt = TypeTableEntryIdInt)) by done.
    cbn [andb]. unfold eval_const_expr_implicit_cast. cbn [get_resolved_expr set_node_data].
    fold other_val. destruct (const_ok other_val); reflexivity.
Qed.

Section analysis_kept.
Variable sz : TypeTableEntry -> Z.
Variable ae : CodeGen -> Z -> BlockContext -> option TypeTableEntry -> AstNode ->
  result (TypeTableEntry * AstNode * CodeGen).
Hypothesis ae_kept : forall g import context expected_type node t node' g',
  ae g import context expected_type node = Ok (t, node', g') -> session_kept g g'.

(** Turning the calls in the context into the steps they make. *)
Ltac kept_calls :=
  repeat match goal with
  | H : ae _ _ _ _ _ = Ok _ |- _ => apply ae_kept in H
  | H : num_lit_fits_in_other_type _ _ _ = Ok _ |- _ =>
      apply num_lit_fits_in_other_type_kept in H
  | H : types_match_with_implicit_cast _ _ _ _ _ = Ok _ |- _ =>
      apply types_match_with_implicit_cast_kept in H
  | H : determine_peer_type_compatibility _ _ _ _ = Ok _ |- _ =>
      apply determine_peer_type_compatibility_kept in H
  | H : resolve_type _ _ = Ok _ |- _ => apply resolve_type_kept in H
  | H : analyze_symbol_expr _ _ _ _ _ _ = Ok _ |- _ =>
      apply analyze_symbol_expr_kept in H
  | H : analyze_string_literal_expr _ _ _ _ = Ok _ |- _ =>
      apply analyze_string_literal_expr_kept in H
  | H : analyze_number_literal_expr _ _ _ _ = _ |- _ =>
      apply analyze_number_literal_expr_kept in H
  | H : import_variable _ _ _ = Ok _ |- _ => apply import_variable_kept in H
  | H : add_local_var _ _ _ _ _ _ = _ |- _ => apply add_local_var_kept in H
  end.

Lemma analyze_type_expr_kept g import context node t node' g' :
  analyze_type_expr ae g import context node = Ok (t, node', g') -> session_kept g g'.
Proof. unfold analyze_type_expr. intros H. ok_steps. kept_calls. kept_solve. Qed.

Lemma analyze_cast_expr_kept g import context node t node' g' :
  analyze_cast_expr sz ae g import context node = Ok (t, node', g') -> session_kept g g'.
Proof.
  unfold analyze_cast_expr. intros H. ok_steps. all: kept_calls. all: kept_solve.
Qed.

Lemma analyze_fn_call_params_kept params : forall g import context proto r g',
  analyze_fn_call_params ae g import context proto params = Ok (r, g') ->
  session_kept g g'.
Proof.
  induction params as [|child rest IH]; intros g import context proto r g' H; cbn in H.
  - ok_steps. kept_solve.
  - ok_steps.
    all: repeat match goal with
         | H : analyze_fn_call_params _ _ _ _ _ _ = Ok _ |- _ => apply IH in H
         end.
    all: kept_calls. all: kept_solve.
Qed.

Lemma analyze_fn_call_raw_kept g import context node fn t node' g' :
  analyze_fn_call_raw ae g import context node fn = Ok (t, node', g') ->
  session_kept g g'.
Proof.
  unfold analyze_fn_call_raw. intros H. ok_steps.
  all: repeat match goal with
       | H : analyze_fn_call_params _ _ _ _ _ _ = Ok _ |- _ =>
           apply analyze_fn_call_params_kept in H
       end.
  all: repeat match goal with
       | H : session_kept (if ?b then _ else _) _ |- _ => destruct b
       end.
  all: kept_solve.
Qed.

Lemma analyze_fn_call_expr_kept g import context node t node' g' :
  analyze_fn_call_expr sz ae g import context node = Ok (t, node', g') ->
  session_kept g g'.
Proof.
  unfold analyze_fn_call_expr. intros H. ok_steps.
  all: repeat match goal with
       | H : analyze_cast_expr _ _ _ _ _ _ = Ok _ |- _ =>
           apply analyze_cast_expr_kept in H
       | H : analyze_fn_call_raw _ _ _ _ _ _ = Ok _ |- _ =>
           apply analyze_fn_call_raw_kept in H
       end.
  all: kept_calls. all: kept_solve.
Qed.

Lemma create_and_analyze_cast_node_kept g import context cast_to_type node t node' g' :
  create_and_analyze_cast_node ae g import context cast_to_type node = Ok (t, node', g') ->
  session_kept g g'.
Proof.
  unfold create_and_analyze_cast_node, create_ast_type_node, create_ast_node.
  intros H. kept_calls. kept_solve.
Qed.

Lemma resolve_type_compatibility_kept g import context node expected actual t cast g' :
  resolve_type_compatibility ae g import context node expected actual = Ok (t, cast, g') ->
  session_kept g g'.
Proof.
  unfold resolve_type_compatibility. intros H. ok_steps.
  all: repeat match goal with
       | H : create_and_analyze_cast_node _ _ _ _ _ _ = Ok _ |- _ =>
           apply create_and_analyze_cast_node_kept in H
       end.
  all: kept_calls. all: kept_solve.
Qed.

Lemma resolve_peer_children_kept children : forall g import context expected r g',
  resolve_peer_children ae g import context expected children = Ok (r, g') ->
  session_kept g g'.
Proof.
  induction children as [|[[child|] ct] rest IH];
    intros g import context expected r g' H; cbn [resolve_peer_children] in H.
  - ok_steps. kept_solve.
  - ok_steps.
    all: repeat match goal with
         | H : resolve_peer_children _ _ _ _ _ _ = Ok _ |- _ => apply IH in H
         | H : resolve_type_compatibility _ _ _ _ _ _ _ = Ok _ |- _ =>
             apply resolve_type_compatibility_kept in H
         end.
    all: kept_calls. all: kept_solve.
  - ok_steps.
    all: repeat match goal with
         | H : resolve_peer_children _ _ _ _ _ _ = Ok _ |- _ => apply IH in H
         end.
    all: kept_solve.
Qed.

Lemma resolve_peer_type_compatibility_kept g import context p nodes types t r g' :
  resolve_peer_type_compatibility ae g import context p nodes types = Ok (t, r, g') ->
  session_kept g g'.
Proof.
  unfold resolve_peer_type_compatibility. intros H. ok_steps.
  all: repeat match goal with
       | H : resolve_peer_children _ _ _ _ _ _ = Ok _ |- _ =>
           apply resolve_peer_children_kept in H
       end.
  all: kept_calls. all: kept_solve.
Qed.

Lemma analyze_bin_op_expr_kept g import context node t node' g' :
  analyze_bin_op_expr ae g import context node = Ok (t, node', g') ->
  session_kept g g'.
Proof.
  unfold analyze_bin_op_expr. intros H. ok_steps.
  all: kept_calls. all: kept_solve.
Qed.

Lemma analyze_variable_declaration_raw_kept g import context src decl m var decl' context' g' :
  analyze_variable_declaration_raw ae g import context src decl m
    = Ok (var, decl', context', g') ->
  session_kept g g'.
Proof.
  unfold analyze_variable_declaration_raw. intros H. ok_steps.
  all: repeat match goal with
       | H : analyze_type_expr _ _ _ _ _ = Ok _ |- _ => apply analyze_type_expr_kept in H
       end.
  all: kept_calls.
  all: repeat match goal with
       | H : session_kept (if ?b then _ else _) _ |- _ => destruct b
       end.
  all: kept_solve.
Qed.

Lemma analyze_if_then_else_kept g import context expected then_block else_node parent
    t node cast g' :
  analyze_if_then_else ae g import context expected then_block else_node parent
    = Ok (t, node, cast, g') ->
  session_kept g g'.
Proof.
  unfold analyze_if_then_else. intros H. ok_steps.
  all: repeat match goal with
       | H : resolve_type_compatibility _ _ _ _ _ _ _ = Ok _ |- _ =>
           apply resolve_type_compatibility_kept in H
       | H : resolve_peer_type_compatibility _ _ _ _ _ _ _ = Ok _ |- _ =>
           apply resolve_peer_type_compatibility_kept in H
       end.
  all: kept_calls. all: kept_solve.
Qed.

Lemma analyze_if_bool_expr_kept g import context expected node t node' cast g' :
  analyze_if_bool_expr ae g import context expected node = Ok (t, node', cast, g') ->
  session_kept g g'.
Proof.
  unfold analyze_if_bool_expr. intros H. ok_steps.
  all: repeat match goal with
       | H : analyze_if_then_else _ _ _ _ _ _ _ _ = Ok _ |- _ =>
           apply analyze_if_then_else_kept in H
       end.
  all: kept_calls. all: kept_solve.
Qed.

Lemma analyze_if_var_expr_kept g import context expected node t node' cast g' :
  analyze_if_var_expr ae g import context expected node = Ok (t, node', cast, g') ->
  session_kept g g'.
Proof.
  unfold analyze_if_var_expr. intros H. ok_steps.
  all: repeat match goal with
       | H : analyze_if_then_else _ _ _ _ _ _ _ _ = Ok _ |- _ =>
           apply analyze_if_then_else_kept in H
       | H : analyze_variable_declaration_raw _ _ _ _ _ _ _ = Ok _ |- _ =>
           apply analyze_variable_declaration_raw_kept in H
       end.
  all: kept_solve.
Qed.

Lemma analyze_slice_expr_kept g import context node t node' g' :
  analyze_slice_expr ae g import context node = Ok (t, node', g') ->
  session_kept g g'.
Proof.
  unfold analyze_slice_expr. intros H. ok_steps.
  all: kept_calls. all: kept_solve.
Qed.

Lemma analyze_expression_body_kept g import context expected node t node' g' :
  analyze_expression_body sz ae g import context expected node = Ok (t, node', g') ->
  session_kept g g'.
Proof.
  unfold analyze_expression_body. intros H.
  apply bind_Ok in H as ([[[rt n] outer] g1] & Hd & H).
  apply bind_Ok in H as ([[resolved cast] g2] & Hr & H).
  injection H as <- <- <-.
  apply resolve_type_compatibility_kept in Hr.
  assert (session_kept g g1); [|kept_solve].
  clear Hr. destruct (node_data node); ok_steps.
  all: repeat match goal with
       | H : analyze_bin_op_expr _ _ _ _ _ = Ok _ |- _ =>
           apply analyze_bin_op_expr_kept in H
       | H : analyze_fn_call_expr _ _ _ _ _ _ = Ok _ |- _ =>
           apply analyze_fn_call_expr_kept in H
       | H : analyze_slice_expr _ _ _ _ _ = Ok _ |- _ =>
           apply analyze_slice_expr_kept in H
       | H : analyze_if_bool_expr _ _ _ _ _ _ = Ok _ |- _ =>
           apply analyze_if_bool_expr_kept in H
       | H : analyze_if_var_expr _ _ _ _ _ _ = Ok _ |- _ =>
           apply analyze_if_var_expr_kept in H
       end.
  all: kept_calls. all: kept_solve.
Qed.

End analysis_kept.

(** The analysis of an expression made of symbols, of number, string and
    bool literals, of the operators [??] and [++], of calls of a function or
    of a type (a cast) that are neither of a builtin function nor through a
    field access, of slices, of [if] and of [if (var x ?= ...)] only adds to
    the errors of the session, after those already reported, and leaves the
    tables of containers, the error-value counters and the error tag as they
    are.  The other kinds of expression are not embedded and the theorem
    says nothing of them. *)
Theorem analyze_expression_kept sz fuel : forall g import context expected node t node' g',
  analyze_expression sz fuel g import context expected node = Ok (t, node', g') ->
  session_kept g g'.
Proof.
  induction fuel as [|fuel IH]; intros g import context expected node t node' g' H;
    [discriminate H|].
  cbn [analyze_expression] in H.
  eapply analyze_expression_body_kept; [exact IH | exact H].
Qed.

Lemma analyze_if_var_expr_scope_witness :
  match analyze_if_var_expr (analyze_expression size_in_bits 4) example_session 0
          example_fn_context None if_var_example with
  | Ok (t, mkAstNode _ (if_var_expr _ _ (Some else_node)) _, _, g) =>
      t = entry_i32 /\ type_entry (get_resolved_expr else_node) = Some entry_i32 /\
      errors g = []
  | _ => False
  end.
Proof.
  unfold if_var_example, symbol_node.
  edestruct analyze_if_var_expr_scope
    with (ae := analyze_expression size_in_bits 4) (g := example_session) (import := 0)
         (context := example_fn_context) (expected_type := @None TypeTableEntry)
         (i := 10) (symbol := "x") (is_const := false)
         (init := mkAstNode 11 (symbol_expr "m" None) expr_zero)
         (then_block := mkAstNode 12 (symbol_expr "x" None) expr_zero)
         (else_node := Some (mkAstNode 13 (symbol_expr "x" None) expr_zero))
         (re := expr_zero) as (_ & _ & _ & H & _).
  - vm_compute. reflexivity.
  - vm_compute. eauto.
  - vm_compute. reflexivity.
  - erewrite H; [| reflexivity | vm_compute; reflexivity | vm_compute; reflexivity].
    vm_compute. auto.
Defined.

(** C7, a counterexample: in [if (var x ?= m) x else x], where no [x] is
    declared around the expression, the [x] of the else branch is analyzed
    without an error and has the type [i32] of the variable; on its own, in
    the scope of the [if], it is an undeclared identifier. *)
Lemma if_var_else_branch_sees_variable :
  find_variable example_fn_context "x" = None /\
  match analyze_example None if_var_example with
  | Ok (t, mkAstNode _ (if_var_expr _ _ (Some else_node)) _, g) =>
      node_data else_node = symbol_expr "x" None /\
      type_entry (get_resolved_expr else_node) = Some entry_i32 /\
      errors g = []
  | _ => False
  end /\
  match analyze_example None (symbol_node 13 "x") with
  | Ok (t, _, g) =>
      t = entry_invalid /\
      errors g = [ {| err_node := 13; err_msg := "use of undeclared identifier 'x'" |} ]
  | _ => False
  end.
Proof. vm_compute. auto. Qed.

(** In [s ++ "bar"] the variable [s] is not a constant: the error is
    reported on it. *)
Lemma analyze_str_cat_operands_witness :
  match analyze_bin_op_expr (analyze_expression size_in_bits 3) example_session 0
          example_fn_context str_cat_variable_example with
  | Ok (t, node, g) =>
      t = entry_invalid /\
      errors g = [ {| err_node := 11;
                      err_msg := "string concatenation requires constant expression" |} ]
  | _ => False
  end.
Proof.
  unfold str_cat_variable_example, symbol_node, string_node.
  edestruct analyze_str_cat_operands
    with (ae := analyze_expression size_in_bits 3) (g := example_session) (import := 0)
         (context := example_fn_context) (i := 10)
         (op1 := mkAstNode 11 (symbol_expr "s" None) expr_zero)
         (op2 := mkAstNode 12 (string_literal "bar" false) expr_zero)
         (re := expr_zero) as (_ & -> & _).
  - vm_compute. reflexivity.
  - vm_compute. reflexivity.
  - vm_compute. auto.
  - vm_compute. discriminate.
  - vm_compute. discriminate.
  - vm_compute. reflexivity.
Defined.

(** C4, a counterexample: in [y ++ "bar"], with no [y] declared, the first
    operand is not a compile-time constant, the type of the expression is
    invalid, and the only error is that of the operand: "string
    concatenation requires constant expression" is not reported. *)
Lemma str_cat_undeclared_operand :
  match analyze_example None str_cat_undeclared_example with
  | Ok (t, mkAstNode _ (bin_op_expr op1 _ _) _, g) =>
      const_ok (const_val (get_resolved_expr op1)) = false /\
      t = entry_invalid /\
      errors g = [ {| err_node := 11; err_msg := "use of undeclared identifier 'y'" |} ]
  | _ => False
  end.
Proof. vm_compute. auto. Qed.

Lemma analyze_str_cat_witness :
  match analyze_bin_op_expr (analyze_expression size_in_bits 3) example_session 0
          example_fn_context str_cat_example with
  | Ok (t, node, g) =>
      t = TypeUnknownSizeArray entry_u8 true /\
      const_slice_elems (const_val (get_resolved_expr node)) = Some (buf_chars "foobar") /\
      errors g = []
  | _ => False
  end.
Proof.
  unfold str_cat_example, string_node.
  edestruct analyze_str_cat
    with (ae := analyze_expression size_in_bits 3) (g := example_session) (import := 0)
         (context := example_fn_context) (i := 10)
         (op1 := mkAstNode 11 (string_literal "foo" false) expr_zero)
         (op2 := mkAstNode 12 (string_literal "bar" false) expr_zero)
         (re := expr_zero) as [H _].
  - vm_compute. reflexivity.
  - vm_compute. reflexivity.
  - vm_compute. discriminate.
  - vm_compute. discriminate.
  - erewrite (H (buf_chars "foo") (buf_chars "bar")).
    + vm_compute. auto.
    + vm_compute. reflexivity.
    + vm_compute. reflexivity.
    + vm_compute. reflexivity.
Defined.

Lemma analyze_str_cat_literals_witness :
  exists node g',
    analyze_expression size_in_bits 4 example_session 0 example_fn_context None
      str_cat_example
    = Ok (TypeUnknownSizeArray entry_u8 true, node, g') /\
    get_resolved_expr node
    = {| type_entry := Some (TypeUnknownSizeArray entry_u8 true);
         const_val := str_cat_value false (buf_chars "foobar") |} /\
    errors g' = [].
Proof.
  apply (analyze_str_cat_literals size_in_bits 0 example_session 0 example_fn_context
           10 11 12 "foo" "bar" expr_zero expr_zero expr_zero).
  vm_compute. reflexivity.
Defined.

Lemma analyze_cast_expr_int_to_int_witness :
  match analyze_cast_expr size_in_bits (analyze_expression size_in_bits 3)
          example_session 0 example_const_context cast_example with
  | Ok (t, node, g) =>
      t = entry_u8 /\ const_val (get_resolved_expr node) = const_char 300 /\
      errors g = []
  | _ => False
  end.
Proof.
  unfold cast_example, symbol_node.
  erewrite analyze_cast_expr_int_to_int
    with (wanted_type := entry_u8) (actual_type := entry_i32); cycle 1.
  - reflexivity.
  - vm_compute. reflexivity.
  - reflexivity.
  - reflexivity.
  - vm_compute. auto.
Defined.

Lemma analyze_expression_kept_witness :
  session_kept example_session
    (result_session example_session (analyze_example None if_var_not_maybe_example)).
Proof.
  eapply (analyze_expression_kept size_in_bits 8 example_session 0 example_fn_context
            None if_var_not_maybe_example).
  vm_compute. reflexivity.
Defined.

(** Casting constness only is a partial order on the types: every type
    casts to itself, two types that cast to each other are the same, and the
    casts compose. *)
Theorem types_match_const_cast_only_partial_order :
  (forall t, types_match_const_cast_only t t = Ok true) /\
  (forall e a,
     types_match_const_cast_only e a = Ok true ->
     types_match_const_cast_only a e = Ok true -> e = a) /\
  (forall e m a,
     types_match_const_cast_only e m = Ok true ->
     types_match_const_cast_only m a = Ok true ->
     types_match_const_cast_only e a = Ok true).
Proof.
  split; [apply types_match_const_cast_only_refl|].
  split; [apply types_match_const_cast_only_antisym|].
  apply types_match_const_cast_only_trans.
Qed.

Lemma types_match_const_cast_only_partial_order_witness :
  types_match_const_cast_only (TypePointer (TypePointer entry_u8 true) true)
    (TypePointer (TypePointer entry_u8 false) false) = Ok true.
Proof.
  apply (proj2 (proj2 types_match_const_cast_only_partial_order)
           _ (TypePointer (TypePointer entry_u8 false) true)); reflexivity.
Defined.
(** * Resolution of the declared containers: facts *)

Lemma primitive_type_table_ext g g' :
  pointer_size_bytes g' = pointer_size_bytes g ->
  primitive_type_table g' = primitive_type_table g.
Proof. intros H. unfold primitive_type_table, entry_isize, entry_usize. by rewrite H. Qed.

Lemma primitive_type_kind g symbol t :
  primitive_type_table g !! symbol = Some t ->
  type_id t <> TypeTableEntryIdStruct /\ type_id t <> TypeTableEntryIdEnum /\
  type_id t <> TypeTableEntryIdInvalid.
Proof.
  unfold primitive_type_table. intros H%elem_of_list_to_map_2.
  repeat (apply elem_of_cons in H as [[= _ ->]|H]; [by repeat split|]).
  by apply elem_of_nil in H.
Qed.

(** The analysis of a type expression that is a name, in a root scope where
    the name of the container is that of entry [self]. *)
Lemma analyze_type_expr_named sz fuel_e g import context name self f t :
  primitive_type_table g !! name = None ->
  find_variable context name = None ->
  find_container context name = Some self ->
  named_field_type g name self f = Some t ->
  exists type_node,
    analyze_type_expr (analyze_expression sz (S fuel_e)) g import context
      (struct_field_type f) = Ok (t, type_node, g).
Proof.
  intros Hp Hv Hc. unfold named_field_type.
  destruct (struct_field_type f) as [j [symbol [o|]| | | | | | | |] re]; try discriminate.
  unfold analyze_type_expr. cbn [analyze_expression]. unfold analyze_expression_body.
  cbn [node_data]. unfold analyze_symbol_expr.
  destruct (primitive_type_table g !! symbol) as [p|] eqn:Hs.
  - intros [= <-]. cbn. eauto.
  - case_decide as Hn; [|discriminate]. subst symbol. intros [= <-].
    rewrite Hv, Hc. cbn. eauto.
Qed.

Lemma named_field_type_cases g name self f t :
  named_field_type g name self f = Some t ->
  t = self \/ exists symbol, primitive_type_table g !! symbol = Some t.
Proof.
  unfold named_field_type.
  destruct (struct_field_type f) as [j [symbol [o|]| | | | | | | |] re]; try discriminate.
  destruct (primitive_type_table g !! symbol) eqn:E.
  - intros [= <-]. eauto.
  - case_decide; [|discriminate]. intros [= <-]. by left.
Qed.

Lemma named_field_type_ext g g' name self f :
  pointer_size_bytes g' = pointer_size_bytes g ->
  named_field_type g' name self f = named_field_type g name self f.
Proof. intros H. unfold named_field_type. by rewrite (primitive_type_table_ext _ _ H). Qed.

Lemma resolving_put g0 decl s0 g types reported s fields types' :
  resolving g0 decl s0 g types reported ->
  struct_decl_node (structure_decl_node s) = struct_decl_node (structure_decl_node s0) ->
  structure_embedded_in_current s = true ->
  structure_reported_infinite_err s = reported ->
  structure_is_invalid s = structure_is_invalid s0 ->
  structure_fields s = Some fields ->
  field_type_entry <$> fields = types' ->
  resolving g0 decl s0 (put_struct g decl s) types' reported.
Proof.
  intros (Hi & He & Hz & Herr & _) Hn Hemb Hrep Hinv Hfs Hts.
  repeat split; try done.
  exists s, fields. repeat split; try done.
  cbn. by rewrite lookup_insert_eq.
Qed.

Lemma resolving_report g0 decl s0 g types s :
  resolving g0 decl s0 g types false ->
  structs g !! decl = Some s ->
  resolving g0 decl s0
    (add_node_error (put_struct g decl (structure_with_reported s))
       (struct_decl_node (structure_decl_node s)) "struct has infinite size")
    types true.
Proof.
  intros (Hi & He & Hz & Herr & s' & fields & Hs & Hn & Hemb & Hrep & Hinv & Hfs & Hts) Hs2.
  rewrite Hs in Hs2. injection Hs2 as <-.
  repeat split; try done.
  - cbn. rewrite Herr, app_nil_r. unfold infinite_size_error. by rewrite Hn.
  - exists (structure_with_reported s'), fields. repeat split; try done.
    cbn. by rewrite lookup_insert_eq.
Qed.

Lemma resolving_lookup g0 decl s0 g types reported :
  resolving g0 decl s0 g types reported ->
  exists s fields,
    get_struct g decl = Ok s /\ structs g !! decl = Some s /\
    struct_decl_node (structure_decl_node s) = struct_decl_node (structure_decl_node s0) /\
    structure_embedded_in_current s = true /\
    structure_reported_infinite_err s = reported /\
    structure_is_invalid s = structure_is_invalid s0 /\
    structure_fields s = Some fields /\
    field_type_entry <$> fields = types.
Proof.
  intros (Hi & He & Hz & Herr & s & fields & Hs & H).
  exists s, fields. unfold get_struct. by rewrite Hs.
Qed.

Lemma alter_field_type_entry (h : TypeStructField -> TypeStructField) (i : nat)
    (fields : list TypeStructField) :
  (forall f, field_type_entry (h f) = field_type_entry f) ->
  field_type_entry <$> alter h i fields = field_type_entry <$> fields.
Proof.
  intros Hh. revert i. induction fields as [|f fields IH]; intros [|i]; try done.
  - cbn. by rewrite Hh.
  - cbn. f_equal. apply IH.
Qed.

Lemma resolve_struct_type_S entry_type_ref ae fuel g import t :
  resolve_struct_type entry_type_ref ae (S fuel) g import t
  = resolve_struct_type_body entry_type_ref ae
      (resolve_struct_type entry_type_ref ae fuel)
      (resolve_enum_type entry_type_ref ae fuel) g import t.
Proof. reflexivity. Qed.

Lemma resolve_struct_type_embedded entry_type_ref ae fuel g import decl name g0 s0
    types reported :
  resolving g0 decl s0 g types reported ->
  exists g',
    resolve_struct_type entry_type_ref ae (S fuel) g import (TypeStruct decl name) = Ok g' /\
    resolving g0 decl s0 g' types true.
Proof.
  intros Hst.
  destruct (resolving_lookup _ _ _ _ _ _ Hst)
    as (s & fields & Hg & Hs & Hn & Hemb & Hrep & Hinv & Hfs & Hts).
  rewrite resolve_struct_type_S. unfold resolve_struct_type_body.
  rewrite Hg. cbn [bind]. rewrite Hemb, Hrep.
  destruct reported.
  - by eexists.
  - eexists. split; [reflexivity|]. by apply resolving_report.
Qed.

Section self_embedding.
Variable entry_type_ref : TypeTableEntry -> bool.
Variable sz : TypeTableEntry -> Z.
Variables fuel_e fuel : nat.
Variable g0 : CodeGen.
Variable import : Z.
Variable imp : ImportTableEntry.
Variable decl : Z.
Variable name : string.
Variable s0 : TypeTableEntryStruct.
Hypothesis Himp : imports g0 !! import = Some imp.
Hypothesis Hp : primitive_type_table g0 !! name = None.
Hypothesis Hv : find_variable (block_context imp) name = None.
Hypothesis Hc : find_container (block_context imp) name = Some (TypeStruct decl name).

Lemma resolve_struct_fields_named rest types_rest :
  Forall2 (fun f t => named_field_type g0 name (TypeStruct decl name) f = Some t) rest types_rest ->
  Forall (fun t => entry_type_ref t = true \/ type_id t = TypeTableEntryIdVoid) types_rest ->
  forall i gen g1 types reported,
  resolving g0 decl s0 g1 types reported ->
  length types = i ->
  exists gen' g2,
    resolve_struct_fields entry_type_ref (analyze_expression sz (S fuel_e))
      (resolve_struct_type entry_type_ref (analyze_expression sz (S fuel_e)) (S fuel))
      (resolve_enum_type entry_type_ref (analyze_expression sz (S fuel_e)) (S fuel))
      g1 import decl rest i gen = Ok (gen', g2) /\
    gen' = gen + Z.of_nat (length (filter (fun t => type_id t <> TypeTableEntryIdVoid)
                                     types_rest)) /\
    resolving g0 decl s0 g2 (types ++ types_rest)
      (reported || bool_decide (TypeStruct decl name ∈ types_rest)).
Proof.
  induction 1 as [|f t rest types_rest Hf Hrest IH]; intros Hok i gen g1 types reported Hst Hlen.
  - eexists _, _. split; [reflexivity|]. split; [cbn; lia|].
    rewrite app_nil_r, bool_decide_eq_false_2, orb_false_r by (by intros ?%elem_of_nil).
    done.
  - apply Forall_cons in Hok as [Hokt Hok].
    pose proof Hst as (Hi & He & Hz & Herr & _).
    destruct (resolving_lookup _ _ _ _ _ _ Hst)
      as (s & fields & Hg & Hs & Hn & Hemb & Hrep & Hinv & Hfs & Hts).
    cbn [resolve_struct_fields].
    unfold get_import at 1. rewrite Hi, Himp. cbn [bind].
    destruct (analyze_type_expr_named sz fuel_e g1 import (block_context imp) name
                (TypeStruct decl name) f t)
      as [type_node Ha]; try done.
    { by rewrite (primitive_type_table_ext _ _ Hz). }
    { by rewrite (named_field_type_ext _ _ _ _ _ Hz). }
    rewrite Ha. cbn [bind]. rewrite Hg. cbn [bind].
    match goal with |- context [put_struct g1 decl ?x] => set (s1 := x) end.
    assert (Hst1 : resolving g0 decl s0 (put_struct g1 decl s1) (types ++ [t]) reported).
    { eapply (resolving_put _ _ _ _ _ _ _ _ _ Hst); [done|done|done|done| |].
      - subst s1. cbn. rewrite Hfs. reflexivity.
      - cbn. by rewrite fmap_app, Hts. }
    assert (Hnext : forall g rep,
      resolving g0 decl s0 g (types ++ [t]) rep ->
      entry_type_ref t = true ->
      exists gen' g2,
        (let! s := get_struct g decl in
         let g := put_struct g decl (structure_with_gen_index s i gen) in
         let! _ := assert (entry_type_ref t) in
         resolve_struct_fields entry_type_ref (analyze_expression sz (S fuel_e))
           (resolve_struct_type entry_type_ref (analyze_expression sz (S fuel_e)) (S fuel))
           (resolve_enum_type entry_type_ref (analyze_expression sz (S fuel_e)) (S fuel))
           g import decl rest (S i) (gen + 1)) = Ok (gen', g2) /\
        gen' = gen + 1 + Z.of_nat (length (filter (fun t => type_id t <> TypeTableEntryIdVoid)
                                             types_rest)) /\
        resolving g0 decl s0 g2 ((types ++ [t]) ++ types_rest)
          (rep || bool_decide (TypeStruct decl name ∈ types_rest))).
    { intros g rep Hstg Href.
      destruct (resolving_lookup _ _ _ _ _ _ Hstg)
        as (s' & fields' & Hg' & Hs' & Hn' & Hemb' & Hrep' & Hinv' & Hfs' & Hts').
      rewrite Hg', Href. cbn [bind assert].
      apply IH; [done| |rewrite length_app; cbn; lia].
      eapply (resolving_put _ _ _ _ _ _ _ _ _ Hstg); [done|done|done|done| |].
      - cbn. rewrite Hfs'. reflexivity.
      - by rewrite alter_field_type_entry. }
    replace (types ++ t :: types_rest)%list with ((types ++ [t]) ++ types_rest)%list
      by (by rewrite <- app_assoc).
    destruct (named_field_type_cases _ _ _ _ _ Hf) as [->|[symbol Hsym]].
    + cbn [type_id]. destruct (decide _) as [_|?]; [|done].
      destruct (resolve_struct_type_embedded entry_type_ref
                  (analyze_expression sz (S fuel_e)) fuel _ import _ name _ _ _ _ Hst1)
        as (g' & -> & Hst2).
      cbn [bind].
      destruct (Hnext g' true Hst2) as (gen' & g2 & Hrun & Hgen & Hst3).
      { by destruct Hokt. }
      exists gen', g2. split; [done|]. split.
      { rewrite filter_cons_True by done. cbn [length]. lia. }
      rewrite bool_decide_eq_true_2 by left. by rewrite orb_true_r.
    + rewrite <- (primitive_type_table_ext _ _ Hz) in Hsym.
      destruct (primitive_type_kind _ _ _ Hsym) as (HnS & HnE & HnI).
      assert (Hmem : bool_decide (TypeStruct decl name ∈ t :: types_rest)
                     = bool_decide (TypeStruct decl name ∈ types_rest)).
      { apply bool_decide_ext. rewrite elem_of_cons. split; [|tauto].
        intros [<-|?]; [|done]. by destruct HnS. }
      rewrite Hmem.
      repeat (destruct (decide _) as [?|_]; [done|]).
      destruct (decide _) as [HV|HV].
      * rewrite filter_cons_False by (by intros H; apply H).
        apply IH; [done|done|rewrite length_app; cbn; lia].
      * destruct (Hnext _ reported Hst1) as (gen' & g2 & Hrun & Hgen & Hst3).
        { by destruct Hokt. }
        exists gen', g2. split; [done|]. split; [|done].
        rewrite filter_cons_True by done. cbn [length]. lia.
Qed.

End self_embedding.



(** A struct whose fields are declared with the names of primitive types or
    with its own name, when the type of each field is [void] or an entry
    whose [type_ref] is set (that of [type] has none, and the assertion on
    the LLVM type of the field fails on it): [resolve_struct_type] completes
    it and keeps it valid, [gen_field_count] is the number of its fields that
    are not [void], the error that it has infinite size is reported if and
    only if one of the fields has the struct itself as its type, and once
    however many do; a second call changes nothing. *)
Theorem resolve_struct_type_self_embedding entry_type_ref sz fuel_e fuel g import imp
    decl name s types :
  imports g !! import = Some imp ->
  primitive_type_table g !! name = None ->
  find_variable (block_context imp) name = None ->
  find_container (block_context imp) name = Some (TypeStruct decl name) ->
  structs g !! decl = Some s ->
  structure_fields s = None ->
  structure_embedded_in_current s = false ->
  structure_reported_infinite_err s = false ->
  Forall2 (fun f t => named_field_type g name (TypeStruct decl name) f = Some t)
    (struct_decl_fields (structure_decl_node s)) types ->
  Forall (fun t => entry_type_ref t = true \/ type_id t = TypeTableEntryIdVoid) types ->
  exists g' s',
    resolve_struct_type entry_type_ref (analyze_expression sz (S fuel_e)) (S (S fuel))
      g import (TypeStruct decl name) = Ok g' /\
    errors g' = (errors g ++ if bool_decide (TypeStruct decl name ∈ types)
                             then [infinite_size_error s] else [])%list /\
    structs g' !! decl = Some s' /\
    structure_complete s' = true /\
    structure_embedded_in_current s' = false /\
    structure_is_invalid s' = structure_is_invalid s /\
    field_type_entry <$> default [] (structure_fields s') = types /\
    structure_gen_field_count s'
    = Z.of_nat (length (filter (fun t => type_id t <> TypeTableEntryIdVoid) types)) /\
    resolve_struct_type entry_type_ref (analyze_expression sz (S fuel_e)) (S (S fuel))
      g' import (TypeStruct decl name) = Ok g'.
Proof.
  intros Himp Hp Hv Hc Hs Hfs Hemb Hrep Hfields Hrefs.
  set (g1 := put_struct g decl
               (structure_started s
                  (Z.of_nat (length (struct_decl_fields (structure_decl_node s)))))).
  assert (Hst : resolving g decl s g1 [] false).
  { repeat split; [by rewrite app_nil_r|].
    exists (structure_started s
              (Z.of_nat (length (struct_decl_fields (structure_decl_node s))))), [].
    repeat split; try done. cbn. by rewrite lookup_insert_eq. }
  destruct (resolve_struct_fields_named entry_type_ref sz fuel_e fuel g import imp decl
              name s Himp Hp Hv Hc _ _ Hfields Hrefs 0%nat 0 g1 [] false Hst eq_refl)
    as (gen' & g2 & Hrun & Hgen & Hst2).
  destruct (resolving_lookup _ _ _ _ _ _ Hst2)
    as (s2 & fields & Hg2 & Hs2 & Hn2 & Hemb2 & Hrep2 & Hinv2 & Hfs2 & Hts2).
  destruct Hst2 as (Hi2 & He2 & Hz2 & Herr2 & _).
  exists (put_struct g2 decl (structure_finished s2 gen')), (structure_finished s2 gen').
  split.
  { rewrite resolve_struct_type_S. unfold resolve_struct_type_body, get_struct at 1.
    rewrite Hs. cbn [bind]. rewrite Hemb, Hfs.
    rewrite bool_decide_eq_false_2 by (by intros [? ?]).
    fold g1. rewrite Hrun. cbn [bind]. by rewrite Hg2. }
  split; [exact Herr2|].
  split; [cbn; by rewrite lookup_insert_eq|].
  split; [done|]. split; [done|]. split; [done|].
  split; [cbn; by rewrite Hfs2|].
  split; [cbn; lia|].
  rewrite resolve_struct_type_S. unfold resolve_struct_type_body, get_struct.
  cbn [structs put_struct set_structs]. rewrite lookup_insert_eq. cbn [bind].
  cbn [structure_embedded_in_current structure_finished structure_fields].
  rewrite Hfs2. by rewrite bool_decide_eq_true_2.
Qed.

(** The struct [S] of the example names itself twice; it is reported once. *)
Lemma resolve_struct_type_self_embedding_witness :
  exists g',
    resolve_struct_type all_type_refs (analyze_expression size_in_bits 1) 2
      self_embedding_session 0 (TypeStruct 50 "S") = Ok g' /\
    errors g' = [ {| err_node := 50; err_msg := "struct has infinite size" |} ].
Proof.
  edestruct resolve_struct_type_self_embedding
    with (entry_type_ref := all_type_refs) (sz := size_in_bits) (fuel_e := 0%nat)
         (fuel := 0%nat) (g := self_embedding_session) (import := 0)
         (imp := self_embedding_import) (decl := 50) (name := "S")
         (s := self_embedding_entry)
         (types := [TypeStruct 50 "S"; entry_i32; TypeStruct 50 "S"])
    as (g' & s' & Hrun & Herr & _).
  - vm_compute. reflexivity.
  - vm_compute. reflexivity.
  - vm_compute. reflexivity.
  - vm_compute. reflexivity.
  - vm_compute. reflexivity.
  - reflexivity.
  - reflexivity.
  - reflexivity.
  - repeat constructor; vm_compute; reflexivity.
  - repeat constructor.
  - exists g'. split; [exact Hrun|]. rewrite Herr. vm_compute. reflexivity.
Defined.

(** C2, at the failing input: the struct [S { a: S, t: type }] embeds
    itself.  The entry of [type] has no [type_ref]; with that,
    [resolve_struct_type] fails the assertion on the LLVM type of a field
    and does not return: [complete] is never set. *)
Theorem resolve_struct_type_type_field_aborts (entry_type_ref : TypeTableEntry -> bool) :
  entry_type_ref entry_type = false ->
  resolve_struct_type entry_type_ref (analyze_expression size_in_bits 1) 2
    type_field_session 0 (TypeStruct 50 "S")
  = Panic "assertion failed".
Proof.
  intros Href. vm_compute.
  match goal with
  | |- context [entry_type_ref (TypeStruct ?d ?n)] =>
      destruct (entry_type_ref (TypeStruct d n)); [|reflexivity]
  end.
  vm_compute in Href. rewrite Href. reflexivity.
Qed.

Lemma resolve_struct_type_type_field_aborts_witness :
  resolve_struct_type (fun t => negb (type_eqb t entry_type))
    (analyze_expression size_in_bits 1) 2 type_field_session 0 (TypeStruct 50 "S")
  = Panic "assertion failed".
Proof. apply resolve_struct_type_type_field_aborts. reflexivity. Defined.

Lemma resolving_enum_put g0 decl s0 g fields reported s fields' :
  resolving_enum g0 decl s0 g fields reported ->
  struct_decl_node (enumeration_decl_node s) = struct_decl_node (enumeration_decl_node s0) ->
  enumeration_embedded_in_current s = true ->
  enumeration_reported_infinite_err s = reported ->
  enumeration_is_invalid s = enumeration_is_invalid s0 ->
  enumeration_fields s = Some fields' ->
  resolving_enum g0 decl s0 (put_enum g decl s) fields' reported.
Proof.
  intros (Hi & He & Hz & Herr & _) Hn Hemb Hrep Hinv Hfs.
  repeat split; try done.
  exists s. repeat split; try done.
  cbn. by rewrite lookup_insert_eq.
Qed.

Lemma resolving_enum_report g0 decl s0 g fields s :
  resolving_enum g0 decl s0 g fields false ->
  enums g !! decl = Some s ->
  resolving_enum g0 decl s0
    (add_node_error (put_enum g decl (enumeration_with_reported s))
       (struct_decl_node (enumeration_decl_node s)) "enum has infinite size")
    fields true.
Proof.
  intros (Hi & He & Hz & Herr & s' & Hs & Hn & Hemb & Hrep & Hinv & Hfs) Hs2.
  rewrite Hs in Hs2. injection Hs2 as <-.
  repeat split; try done.
  - cbn. rewrite Herr, app_nil_r. unfold enum_infinite_size_error. by rewrite Hn.
  - exists (enumeration_with_reported s'). repeat split; try done.
    cbn. by rewrite lookup_insert_eq.
Qed.

Lemma resolving_enum_lookup g0 decl s0 g fields reported :
  resolving_enum g0 decl s0 g fields reported ->
  exists s,
    get_enum g decl = Ok s /\ enums g !! decl = Some s /\
    struct_decl_node (enumeration_decl_node s) = struct_decl_node (enumeration_decl_node s0) /\
    enumeration_embedded_in_current s = true /\
    enumeration_reported_infinite_err s = reported /\
    enumeration_is_invalid s = enumeration_is_invalid s0 /\
    enumeration_fields s = Some fields.
Proof.
  intros (Hi & He & Hz & Herr & s & Hs & H).
  exists s. unfold get_enum. by rewrite Hs.
Qed.

Lemma resolve_enum_type_S entry_type_ref ae fuel g import t :
  resolve_enum_type entry_type_ref ae (S fuel) g import t
  = resolve_enum_type_body ae
      (resolve_struct_type entry_type_ref ae fuel)
      (resolve_enum_type entry_type_ref ae fuel) g import t.
Proof. reflexivity. Qed.

Lemma resolve_enum_type_embedded entry_type_ref ae fuel g import decl name g0 s0
    fields reported :
  resolving_enum g0 decl s0 g fields reported ->
  exists g',
    resolve_enum_type entry_type_ref ae (S fuel) g import (TypeEnum decl name) = Ok g' /\
    resolving_enum g0 decl s0 g' fields true.
Proof.
  intros Hst.
  destruct (resolving_enum_lookup _ _ _ _ _ _ Hst)
    as (s & Hg & Hs & Hn & Hemb & Hrep & Hinv & Hfs).
  rewrite resolve_enum_type_S. unfold resolve_enum_type_body.
  rewrite Hg. cbn [bind]. rewrite Hemb, Hrep.
  destruct reported.
  - by eexists.
  - eexists. split; [reflexivity|]. by apply resolving_enum_report.
Qed.

Section enum_self_embedding.
Variable entry_type_ref : TypeTableEntry -> bool.
Variable sz : TypeTableEntry -> Z.
Variables fuel_e fuel : nat.
Variable g0 : CodeGen.
Variable import : Z.
Variable imp : ImportTableEntry.
Variable decl : Z.
Variable name : string.
Variable s0 : TypeTableEntryEnum.
Hypothesis Himp : imports g0 !! import = Some imp.
Hypothesis Hp : primitive_type_table g0 !! name = None.
Hypothesis Hv : find_variable (block_context imp) name = None.
Hypothesis Hc : find_container (block_context imp) name = Some (TypeEnum decl name).

Lemma resolve_enum_fields_named rest types_rest :
  Forall2 (fun f t => named_field_type g0 name (TypeEnum decl name) f = Some t)
    rest types_rest ->
  forall i gen g1 fields reported,
  resolving_enum g0 decl s0 g1 fields reported ->
  length fields = i ->
  exists gen' g2,
    resolve_enum_fields (analyze_expression sz (S fuel_e))
      (resolve_struct_type entry_type_ref (analyze_expression sz (S fuel_e)) (S fuel))
      (resolve_enum_type entry_type_ref (analyze_expression sz (S fuel_e)) (S fuel))
      g1 import decl rest i gen = Ok (gen', g2) /\
    gen' = gen + Z.of_nat (length (filter (fun t => type_id t <> TypeTableEntryIdVoid)
                                     types_rest)) /\
    resolving_enum g0 decl s0 g2 (fields ++ enum_fields_from i rest types_rest)
      (reported || bool_decide (TypeEnum decl name ∈ types_rest)).
Proof.
  induction 1 as [|f t rest types_rest Hf Hrest IH]; intros i gen g1 fields reported Hst Hlen.
  - eexists _, _. split; [reflexivity|]. split; [cbn; lia|].
    unfold enum_fields_from. cbn.
    rewrite app_nil_r, bool_decide_eq_false_2, orb_false_r by (by intros ?%elem_of_nil).
    done.
  - pose proof Hst as (Hi & He & Hz & Herr & _).
    destruct (resolving_enum_lookup _ _ _ _ _ _ Hst)
      as (s & Hg & Hs & Hn & Hemb & Hrep & Hinv & Hfs).
    cbn [resolve_enum_fields].
    unfold get_import at 1. rewrite Hi, Himp. cbn [bind].
    destruct (analyze_type_expr_named sz fuel_e g1 import (block_context imp) name
                (TypeEnum decl name) f t)
      as [type_node Ha]; try done.
    { by rewrite (primitive_type_table_ext _ _ Hz). }
    { by rewrite (named_field_type_ext _ _ _ _ _ Hz). }
    rewrite Ha. cbn [bind]. rewrite Hg. cbn [bind].
    match goal with |- context [put_enum g1 decl ?x] => set (s1 := x) end.
    set (e := {| enum_field_name := struct_field_name f; enum_field_type_entry := t;
                 enum_field_value := wrap32 (Z.of_nat i) |}).
    assert (Hst1 : resolving_enum g0 decl s0 (put_enum g1 decl s1) (fields ++ [e]) reported).
    { eapply (resolving_enum_put _ _ _ _ _ _ _ _ Hst); [done|done|done|done|].
      subst s1. cbn. rewrite Hfs. reflexivity. }
    assert (Hfrom : (fields ++ enum_fields_from i (f :: rest) (t :: types_rest)
                     = (fields ++ [e]) ++ enum_fields_from (S i) rest types_rest)%list).
    { rewrite <- app_assoc. f_equal. unfold enum_fields_from. cbn [zip zip_with imap].
      cbn [app fst snd]. rewrite Nat.add_0_r. fold e. f_equal.
      apply imap_ext. intros k [f' t'] _. cbn. do 3 f_equal. lia. }
    rewrite Hfrom.
    assert (Hlen1 : length (fields ++ [e]) = S i) by (rewrite length_app; cbn; lia).
    destruct (named_field_type_cases _ _ _ _ _ Hf) as [->|[symbol Hsym]].
    + cbn [type_id]. destruct (decide _) as [?|_]; [done|].
      destruct (decide _) as [_|?]; [|done].
      destruct (resolve_enum_type_embedded entry_type_ref
                  (analyze_expression sz (S fuel_e)) fuel _ import _ name _ _ _ _ Hst1)
        as (g' & -> & Hst2).
      cbn [bind].
      destruct (IH (S i) (gen + 1) g' _ true Hst2 Hlen1) as (gen' & g2 & Hrun & Hgen & Hst3).
      exists gen', g2. split; [done|]. split.
      { rewrite filter_cons_True by done. cbn [length]. lia. }
      rewrite bool_decide_eq_true_2 by left. by rewrite orb_true_r.
    + rewrite <- (primitive_type_table_ext _ _ Hz) in Hsym.
      destruct (primitive_type_kind _ _ _ Hsym) as (HnS & HnE & HnI).
      assert (Hmem : bool_decide (TypeEnum decl name ∈ t :: types_rest)
                     = bool_decide (TypeEnum decl name ∈ types_rest)).
      { apply bool_decide_ext. rewrite elem_of_cons. split; [|tauto].
        intros [<-|?]; [|done]. by destruct HnE. }
      rewrite Hmem.
      repeat (destruct (decide _) as [?|_]; [done|]).
      destruct (decide _) as [HV|HV].
      * rewrite filter_cons_False by (by intros H; apply H).
        by apply IH.
      * destruct (IH (S i) (gen + 1) _ _ reported Hst1 Hlen1)
          as (gen' & g2 & Hrun & Hgen & Hst3).
        exists gen', g2. split; [done|]. split; [|done].
        rewrite filter_cons_True by done. cbn [length]. lia.
Qed.

End enum_self_embedding.

Lemma enum_fields_from_names i fields types :
  length fields = length types ->
  enum_field_name <$> enum_fields_from i fields types = struct_field_name <$> fields.
Proof.
  intros Hlen. unfold enum_fields_from. rewrite fmap_imap.
  rewrite <- (fst_zip fields types) at 2 by lia.
  rewrite <- list_fmap_compose. by rewrite <- imap_const.
Qed.

Lemma enum_fields_from_types i fields types :
  length fields = length types ->
  enum_field_type_entry <$> enum_fields_from i fields types = types.
Proof.
  intros Hlen. unfold enum_fields_from. rewrite fmap_imap.
  rewrite <- (snd_zip fields types) at 2 by lia.
  by rewrite <- imap_const.
Qed.

Lemma enum_fields_from_values fields types :
  length fields = length types ->
  Z.of_nat (length fields) < 2 ^ 32 ->
  enum_field_value <$> enum_fields_from 0 fields types = Z.of_nat <$> seq 0 (length fields).
Proof.
  intros Hlen Hn. unfold enum_fields_from. rewrite fmap_imap.
  replace (length fields) with (length (zip fields types))
    by (rewrite length_zip_with; lia).
  rewrite <- imap_seq_0.
  apply imap_ext. intros k ft Hk%lookup_lt_Some. cbn.
  rewrite length_zip_with in Hk.
  unfold wrap32. rewrite Z.mod_small; lia.
Qed.

(** An enum whose fields are declared with the names of primitive types or
    with its own name: [resolve_enum_type] completes it, field number [k]
    gets the value [k] and the type that its name stands for, the tag is of
    the smallest unsigned type for the number of fields, [gen_field_count]
    is the number of fields that are not [void], and the error that the enum
    has infinite size is reported if and only if a field has the enum itself
    as its type, and once however many do; a second call changes nothing. *)
Theorem resolve_enum_type_self_embedding entry_type_ref sz fuel_e fuel g import imp
    decl name s types :
  imports g !! import = Some imp ->
  primitive_type_table g !! name = None ->
  find_variable (block_context imp) name = None ->
  find_container (block_context imp) name = Some (TypeEnum decl name) ->
  enums g !! decl = Some s ->
  enumeration_fields s = None ->
  enumeration_embedded_in_current s = false ->
  enumeration_reported_infinite_err s = false ->
  enumeration_is_invalid s = false ->
  Forall2 (fun f t => named_field_type g name (TypeEnum decl name) f = Some t)
    (struct_decl_fields (enumeration_decl_node s)) types ->
  Z.of_nat (length (struct_decl_fields (enumeration_decl_node s))) < 2 ^ 32 ->
  exists g' s' fields tag,
    resolve_enum_type entry_type_ref (analyze_expression sz (S fuel_e)) (S (S fuel))
      g import (TypeEnum decl name) = Ok g' /\
    errors g' = (errors g ++ if bool_decide (TypeEnum decl name ∈ types)
                             then [enum_infinite_size_error s] else [])%list /\
    enums g' !! decl = Some s' /\
    enumeration_complete s' = true /\
    enumeration_embedded_in_current s' = false /\
    enumeration_is_invalid s' = false /\
    enumeration_fields s' = Some fields /\
    enum_field_name <$> fields
    = struct_field_name <$> struct_decl_fields (enumeration_decl_node s) /\
    enum_field_type_entry <$> fields = types /\
    enum_field_value <$> fields
    = Z.of_nat <$> seq 0 (length (struct_decl_fields (enumeration_decl_node s))) /\
    get_smallest_unsigned_int_type
      (Z.of_nat (length (struct_decl_fields (enumeration_decl_node s)))) = Ok tag /\
    enumeration_tag_type s' = Some tag /\
    enumeration_gen_field_count s'
    = Z.of_nat (length (filter (fun t => type_id t <> TypeTableEntryIdVoid) types)) /\
    resolve_enum_type entry_type_ref (analyze_expression sz (S fuel_e)) (S (S fuel))
      g' import (TypeEnum decl name) = Ok g'.
Proof.
  intros Himp Hp Hv Hc Hs Hfs Hemb Hrep Hinv Hfields Hn.
  set (decl_fields := struct_decl_fields (enumeration_decl_node s)) in *.
  assert (Hw : wrap32 (Z.of_nat (length decl_fields)) = Z.of_nat (length decl_fields))
    by (unfold wrap32; rewrite Z.mod_small; lia).
  set (g1 := put_enum g decl (enumeration_started s (Z.of_nat (length decl_fields)))).
  assert (Hst : resolving_enum g decl s g1 [] false).
  { repeat split; [by rewrite app_nil_r|].
    exists (enumeration_started s (Z.of_nat (length decl_fields))).
    repeat split; try done. cbn. by rewrite lookup_insert_eq. }
  destruct (resolve_enum_fields_named entry_type_ref sz fuel_e fuel g import imp decl
              name s Himp Hp Hv Hc _ _ Hfields 0%nat 0 g1 [] false Hst eq_refl)
    as (gen' & g2 & Hrun & Hgen & Hst2).
  cbn [app] in Hst2.
  destruct (resolving_enum_lookup _ _ _ _ _ _ Hst2)
    as (s2 & Hg2 & Hs2 & Hn2 & Hemb2 & Hrep2 & Hinv2 & Hfs2).
  destruct Hst2 as (Hi2 & He2 & Hz2 & Herr2 & _).
  pose proof (Forall2_length _ _ _ Hfields) as Hlen.
  set (tag := entry_int false (bits_needed_for_unsigned (Z.of_nat (length decl_fields)))).
  set (s' := enumeration_finished s2 (Some (gen', tag))).
  exists (put_enum g2 decl s'), s', (enum_fields_from 0 decl_fields types), tag.
  split.
  { rewrite resolve_enum_type_S. unfold resolve_enum_type_body, get_enum at 1.
    rewrite Hs. cbn [bind]. rewrite Hemb, Hfs.
    rewrite bool_decide_eq_false_2 by (by intros [? ?]).
    fold decl_fields. rewrite Hw. fold g1. rewrite Hrun. cbn [bind]. rewrite Hg2.
    cbn [bind]. rewrite Hinv2, Hinv.
    by rewrite get_smallest_unsigned_int_type_total. }
  split; [exact Herr2|].
  split; [cbn; by rewrite lookup_insert_eq|].
  split; [done|]. split; [done|]. split; [cbn; by rewrite Hinv2|].
  split; [done|].
  split; [by apply enum_fields_from_names|].
  split; [by apply enum_fields_from_types|].
  split; [by apply enum_fields_from_values|].
  split; [apply get_smallest_unsigned_int_type_total|].
  split; [done|].
  split; [cbn; lia|].
  rewrite resolve_enum_type_S. unfold resolve_enum_type_body, get_enum.
  cbn [enums put_enum set_enums]. rewrite lookup_insert_eq. cbn [bind].
  subst s'. cbn [enumeration_embedded_in_current enumeration_finished enumeration_fields].
  rewrite Hfs2. by rewrite bool_decide_eq_true_2.
Qed.

(** The enum [E] of the example: three fields, one of them of [E] itself. *)
Lemma resolve_enum_type_self_embedding_witness :
  exists g' s',
    resolve_enum_type all_type_refs (analyze_expression size_in_bits 1) 2
      self_embedding_enum_session 0 (TypeEnum 60 "E") = Ok g' /\
    errors g' = [ {| err_node := 60; err_msg := "enum has infinite size" |} ] /\
    enums g' !! 60 = Some s' /\
    enumeration_tag_type s' = Some entry_u8.
Proof.
  edestruct resolve_enum_type_self_embedding
    with (entry_type_ref := all_type_refs) (sz := size_in_bits) (fuel_e := 0%nat)
         (fuel := 0%nat) (g := self_embedding_enum_session) (import := 0)
         (imp := self_embedding_enum_import) (decl := 60) (name := "E")
         (s := self_embedding_enum_entry)
         (types := [entry_void; entry_i32; TypeEnum 60 "E"])
    as (g' & s' & fields & tag & Hrun & Herr & Hs & _ & _ & _ & _ & _ & _ & _ & Htag & Htt & _).
  - vm_compute. reflexivity.
  - vm_compute. reflexivity.
  - vm_compute. reflexivity.
  - vm_compute. reflexivity.
  - vm_compute. reflexivity.
  - reflexivity.
  - reflexivity.
  - reflexivity.
  - reflexivity.
  - repeat constructor; vm_compute; reflexivity.
  - vm_compute. reflexivity.
  - exists g', s'. split; [exact Hrun|]. split; [rewrite Herr; vm_compute; reflexivity|].
    split; [exact Hs|]. rewrite Htt. f_equal.
    vm_compute in Htag. by injection Htag as <-.
Defined.
(** * The interner: a handle stands for one type *)
Module InternerLinksFacts.
Import Interner InternerFacts InternerLinks.

Lemma call_child_slot call1 call2 :
  call_child call1 = call_child call2 -> call_slot call1 = call_slot call2 ->
  call1 = call2.
Proof. destruct call1, call2; cbn; congruence. Qed.

Lemma cached_parent_at g call h :
  cached g call h -> parent_at g (call_child call) (call_slot call) = Some h.
Proof.
  unfold parent_at. destruct call; cbn.
  - by intros (e & -> & _ & ?).
  - by intros (e & -> & ?).
  - by intros (e & -> & _ & ?).
  - by intros (e & -> & ?).
  - by intros (e & -> & ?).
Qed.

Lemma extends_refl g : extends g g.
Proof. repeat split; eauto. Qed.

Lemma extends_trans g1 g2 g3 : extends g1 g2 -> extends g2 g3 -> extends g1 g3.
Proof.
  intros (D1 & K1 & N1) (D2 & K2 & N2). repeat split; [eauto..|].
  intros c p h H3. destruct (N2 _ _ _ H3) as [H2|(F2 & A3 & U3)].
  - destruct (N1 _ _ _ H2) as [H1|(F1 & A2 & U2)]; [by left|].
    right. repeat split; [done | eauto | |].
    + destruct (N2 _ _ _ H) as [H'|(F' & _)]; [by apply U2 in H' as []|].
      rewrite F' in A2. by destruct A2.
    + destruct (N2 _ _ _ H) as [H'|(F' & _)]; [by apply U2 in H' as []|].
      rewrite F' in A2. by destruct A2.
  - right. repeat split; [|done|by apply U3 in H as []..].
    destruct (types g1 !! h) eqn:E; [|done].
    destruct (D1 h) as [? E2]; [eauto|]. congruence.
Qed.

Lemma extends_distinct g g' : parents_distinct g -> extends g g' -> parents_distinct g'.
Proof.
  intros Hd (D & K & N) c p h H. destruct (N _ _ _ H) as [H0|(F & A & U)].
  - destruct (Hd _ _ _ H0) as [A0 U0]. split; [eauto|].
    intros c' p' H'. destruct (N _ _ _ H') as [H0'|(F' & _)]; [eauto|].
    rewrite F' in A0. by destruct A0.
  - eauto.
Qed.

Lemma orphan_fresh g h : parents_distinct g -> types g !! h = None -> orphan g h.
Proof. intros Hd F c p H. apply Hd in H as [[? A] _]. congruence. Qed.

Lemma orphan_extends g g' h :
  extends g g' -> is_Some (types g !! h) -> orphan g h -> orphan g' h.
Proof.
  intros (D & K & N) [e A] Ho c p H. destruct (N _ _ _ H) as [H0|(F & _)].
  - by apply Ho in H0.
  - congruence.
Qed.

Lemma parent_at_store g h e c p :
  parent_at (store g h e) c p
  = if decide (c = h) then parent_of e p else parent_at g c p.
Proof.
  unfold parent_at. cbn. destruct (decide (c = h)) as [->|Hne].
  - by rewrite lookup_insert_eq.
  - by rewrite lookup_insert_ne.
Qed.

Lemma is_Some_store g h e x : is_Some (types g !! x) -> is_Some (types (store g h e) !! x).
Proof.
  cbn. destruct (decide (h = x)) as [->|Hne].
  - by rewrite lookup_insert_eq.
  - by rewrite lookup_insert_ne.
Qed.

(** Storing an entry whose slots are those of the entry that was there (or
    empty, at a new place). *)
Lemma parent_at_store_same g h e :
  (forall p, parent_of e p = parent_at g h p) ->
  forall c p, parent_at (store g h e) c p = parent_at g c p.
Proof. intros He c p. rewrite parent_at_store. case_decide; [subst; apply He | done]. Qed.

Lemma extends_same g g' :
  (forall h, is_Some (types g !! h) -> is_Some (types g' !! h)) ->
  (forall c p, parent_at g' c p = parent_at g c p) ->
  extends g g'.
Proof.
  intros D S. repeat split; [done|..].
  - intros c p h. by rewrite S.
  - intros c p h. rewrite S. by left.
Qed.

Lemma extends_store_same g h e :
  (forall p, parent_of e p = parent_at g h p) -> extends g (store g h e).
Proof.
  intros He. apply extends_same.
  - intros x. apply is_Some_store.
  - by apply parent_at_store_same.
Qed.

(** Recording [h], an entry made since [g0] that is in no slot yet, in the
    empty slot [p] of [c]. *)
Lemma extends_store_link g0 g c e e' p h :
  extends g0 g ->
  types g0 !! h = None -> is_Some (types g !! h) -> orphan g h ->
  types g !! c = Some e ->
  parent_of e p = None -> parent_of e' p = Some h ->
  (forall q, q <> p -> parent_of e' q = parent_of e q) ->
  extends g0 (store g c e').
Proof.
  intros (D & K & N) F A Ho Hc Hp Hp' Hq.
  assert (Hold : forall x q y, parent_at g x q = Some y ->
                   parent_at (store g c e') x q = Some y).
  { intros x q y H. rewrite parent_at_store. case_decide as Hx; [|done]. subst x.
    unfold parent_at in H. rewrite Hc in H.
    rewrite Hq; [done|]. intros ->. congruence. }
  assert (Hnew : forall x q y, parent_at (store g c e') x q = Some y ->
                   (x = c /\ q = p /\ y = h) \/ parent_at g x q = Some y).
  { intros x q y H. rewrite parent_at_store in H. case_decide as Hx; [|by right].
    subst x. destruct (decide (q = p)) as [->|Hne].
    - left. split; [done|]. split; [done|]. congruence.
    - right. unfold parent_at. rewrite Hc. by rewrite <- Hq. }
  repeat split.
  - intros x Hx. by apply is_Some_store, D.
  - intros x q y H. by apply Hold, K.
  - intros x q y H. destruct (Hnew _ _ _ H) as [(-> & -> & ->)|H'].
    + right. split; [done|]. split; [by apply is_Some_store|].
      intros c' p' H'. destruct (Hnew _ _ _ H') as [(-> & -> & _)|H'']; [done|].
      by apply Ho in H''.
    + destruct (N _ _ _ H') as [H0|(F0 & A0 & U0)]; [by left|].
      right. split; [done|]. split; [by apply is_Some_store|].
      intros c' p' H''. destruct (Hnew _ _ _ H'') as [(-> & -> & ->)|H3]; [|eauto].
      by apply Ho in H'.
Qed.

Lemma parent_of_zero_entry i p : parent_of (zero_entry i) p = None.
Proof. by destruct p as [[]| |[]| |]. Qed.

Lemma parent_at_fresh g h p : types g !! h = None -> parent_at g h p = None.
Proof. unfold parent_at. by intros ->. Qed.

(** Allocating an entry, filling it with [e0], which has no parent yet, and
    recording it in slot [p] of its child. *)
Lemma extends_alloc_link g i e0 c e e' p :
  parents_distinct g ->
  types g !! c = Some e ->
  (forall q, parent_of e0 q = None) ->
  parent_of e p = None ->
  parent_of e' p = Some (fresh (dom (types g))) ->
  (forall q, q <> p -> parent_of e' q = parent_of e q) ->
  extends g (store (store (store g (fresh (dom (types g))) (zero_entry i))
                      (fresh (dom (types g))) e0) c e').
Proof.
  intros Hd Hc H0 Hp Hp' Hq. pose proof (fresh_types_None g) as F.
  set (h := fresh (dom (types g))) in *.
  assert (Hne : c <> h) by congruence.
  assert (S1 : forall x q, parent_at (store g h (zero_entry i)) x q = parent_at g x q).
  { apply parent_at_store_same. intros q.
    by rewrite parent_of_zero_entry, parent_at_fresh. }
  assert (S2 : forall x q, parent_at (store (store g h (zero_entry i)) h e0) x q
                           = parent_at g x q).
  { intros x q. rewrite parent_at_store_same; [apply S1|].
    intros q'. by rewrite H0, S1, parent_at_fresh. }
  eapply extends_store_link with (e := e) (p := p) (h := h); try done.
  - apply extends_same; [|done]. intros x Hx. by do 2 apply is_Some_store.
  - cbn. rewrite lookup_insert_eq. eauto.
  - intros x q. rewrite S2. by apply orphan_fresh.
  - cbn. by rewrite !lookup_insert_ne.
Qed.

Lemma get_pointer_to_type_extends g c k h g' :
  parents_distinct g -> get_pointer_to_type g c k = Ok (h, g') -> extends g g'.
Proof.
  unfold get_pointer_to_type. intros Hd H.
  apply bind_Ok in H as (e & He%deref_Ok & H).
  apply bind_Ok in H as (u & Hi & H).
  destruct (slot (pointer_parent e) k) as [p|] eqn:Hs.
  - injection H as <- <-. apply extends_refl.
  - unfold new_type_table_entry in H.
    apply bind_Ok in H as (u' & _ & H). injection H as <- <-.
    apply extends_alloc_link with (e := e) (p := slot_pointer k); try done.
    + by intros [[]| |[]| |].
    + cbn. apply slot_set_slot.
    + intros [k'| |[]| |] Hq; try done. cbn.
      destruct (pointer_parent e) as [a b], k, k'; cbn in *; congruence.
Qed.

Lemma get_maybe_type_extends g c h g' :
  parents_distinct g -> get_maybe_type g c = Ok (h, g') -> extends g g'.
Proof.
  unfold get_maybe_type. intros Hd H.
  apply bind_Ok in H as (e & He%deref_Ok & H).
  destruct (maybe_parent e) as [p|] eqn:Hs.
  - injection H as <- <-. apply extends_refl.
  - unfold new_type_table_entry in H.
    apply bind_Ok in H as (u1 & _ & H). apply bind_Ok in H as (u2 & _ & H).
    injection H as <- <-.
    apply extends_alloc_link with (e := e) (p := slot_maybe); try done.
    + by intros [[]| |[]| |].
    + by intros [[]| |[]| |] Hq.
Qed.

Lemma get_error_type_extends g c h g' :
  parents_distinct g -> get_error_type g c = Ok (h, g') -> extends g g'.
Proof.
  unfold get_error_type. intros Hd H.
  apply bind_Ok in H as (e & He%deref_Ok & H).
  destruct (error_parent e) as [p|] eqn:Hs.
  - injection H as <- <-. apply extends_refl.
  - unfold new_type_table_entry in H.
    apply bind_Ok in H as (u1 & _ & H). apply bind_Ok in H as (u2 & _ & H).
    apply bind_Ok in H as (tag & _ & H).
    injection H as <- <-.
    apply extends_alloc_link with (e := e) (p := slot_error); try done.
    + intros q. by destruct (decide _), q as [[]| |[]| |].
    + by intros [[]| |[]| |] Hq.
Qed.

Lemma get_array_type_extends g c n h g' :
  parents_distinct g -> get_array_type g c n = Ok (h, g') -> extends g g'.
Proof.
  unfold get_array_type. intros Hd H.
  apply bind_Ok in H as (e & He%deref_Ok & H).
  destruct (arrays_by_size e !! n) as [p|] eqn:Hs.
  - injection H as <- <-. apply extends_refl.
  - unfold new_type_table_entry in H. injection H as <- <-.
    apply extends_alloc_link with (e := e) (p := slot_array n); try done.
    + by intros [[]| |[]| |].
    + cbn. by rewrite lookup_insert_eq.
    + intros [[]|n'|[]| |] Hq; try done. cbn.
      rewrite lookup_insert_ne; [done|]. congruence.
Qed.


Lemma modify_extends g h f g' :
  modify g h f = Ok g' -> (forall e p, parent_of (f e) p = parent_of e p) -> extends g g'.
Proof.
  unfold modify. intros H Hf. apply bind_Ok in H as (e & He%deref_Ok & H).
  injection H as <-. apply extends_store_same. intros p.
  unfold parent_at. by rewrite He.
Qed.

Lemma new_type_table_entry_extends g i h g' :
  parents_distinct g -> new_type_table_entry g i = (h, g') ->
  extends g g' /\ types g !! h = None /\ is_Some (types g' !! h) /\ orphan g' h.
Proof.
  unfold new_type_table_entry. intros Hd [= <- <-].
  pose proof (fresh_types_None g) as F.
  assert (S : forall x q, parent_at (store g (fresh (dom (types g))) (zero_entry i)) x q
                          = parent_at g x q).
  { apply parent_at_store_same. intros q.
    by rewrite parent_of_zero_entry, parent_at_fresh. }
  split; [apply extends_same; [intros x; apply is_Some_store | done]|].
  split; [done|]. split; [cbn; rewrite lookup_insert_eq; eauto|].
  intros x q. rewrite S. by apply orphan_fresh.
Qed.

Lemma unknown_size_array_type_common_init_extends g c k entry g' :
  parents_distinct g ->
  unknown_size_array_type_common_init g c k entry = Ok g' -> extends g g'.
Proof.
  unfold unknown_size_array_type_common_init. intros Hd H.
  apply bind_Ok in H as ([pt g1] & H1 & H).
  eapply extends_trans; [by eapply get_pointer_to_type_extends|].
  eapply modify_extends; [exact H|]. by intros e [[]| |[]| |].
Qed.

(** Recording the new slice in its child. *)
Lemma modify_slice_slot_extends g0 g c k entry g' :
  extends g0 g ->
  types g0 !! entry = None -> is_Some (types g !! entry) -> orphan g entry ->
  (forall e1, types g !! c = Some e1 -> slot (unknown_size_array_parent e1) k = None) ->
  modify g c
    (fun c0 => with_unknown_size_array_parent c0
                 (set_slot (unknown_size_array_parent c0) k entry)) = Ok g' ->
  extends g0 g'.
Proof.
  intros E F A Ho Hnone H. unfold modify in H.
  apply bind_Ok in H as (e & He%deref_Ok & H). injection H as <-.
  eapply extends_store_link with (e := e) (p := slot_slice k) (h := entry); try done.
  - cbn. by apply Hnone.
  - cbn. apply slot_set_slot.
  - intros [[]| |k'| |] Hq; try done. cbn.
    destruct (unknown_size_array_parent e) as [a b], k, k'; cbn in *; congruence.
Qed.

Lemma with_name_refs_parent_of n t d e p :
  parent_of (with_name_refs n t d e) p = parent_of e p.
Proof. by destruct p as [[]| |[]| |]. Qed.

Lemma get_unknown_size_array_type_var_extends g c h g' :
  parents_distinct g -> get_unknown_size_array_type_var g c = Ok (h, g') -> extends g g'.
Proof.
  unfold get_unknown_size_array_type_var. intros Hd H.
  apply bind_Ok in H as (e & He%deref_Ok & H).
  apply bind_Ok in H as (u & Hi%assert_negb_Ok & H).
  destruct (slot (unknown_size_array_parent e) false) as [p|] eqn:Hs.
  - injection H as <- <-. apply extends_refl.
  - destruct (new_type_table_entry g TypeTableEntryIdStruct) as [entry g1] eqn:Hn.
    apply bind_Ok in H as (g2 & H2 & H).
    apply bind_Ok in H as ([pt g3] & H3 & H).
    apply bind_Ok in H as (g4 & H4 & H).
    apply bind_Ok in H as (g5 & H5 & H).
    apply bind_Ok in H as (g6 & H6 & H). injection H as <- <-.
    assert (G : grows false g g5).
    { eapply grows_trans; [by eapply grows_new_type_table_entry|].
      eapply grows_trans;
        [eapply grows_modify; [exact H2 | intros; apply entry_le_with_name_refs | done]|].
      eapply grows_trans; [by eapply grows_get_pointer_to_type|].
      eapply grows_trans; [by eapply grows_common_init|].
      eapply grows_modify; [exact H5 | intros; apply entry_le_with_name_refs | done]. }
    destruct (new_type_table_entry_extends _ _ _ _ Hd Hn) as (E01 & F & A1 & O1).
    pose proof (extends_distinct _ _ Hd E01) as D1.
    assert (E12 : extends g1 g2).
    { eapply modify_extends; [exact H2|]. intros. apply with_name_refs_parent_of. }
    pose proof (extends_distinct _ _ D1 E12) as D2.
    pose proof (get_pointer_to_type_extends _ _ _ _ _ D2 H3) as E23.
    pose proof (extends_distinct _ _ D2 E23) as D3.
    pose proof (unknown_size_array_type_common_init_extends _ _ _ _ _ D3 H4) as E34.
    assert (E45 : extends g4 g5).
    { eapply modify_extends; [exact H5|]. intros. apply with_name_refs_parent_of. }
    assert (E15 : extends g1 g5) by eauto using extends_trans.
    eapply modify_slice_slot_extends; [| | | | |exact H6].
    + by eapply extends_trans.
    + done.
    + by apply E15.
    + by eapply orphan_extends.
    + by eapply grows_slot_None.
Qed.

Lemma get_unknown_size_array_type_extends g c k h g' :
  parents_distinct g -> get_unknown_size_array_type g c k = Ok (h, g') -> extends g g'.
Proof.
  unfold get_unknown_size_array_type. intros Hd. destruct k.
  - intros H.
    apply bind_Ok in H as (e & He%deref_Ok & H).
    apply bind_Ok in H as (u & Hi%assert_negb_Ok & H).
    destruct (slot (unknown_size_array_parent e) true) as [p|] eqn:Hs.
    + injection H as <- <-. apply extends_refl.
    + apply bind_Ok in H as ([var_peer g1] & H1 & H).
      pose proof (get_unknown_size_array_type_var_extends _ _ _ _ Hd H1) as E01.
      apply get_unknown_size_array_type_var_spec in H1 as (P1 & _ & K1).
      pose proof (extends_distinct _ _ Hd E01) as D1.
      destruct (new_type_table_entry g1 TypeTableEntryIdStruct) as [entry g2] eqn:Hn.
      apply bind_Ok in H as (g3 & H3 & H).
      apply bind_Ok in H as (g4 & H4 & H).
      apply bind_Ok in H as (peer & _ & H).
      apply bind_Ok in H as (g5 & H5 & H).
      apply bind_Ok in H as (g6 & H6 & H). injection H as <- <-.
      assert (G : grows true g g5).
      { eapply grows_trans; [by split|].
        eapply grows_trans; [by eapply grows_new_type_table_entry|].
        eapply grows_trans;
          [eapply grows_modify; [exact H3 | intros; apply entry_le_with_name_refs | done]|].
        eapply grows_trans; [by eapply grows_common_init|].
        eapply grows_modify; [exact H5 | intros; apply entry_le_with_name_refs | done]. }
      destruct (new_type_table_entry_extends _ _ _ _ D1 Hn) as (E12 & F & A2 & O2).
      pose proof (extends_distinct _ _ D1 E12) as D2.
      assert (E23 : extends g2 g3).
      { eapply modify_extends; [exact H3|]. intros. apply with_name_refs_parent_of. }
      pose proof (extends_distinct _ _ D2 E23) as D3.
      pose proof (unknown_size_array_type_common_init_extends _ _ _ _ _ D3 H4) as E34.
      assert (E45 : extends g4 g5).
      { eapply modify_extends; [exact H5|]. intros. apply with_name_refs_parent_of. }
      assert (E25 : extends g2 g5) by eauto using extends_trans.
      eapply modify_slice_slot_extends; [| | | | |exact H6].
      * eauto using extends_trans.
      * destruct (types g !! entry) eqn:E0; [|done].
        destruct (proj1 E01 entry) as [? E1]; [eauto|]. congruence.
      * by apply E25.
      * by eapply orphan_extends.
      * by eapply grows_slot_None.
  - by apply get_unknown_size_array_type_var_extends.
Qed.

Lemma intern_extends g call h g' :
  parents_distinct g -> intern g call = Ok (h, g') -> extends g g'.
Proof.
  intros Hd. destruct call; cbn.
  - by apply get_pointer_to_type_extends.
  - by apply get_array_type_extends.
  - by apply get_unknown_size_array_type_extends.
  - by apply get_maybe_type_extends.
  - by apply get_error_type_extends.
Qed.

Lemma intern_all_distinct calls : forall g g',
  parents_distinct g -> intern_all g calls = Ok g' -> parents_distinct g'.
Proof.
  induction calls as [|call rest IH]; intros g g' Hd H; cbn in H.
  - by injection H as <-.
  - apply bind_Ok in H as ([h g1] & H1 & H).
    eapply IH; [|exact H]. eauto using extends_distinct, intern_extends.
Qed.

(** Two calls of the interner in one session that differ in a parameter
    return different handles, whatever calls are made in between: a handle
    stands for one type only. *)
Theorem interner_injective (g g1 g2 g3 : CodeGen) (call1 call2 : InternCall)
    (calls : list InternCall) (h1 h2 : handle) :
  parents_distinct g ->
  intern g call1 = Ok (h1, g1) ->
  intern_all g1 calls = Ok g2 ->
  intern g2 call2 = Ok (h2, g3) ->
  call1 <> call2 ->
  h1 <> h2.
Proof.
  intros Hd H1 Hall H2 Hne <-.
  pose proof (extends_distinct _ _ Hd (intern_extends _ _ _ _ Hd H1)) as D1.
  pose proof (intern_all_distinct _ _ _ D1 Hall) as D2.
  pose proof (extends_distinct _ _ D2 (intern_extends _ _ _ _ D2 H2)) as D3.
  apply intern_spec in H1 as [_ C1]. apply intern_all_preserved in Hall.
  apply intern_spec in H2 as [P2 C2].
  assert (C3 : cached g3 call1 h1) by eauto using cached_preserved.
  apply cached_parent_at in C3, C2.
  destruct (D3 _ _ _ C3) as [_ U]. destruct (U _ _ C2) as [Hc Hs].
  apply Hne. symmetry. by apply call_child_slot.
Qed.

Lemma u8_session_parents_distinct : parents_distinct u8_session.
Proof.
  intros c p h H. unfold parent_at, u8_session in H. cbn in H.
  destruct (decide (c = 0%nat)) as [->|Hne].
  - rewrite lookup_singleton_eq in H. by destruct p as [[]| |[]| |].
  - by rewrite lookup_singleton_ne in H.
Qed.

Lemma interner_injective_witness :
  let g1 := (interned u8_session (intern_pointer 0%nat true)).2 in
  let g2 := interned_all g1 later_calls in
  (interned u8_session (intern_pointer 0%nat true)).1
  <> (interned g2 (intern_slice 0%nat true)).1.
Proof.
  apply (interner_injective u8_session
           (interned u8_session (intern_pointer 0%nat true)).2
           (interned_all (interned u8_session (intern_pointer 0%nat true)).2 later_calls)
           (interned (interned_all (interned u8_session (intern_pointer 0%nat true)).2
                        later_calls) (intern_slice 0%nat true)).2
           (intern_pointer 0%nat true) (intern_slice 0%nat true) later_calls).
  - apply u8_session_parents_distinct.
  - vm_compute. reflexivity.
  - vm_compute. reflexivity.
  - vm_compute. reflexivity.
  - discriminate.
Defined.

End InternerLinksFacts.

(** * Expression analysis against an expected type *)

Section expected.
Variable sz : TypeTableEntry -> Z.
Variable ae : CodeGen -> Z -> BlockContext -> option TypeTableEntry -> AstNode ->
  result (TypeTableEntry * AstNode * CodeGen).
Hypothesis ae_expected : forall g import context e node t node' g',
  ae g import context (Some e) node = Ok (t, node', g') ->
  t = e \/ type_id t = TypeTableEntryIdInvalid \/ type_id t = TypeTableEntryIdUnreachable.

Lemma resolve_type_compatibility_expected g import context node e actual t cast g' :
  resolve_type_compatibility ae g import context node (Some e) actual = Ok (t, cast, g') ->
  t = e \/ type_id t = TypeTableEntryIdInvalid \/ type_id t = TypeTableEntryIdUnreachable.
Proof.
  unfold resolve_type_compatibility. intros H.
  destruct (type_eqb e actual); [injection H as <- _ _; by left|].
  destruct (_ || _); [injection H as <- _ _; right; by left|].
  destruct (decide _) as [Hu|_]; [injection H as <- _ _; right; by right|].
  apply bind_Ok in H as ([[m g1] reported_err] & _ & H).
  destruct m.
  - apply bind_Ok in H as ([[t1 parent] g2] & Hc & H). injection H as <- _ _.
    unfold create_and_analyze_cast_node in Hc.
    destruct (create_ast_node g1) as [i g3], (create_ast_type_node g3 e) as [f g4].
    by apply ae_expected in Hc.
  - destruct reported_err; injection H as <- _ _; right; by left.
Qed.

Lemma analyze_expression_body_expected g import context e node t node' g' :
  analyze_expression_body sz ae g import context (Some e) node = Ok (t, node', g') ->
  t = e \/ type_id t = TypeTableEntryIdInvalid \/ type_id t = TypeTableEntryIdUnreachable.
Proof.
  unfold analyze_expression_body. intros H.
  apply bind_Ok in H as ([[[rt n] o] g1] & _ & H).
  apply bind_Ok in H as ([[t1 c] g2] & Hr & H). injection H as <- _ _.
  by eapply resolve_type_compatibility_expected.
Qed.

End expected.

(** Analysis against an expected type: when it returns, the type it gives
    is the expected type, the invalid type or the type of an expression that
    does not return; an expression of another type is either converted or
    rejected. *)
Theorem analyze_expression_expected sz fuel : forall g import context e node t node' g',
  analyze_expression sz fuel g import context (Some e) node = Ok (t, node', g') ->
  t = e \/ type_id t = TypeTableEntryIdInvalid \/ type_id t = TypeTableEntryIdUnreachable.
Proof.
  induction fuel as [|fuel IH]; intros g import context e node t node' g' H;
    [discriminate H|].
  cbn [analyze_expression] in H.
  eapply analyze_expression_body_expected; [exact IH | exact H].
Qed.

Lemma analyze_expression_expected_witness :
  let t := default entry_void
             (result_type
                (analyze_expression size_in_bits 4 example_session 0 example_fn_context
                   (Some entry_u8) (number_node 12 300))) in
  t = entry_u8 \/ type_id t = TypeTableEntryIdInvalid
  \/ type_id t = TypeTableEntryIdUnreachable.
Proof.
  cbv zeta.
  eapply (analyze_expression_expected size_in_bits 4 example_session 0 example_fn_context
            entry_u8 (number_node 12 300)).
  vm_compute. reflexivity.
Defined.

(** * An implicit conversion that the cast rejects *)

Lemma types_match_const_cast_only_ints e a :
  type_id e = TypeTableEntryIdInt -> e <> a -> types_match_const_cast_only e a = Ok false.
Proof.
  intros He Hne. rewrite types_match_const_cast_only_unfold, type_eqb_neq by done.
  by destruct e.
Qed.

Lemma types_match_const_cast_only_maybe_int c a :
  type_id a = TypeTableEntryIdInt -> types_match_const_cast_only (TypeMaybe c) a = Ok false.
Proof.
  intros Ha. rewrite types_match_const_cast_only_unfold, type_eqb_neq.
  - by destruct a.
  - intros <-. discriminate Ha.
Qed.

Lemma types_match_with_implicit_cast_widen g na nc s ba bc node r :
  TypeInt nc s bc <> TypeInt na s ba -> ba <= bc ->
  types_match_with_implicit_cast g (TypeInt nc s bc) (TypeInt na s ba) node r
  = Ok (true, g, r).
Proof.
  intros Hne Hle. rewrite types_match_with_implicit_cast_unfold.
  rewrite types_match_const_cast_only_ints by done.
  cbn. rewrite (bool_decide_eq_false_2 (_ = TypeTableEntryIdErrorUnion)) by done.
  cbn [andb].
  rewrite (bool_decide_eq_true_2 (TypeTableEntryIdInt = TypeTableEntryIdInt)) by done.
  rewrite (bool_decide_eq_true_2 (s = s)) by done.
  rewrite (bool_decide_eq_true_2 (bc >= ba)) by lia.
  reflexivity.
Qed.

Lemma types_match_with_implicit_cast_maybe_widen g na nc s ba bc node r :
  TypeInt nc s bc <> TypeInt na s ba -> ba <= bc ->
  types_match_with_implicit_cast g (TypeMaybe (TypeInt nc s bc)) (TypeInt na s ba) node r
  = Ok (true, g, r).
Proof.
  intros Hne Hle. rewrite types_match_with_implicit_cast_unfold.
  rewrite types_match_const_cast_only_maybe_int by done. cbn [bind].
  by rewrite types_match_with_implicit_cast_widen.
Qed.

(** The use of a variable that is not a constant. *)
Lemma analyze_expression_variable sz fuel g import context i symbol re var :
  primitive_type_table g !! symbol = None ->
  find_variable context symbol = Some var ->
  var_is_const var = false ->
  analyze_expression sz (S fuel) g import context None
    (mkAstNode i (symbol_expr symbol None) re)
  = Ok (var_type var,
        set_type_entry (mkAstNode i (symbol_expr symbol None) re) (var_type var), g).
Proof.
  intros Hp Hv Hk. cbn [analyze_expression]. unfold analyze_expression_body.
  cbn [node_data]. unfold analyze_symbol_expr. rewrite Hp, Hv, Hk. reflexivity.
Qed.

(** The cast of an integer to an optional of another integer type. *)
Lemma analyze_cast_expr_int_to_optional sz ae g g1 import context j fn_ref_expr expr_node
    expr_node' cast_op re na nc sa sc ba bc :
  let actual := TypeInt na sa ba in
  let child := TypeInt nc sc bc in
  resolve_type g fn_ref_expr = Ok (TypeMaybe child, g) ->
  ae g import context None expr_node = Ok (actual, expr_node', g1) ->
  child <> actual ->
  analyze_cast_expr sz ae g import context
    (mkAstNode j (fn_call_expr fn_ref_expr [expr_node] cast_op) re)
  = Ok (entry_invalid,
        mkAstNode j (fn_call_expr fn_ref_expr [expr_node'] cast_op) re,
        add_node_error g1 j
          ("invalid cast from type '" ++ na ++ "' to '?" ++ nc ++ "'")).
Proof.
  intros actual child Hw Ha Hne.
  unfold analyze_cast_expr. cbn [node_data].
  rewrite Hw. cbn [bind]. rewrite Ha. cbn [bind].
  cbn [type_id actual bool_decide decide_rel orb].
  rewrite !(bool_decide_eq_false_2 (_ = TypeTableEntryIdInvalid)) by discriminate.
  cbn [orb].
  rewrite types_match_const_cast_only_maybe_int by done. cbn [bind].
  rewrite !(type_eqb_neq (TypeMaybe child)) by (unfold entry_isize, entry_usize; discriminate).
  cbn [orb andb].
  rewrite !(bool_decide_eq_false_2 (TypeTableEntryIdMaybe = _)) by discriminate.
  cbn [orb andb bind].
  rewrite !(bool_decide_eq_false_2 (TypeTableEntryIdInt = TypeTableEntryIdPointer))
    by discriminate.
  cbn [orb andb bind].
  rewrite (types_match_const_cast_only_ints child actual) by done.
  rewrite !(bool_decide_eq_false_2 (TypeTableEntryIdInt = TypeTableEntryIdNumLitInt)),
    !(bool_decide_eq_false_2 (TypeTableEntryIdInt = TypeTableEntryIdNumLitFloat))
    by discriminate.
  cbn [orb andb bind].
  rewrite !(bool_decide_eq_false_2 (TypeTableEntryIdInt = TypeTableEntryIdPureError))
    by discriminate.
  rewrite !andb_false_r. cbn [orb andb bind create_index set_node_data type_name child].
  reflexivity.
Qed.

Lemma analyze_expression_S sz fuel :
  analyze_expression sz (S fuel)
  = analyze_expression_body sz (analyze_expression sz fuel).
Proof. reflexivity. Qed.

(** The type node that [create_ast_type_node] makes. *)
Lemma analyze_expression_type_node sz fuel g import context k t :
  exists node_t,
    analyze_expression sz (S fuel) g import context None
      (mkAstNode k (symbol_expr "" (Some t)) expr_zero)
    = Ok (entry_type, node_t, g) /\
    const_ok (const_val (get_resolved_expr node_t)) = true /\
    resolve_type g node_t = Ok (t, g).
Proof. eexists. split; [reflexivity|]. split; reflexivity. Qed.

(** What [types_match_with_implicit_cast] accepts and [analyze_cast_expr]
    rejects.  A variable of an integer type is used where an optional of
    another integer type, of the same sign and at least as wide, is expected:
    the implicit conversion is accepted, a cast node is made for it, and the
    analysis of that node gives the invalid type and the error "invalid cast
    from type ... to ..." on the new node. *)
Theorem implicit_cast_to_optional_of_wider_int sz fuel g import context i symbol re var
    na nc s ba bc :
  let actual := TypeInt na s ba in
  let child := TypeInt nc s bc in
  let node := mkAstNode i (symbol_expr symbol None) re in
  primitive_type_table g !! symbol = None ->
  find_variable context symbol = Some var ->
  var_is_const var = false ->
  var_type var = actual ->
  child <> actual ->
  ba <= bc ->
  types_match_with_implicit_cast g (TypeMaybe child) actual node false = Ok (true, g, false) /\
  exists node',
    analyze_expression sz (S (S (S fuel))) g import context (Some (TypeMaybe child)) node
    = Ok (entry_invalid, node',
          add_node_error
            (set_next_node_index g (wrap32 (wrap32 (next_node_index g + 1) + 1)))
            (next_node_index g)
            ("invalid cast from type '" ++ na ++ "' to '?" ++ nc ++ "'")).
Proof.
  intros actual child node Hp Hv Hk Ht Hne Hle.
  subst actual child node.
  split; [by apply types_match_with_implicit_cast_maybe_widen|].
  rewrite analyze_expression_S. unfold analyze_expression_body at 1.
  cbn [node_data]. unfold analyze_symbol_expr at 1.
  rewrite Hp, Hv, Hk, Ht. cbn [bind].
  unfold resolve_type_compatibility at 1.
  rewrite type_eqb_neq by discriminate.
  cbn [type_id].
  rewrite !(bool_decide_eq_false_2 (_ = TypeTableEntryIdInvalid)) by discriminate.
  cbn [orb]. destruct (decide _) as [?|_]; [done|].
  rewrite types_match_with_implicit_cast_maybe_widen by done. cbn [bind].
  unfold create_and_analyze_cast_node, create_ast_type_node, create_ast_node.
  cbn [next_node_index set_next_node_index].
  rewrite analyze_expression_S. unfold analyze_expression_body at 1.
  cbn [node_data]. unfold analyze_fn_call_expr at 1. cbn [node_data].
  match goal with
  | |- context [analyze_expression sz (S fuel) ?g0 import context None
                  (mkAstNode ?k (symbol_expr "" (Some ?t)) expr_zero)] =>
      destruct (analyze_expression_type_node sz fuel g0 import context k t)
        as (node_t & -> & Hok & Hrt)
  end.
  cbn [bind set_node_data]. 
  destruct (decide _) as [?|_]; [done|]. rewrite Hok.
  destruct (decide _) as [_|?]; [|done].
  erewrite analyze_cast_expr_int_to_optional; [|exact Hrt| |exact Hne].
  2: { rewrite (analyze_expression_variable _ _ _ _ _ _ _ _ var); [|by rewrite (primitive_type_table_ext g)|done..].
       rewrite Ht. reflexivity. }
  cbn [bind]. unfold resolve_type_compatibility.
  rewrite type_eqb_neq by discriminate.
  cbn [type_id]. rewrite !(bool_decide_eq_false_2 (TypeTableEntryIdMaybe = _)) by discriminate.
  rewrite !(bool_decide_eq_true_2 (TypeTableEntryIdInvalid = _)) by done.
  cbn [orb bind]. eexists. reflexivity.
Qed.

Lemma implicit_cast_to_optional_of_wider_int_witness :
  let r := analyze_expression size_in_bits 3 example_session 0 example_fn_context
             (Some (TypeMaybe entry_i64)) (symbol_node 12 "a") in
  result_type r = Some entry_invalid /\
  result_errors r
  = [ {| err_node := 100; err_msg := "invalid cast from type 'i32' to '?i64'" |} ].
Proof.
  unfold symbol_node. cbv zeta.
  edestruct implicit_cast_to_optional_of_wider_int
    with (sz := size_in_bits) (fuel := 0%nat) (g := example_session) (import := 0)
         (context := example_fn_context) (i := 12) (symbol := "a") (re := expr_zero)
         (var := example_local "a" entry_i32)
         (na := "i32") (nc := "i64") (s := true) (ba := 32) (bc := 64)
    as [_ [node' H]].
  - vm_compute. reflexivity.
  - vm_compute. reflexivity.
  - reflexivity.
  - reflexivity.
  - discriminate.
  - lia.
  - change entry_i64 with (TypeInt "i64" true 64). rewrite H.
    split; vm_compute; reflexivity.
Defined.

(** * An implicit conversion that the cast accepts *)

(** The cast of an integer to another integer type. *)
Lemma analyze_cast_expr_int_to_other_int sz ae g g1 import context j fn_ref_expr expr_node
    expr_node' cast_op re na nc sa sc ba bc :
  let actual := TypeInt na sa ba in
  let wanted := TypeInt nc sc bc in
  resolve_type g fn_ref_expr = Ok (wanted, g) ->
  ae g import context None expr_node = Ok (actual, expr_node', g1) ->
  wanted <> actual ->
  const_ok (const_val (get_resolved_expr expr_node')) = false ->
  analyze_cast_expr sz ae g import context
    (mkAstNode j (fn_call_expr fn_ref_expr [expr_node] cast_op) re)
  = Ok (wanted,
        mkAstNode j (fn_call_expr fn_ref_expr [expr_node'] CastOpIntWidenOrShorten) re,
        g1).
Proof.
  intros actual wanted Hw Ha Hne Hc.
  unfold analyze_cast_expr. cbn [node_data].
  rewrite Hw. cbn [bind]. rewrite Ha. cbn [bind].
  cbn [type_id actual wanted].
  rewrite !(bool_decide_eq_false_2 (_ = TypeTableEntryIdInvalid)) by discriminate.
  cbn [orb].
  rewrite (types_match_const_cast_only_ints wanted actual) by done. cbn [bind].
  rewrite !(bool_decide_eq_false_2 (TypeTableEntryIdInt = TypeTableEntryIdPointer))
    by discriminate.
  rewrite !andb_false_r. cbn [andb].
  rewrite !(bool_decide_eq_true_2 (TypeTableEntryIdInt = TypeTableEntryIdInt)) by done.
  cbn [andb]. unfold eval_const_expr_implicit_cast.
  cbn [get_resolved_expr set_node_data]. rewrite Hc. cbn [bind].
  by destruct re.
Qed.

Lemma analyze_expression_type_node_data sz fuel g import context k t :
  exists node_t,
    analyze_expression sz (S fuel) g import context None
      (mkAstNode k (symbol_expr "" (Some t)) expr_zero)
    = Ok (entry_type, node_t, g) /\
    const_ok (const_val (get_resolved_expr node_t)) = true /\
    node_data node_t = symbol_expr "" (Some t).
Proof. eexists. split; [reflexivity|]. split; reflexivity. Qed.

(** The counterpart without the optional: the same variable where the wider
    integer type itself is expected is put under a cast node that widens it,
    and no error is reported. *)
Theorem implicit_cast_to_wider_int sz fuel g import context i symbol re var
    na nc s ba bc :
  let actual := TypeInt na s ba in
  let wanted := TypeInt nc s bc in
  let node := mkAstNode i (symbol_expr symbol None) re in
  primitive_type_table g !! symbol = None ->
  find_variable context symbol = Some var ->
  var_is_const var = false ->
  var_type var = actual ->
  wanted <> actual ->
  ba <= bc ->
  const_ok (const_val re) = false ->
  exists type_node,
    analyze_expression sz (S (S (S fuel))) g import context (Some wanted) node
    = Ok (wanted,
          mkAstNode (next_node_index g)
            (fn_call_expr type_node [set_type_entry node actual] CastOpIntWidenOrShorten)
            {| type_entry := Some wanted; const_val := const_val expr_zero |},
          set_next_node_index g (wrap32 (wrap32 (next_node_index g + 1) + 1))) /\
    node_data type_node = symbol_expr "" (Some wanted).
Proof.
  intros actual wanted node Hp Hv Hk Ht Hne Hle Hc.
  subst actual wanted node.
  rewrite analyze_expression_S. unfold analyze_expression_body at 1.
  cbn [node_data]. unfold analyze_symbol_expr at 1.
  rewrite Hp, Hv, Hk, Ht. cbn [bind].
  unfold resolve_type_compatibility at 1.
  rewrite type_eqb_neq by done.
  cbn [type_id].
  rewrite !(bool_decide_eq_false_2 (_ = TypeTableEntryIdInvalid)) by discriminate.
  cbn [orb]. destruct (decide _) as [?|_]; [done|].
  rewrite types_match_with_implicit_cast_widen by done. cbn [bind].
  unfold create_and_analyze_cast_node, create_ast_type_node, create_ast_node.
  cbn [next_node_index set_next_node_index].
  rewrite analyze_expression_S. unfold analyze_expression_body at 1.
  cbn [node_data]. unfold analyze_fn_call_expr at 1. cbn [node_data].
  match goal with
  | |- context [analyze_expression sz (S fuel) ?g0 import context None
                  (mkAstNode ?k (symbol_expr "" (Some ?t)) expr_zero)] =>
      destruct (analyze_expression_type_node_data sz fuel g0 import context k t)
        as (node_t & -> & Hok & Hd)
  end.
  cbn [bind set_node_data].
  destruct (decide _) as [?|_]; [done|]. rewrite Hok.
  destruct (decide _) as [_|?]; [|done].
  erewrite analyze_cast_expr_int_to_other_int;
    [|unfold resolve_type; rewrite Hd; reflexivity| |exact Hne|].
  2: { rewrite (analyze_expression_variable _ _ _ _ _ _ _ _ var);
         [|by rewrite (primitive_type_table_ext g)|done..].
       rewrite Ht. reflexivity. }
  2: { by destruct re. }
  cbn [bind]. unfold resolve_type_compatibility.
  rewrite type_eqb_refl. cbn [bind].
  exists node_t. split; [reflexivity | exact Hd].
Qed.

Lemma implicit_cast_to_wider_int_witness :
  let r := analyze_expression size_in_bits 3 example_session 0 example_fn_context
             (Some entry_i64) (symbol_node 12 "a") in
  result_type r = Some entry_i64 /\ result_errors r = [].
Proof.
  unfold symbol_node. cbv zeta.
  edestruct implicit_cast_to_wider_int
    with (sz := size_in_bits) (fuel := 0%nat) (g := example_session) (import := 0)
         (context := example_fn_context) (i := 12) (symbol := "a") (re := expr_zero)
         (var := example_local "a" entry_i32)
         (na := "i32") (nc := "i64") (s := true) (ba := 32) (bc := 64)
    as [type_node [H _]].
  - vm_compute. reflexivity.
  - vm_compute. reflexivity.
  - reflexivity.
  - reflexivity.
  - discriminate.
  - lia.
  - reflexivity.
  - change entry_i64 with (TypeInt "i64" true 64). rewrite H.
    split; vm_compute; reflexivity.
Defined.

(** ** The implicit conversions against the relations of the specification *)

(** The structural match of the code returns true exactly on the relation
    of the specification. *)
Lemma types_match_const_cast_only_spec (e : TypeTableEntry) : forall a,
  types_match_const_cast_only e a = Ok true <-> spec_const_cast_match e a.
Proof.
  assert (Hto : forall e a, spec_const_cast_match e a ->
                            types_match_const_cast_only e a = Ok true).
  { clear e. intros e a H. induction H as [t|e a ek ak Hk H IH|e a ek ak Hk H IH|e a H IH|e a H IH].
    - apply types_match_const_cast_only_refl.
    - rewrite types_match_const_cast_only_unfold.
      destruct (type_eqb _ _); [done|].
      destruct ak, ek; cbn; try done. by specialize (Hk eq_refl).
    - rewrite types_match_const_cast_only_unfold.
      destruct (type_eqb _ _); [done|].
      destruct ak, ek; cbn; try done. by specialize (Hk eq_refl).
    - rewrite types_match_const_cast_only_unfold.
      destruct (type_eqb _ _); done.
    - rewrite types_match_const_cast_only_unfold.
      destruct (type_eqb _ _); done. }
  type_induction e; intros a; (split; [|apply Hto]);
    rewrite types_match_const_cast_only_unfold;
    (destruct (type_eqb _ a) eqn:E;
     [apply type_eqb_eq in E; subst a; intros _; constructor|]);
    destruct a as [| | | | | | | | |? ? ?|? ?|a ak|a ?|a ak|? ? |? ?|a|a|? ? ? ? ? ?];
    try discriminate.
  - destruct ek, ak; cbn; try discriminate; intros H%IHe; constructor; done.
  - destruct ek, ak; cbn; try discriminate; intros H%IHe; constructor; done.
  - intros H%IHe. by constructor.
  - intros H%IHe. by constructor.
Qed.

Lemma bignum_fits_in_bits_spec bn bits is_signed :
  bignum_fits_in_bits bn bits is_signed = true <-> spec_in_int_range bn is_signed bits.
Proof.
  unfold bignum_fits_in_bits, spec_in_int_range.
  destruct is_signed; by rewrite bool_decide_eq_true.
Qed.

(** The check of a literal returns true exactly when the literal fits. *)
Lemma num_lit_fits_in_other_type_spec g lit e :
  (exists g', num_lit_fits_in_other_type g lit e = Ok (true, g')) <->
  spec_literal_fits (const_val (get_resolved_expr lit)) e.
Proof.
  unfold num_lit_fits_in_other_type, spec_literal_fits, get_x_bignum.
  set (v := const_val (get_resolved_expr lit)).
  destruct (const_ok v) eqn:Hok; cycle 1.
  { split.
    - intros [g' H]. case_decide; [discriminate|]. discriminate.
    - intros [? _]. discriminate. }
  cbn [assert bind]. split.
  - intros [g' H]. split; [done|].
    destruct (decide (type_id e = TypeTableEntryIdInvalid)) as [|Hi]; [discriminate|].
    destruct (decide (type_id e = TypeTableEntryIdFloat)) as [|Hf]; [by left|].
    right. destruct (const_data v) as [|bn| | | | | | | | |]; try discriminate H.
    exists bn. split; [done|]. cbn [bind] in H.
    destruct e; cbn [type_id] in *;
      repeat (rewrite bool_decide_eq_false_2 in H by discriminate; cbn [andb orb negb] in H);
      try discriminate H; try done.
    + destruct (bignum_kind bn); [done|discriminate H].
    + destruct (bignum_kind bn); [discriminate H|done].
    + rewrite (bool_decide_eq_true_2 (TypeTableEntryIdInt = TypeTableEntryIdInt)) in H by done.
      cbn [andb negb] in H.
      destruct (bool_decide (bignum_kind bn = BigNumKindInt)) eqn:Hk;
        cbn [andb negb orb] in H.
      * apply bool_decide_eq_true in Hk. split; [done|].
        apply bignum_fits_in_bits_spec.
        destruct (bignum_fits_in_bits _ _ _); [done|discriminate H].
      * rewrite !bool_decide_eq_false_2 in H by discriminate. discriminate H.
  - intros (_ & Hfits).
    destruct (decide (type_id e = TypeTableEntryIdInvalid)) as [Hi|Hi].
    { destruct Hfits as [Hf|(bn & _ & Hbn)]; [congruence|]. by destruct e. }
    destruct (decide (type_id e = TypeTableEntryIdFloat)) as [|Hf]; [by eexists|].
    destruct Hfits as [?|(bn & -> & Hbn)]; [done|]. cbn [bind].
    destruct e as [| | | | | | | | |n s z| | | | | | | | |]; try done; cbn.
    + rewrite Hbn. by eexists.
    + rewrite Hbn. by eexists.
    + destruct Hbn as [-> Hr%bignum_fits_in_bits_spec]. rewrite Hr. by eexists.
Qed.

(** For all types, [types_match_with_implicit_cast] returns true exactly
    when one of these holds: the types match structurally up to constness
    (they are equal, or two pointers or two slices whose pointees match and
    of which the actual one is const only if the expected one is, or two
    optionals or two error unions whose payloads match); the expected type
    is an optional or an error union whose payload implicitly accepts the
    actual type; an error union is expected and a pure error given; both are
    integer types of the same signedness and the expected one is at least as
    wide; a slice is expected and an array given whose elements match
    structurally up to constness; or the actual type is that of a number
    literal whose value is known and fits the expected type (a float type,
    an integer type in whose range the integer lies, or the literal type of
    its kind). *)
Theorem types_match_with_implicit_cast_spec (expected_type : TypeTableEntry) :
  forall (g : CodeGen) (actual_type : TypeTableEntry) (literal_node : AstNode)
         (reported_err : bool),
  implicit_cast_matches g expected_type actual_type literal_node reported_err <->
  spec_implicit_cast (const_val (get_resolved_expr literal_node)) expected_type actual_type.
Proof.
  assert (Hto : forall g lit r e a,
            spec_implicit_cast (const_val (get_resolved_expr lit)) e a ->
            implicit_cast_matches g e a lit r).
  { intros g lit r e a H.
    induction H as [e a H|e a H IH|e a H IH|e|en an s eb ab Hb|ec ek ac len H|e a Ha H];
      apply types_match_with_implicit_cast_true.
    - left. by apply types_match_const_cast_only_spec.
    - right; left. exists e. split; [by left|done].
    - right; left. exists e. split; [by right|done].
    - right; right; left. done.
    - right; right; right; left. done.
    - right; right; right; right; left. eexists _, _, _, _.
      split; [done|]. split; [done|]. by apply types_match_const_cast_only_spec.
    - right; right; right; right; right. split.
      + destruct Ha as [-> | ->]; [by right|by left].
      + by apply num_lit_fits_in_other_type_spec. }
  rename expected_type into e.
  type_induction e; intros g a lit r; (split; [|apply Hto]);
    intros H%types_match_with_implicit_cast_true;
    destruct H as [H|[(ch & Hc & H)|[[He Ha]|[(He & Ha & Hs & Hb)|
                   [(ec' & ek' & ac' & len' & He & Ha & H)|[Ha (g' & H)]]]]]].
  all: try (apply spec_cast_match; by apply types_match_const_cast_only_spec).
  all: try (destruct Hc as [Hc|Hc]; discriminate Hc).
  all: try discriminate He.
  all: try (apply spec_cast_literal;
            [destruct a; cbn in Ha; destruct Ha as [Ha|Ha]; try discriminate Ha; auto
            |apply (num_lit_fits_in_other_type_spec g); eauto]).
  - destruct a as [| | | | | | | | |n' s' z'| | | | | | | | |]; try discriminate Ha.
    cbn in Hs, Hb. subst s'. by apply spec_cast_widen.
  - injection He as <- <-. subst a. apply spec_cast_array_to_slice.
    by apply types_match_const_cast_only_spec.
  - destruct Hc as [[= <-]|Hc]; [|discriminate Hc].
    apply spec_cast_wrap_optional. by apply (IHe g a lit r).
  - destruct Hc as [Hc|[= <-]]; [discriminate Hc|].
    apply spec_cast_wrap_error_union. by apply (IHe g a lit r).
  - destruct a; try discriminate Ha. apply spec_cast_pure_error.
Qed.
